(** * YouTube channel scraper: a shallow embedding of [scrapperv1.py]

    The development embeds the scraper (duration parsing, per-year
    analytics, paginated listing, batched statistics, ranking, the
    credential life cycle, the configuration and the run as a whole) and
    states its properties.

    Conventions.
    - A Python [str] is a [string]; a character is a code point below 256.
    - A Python exception is a constructor of [exn]; a computation that may
      raise has type [result A].
    - A remote service is a function from a request to a [result]: during
      a run the answer of the platform depends on the request alone.
    - A function that only fetches runs on its local mapping and on the
      calls it issues; it is embedded a second time with the records it
      logs, for [main], and the two are shown to agree.
    - A function that reads or writes files runs on the files that exist;
      what it logs goes to the log file, which is one of them.
    - [time.sleep] and what is printed on the console have no effect on the
      values computed nor on the files, and are left out. *)

From Stdlib Require Import ZArith Lia Ascii Bool Permutation Sorted.
From Stdlib Require String OrderedTypeEx.
From stdpp Require Import base option list sorting strings pretty gmap.

Local Open Scope Z_scope.

(** ** Python exceptions and results *)

Inductive exn : Type :=
| HttpError
| ValueError
| IndexError
| TypeError
| FileNotFoundError
| OtherError.

Inductive result (A : Type) : Type :=
| Return (a : A)
| Raise (e : exn).
Arguments Return {A} a.
Arguments Raise {A} e.

Definition exn_eqb (a b : exn) : bool :=
  match a, b with
  | HttpError, HttpError | ValueError, ValueError | IndexError, IndexError
  | TypeError, TypeError | FileNotFoundError, FileNotFoundError
  | OtherError, OtherError => true
  | _, _ => false
  end.

#[global] Instance result_ret : MRet result := fun A a => Return a.
#[global] Instance result_bind : MBind result := fun A B k m =>
  match m with
  | Return a => k a
  | Raise e => Raise e
  end.

(** ** Python strings *)

Module PyStr.

Fixpoint take (n : nat) (s : string) : string :=
  match n, s with
  | S n', String c s' => String c (take n' s')
  | _, _ => EmptyString
  end.

Fixpoint drop (n : nat) (s : string) : string :=
  match n, s with
  | S n', String _ s' => drop n' s'
  | _, _ => s
  end.

Definition len (s : string) : Z := Z.of_nat (String.length s).

(** A slice bound: negative bounds count from the end, and every bound is
    clipped to the string. *)
Definition bound (s : string) (i : Z) : nat :=
  Z.to_nat (Z.min (len s) (if i <? 0 then Z.max 0 (len s + i) else i)).

(** [s[i:]] *)
Definition slice_from (s : string) (i : Z) : string := drop (bound s i) s.

(** [s[:i]] *)
Definition slice_to (s : string) (i : Z) : string := take (bound s i) s.

(** [s.find(c)] for a one-character [c]: the lowest index, or -1. *)
Fixpoint find (s : string) (c : ascii) : Z :=
  match s with
  | EmptyString => -1
  | String a s' =>
      if Ascii.eqb a c then 0
      else let r := find s' c in if r =? -1 then -1 else r + 1
  end.

(** [sep.join(l)] *)
Fixpoint join (sep : string) (l : list string) : string :=
  match l with
  | [] => EmptyString
  | [x] => x
  | x :: l' => x +:+ sep +:+ join sep l'
  end.

(** The characters [int] skips around a number: tab, line feed, vertical
    tab, form feed, carriage return, space, next line, no-break space. *)
Definition is_space (c : ascii) : bool :=
  let n := nat_of_ascii c in
  ((9 <=? n) && (n <=? 13) || (n =? 32) || (n =? 133) || (n =? 160))%nat.

Definition is_digit (c : ascii) : bool :=
  let n := nat_of_ascii c in ((48 <=? n) && (n <=? 57))%nat.

Definition digit_value (c : ascii) : Z := Z.of_nat (nat_of_ascii c) - 48.

Fixpoint lstrip (l : list ascii) : list ascii :=
  match l with
  | c :: l' => if is_space c then lstrip l' else l
  | [] => []
  end.

Definition strip (l : list ascii) : list ascii :=
  rev (lstrip (rev (lstrip l))).

(** Decimal digits, single underscores allowed between two digits. *)
Fixpoint int_digits (acc : Z) (after_digit : bool) (l : list ascii)
  : option Z :=
  match l with
  | [] => if after_digit then Some acc else None
  | c :: l' =>
      if is_digit c then int_digits (10 * acc + digit_value c) true l'
      else if Ascii.eqb c "_" && after_digit then int_digits acc false l'
      else None
  end.

(** The most digits [int] converts: the interpreter's default limit. *)
Definition max_str_digits : Z := 4300.

(** The number of digits in [l]. *)
Definition count_digits (l : list ascii) : Z :=
  Z.of_nat (length (List.filter is_digit l)).

(** [int(s)] in base ten: surrounding white space, an optional sign, then
    digits. The value is unbounded, as in the language; a text with more
    than [max_str_digits] digits is refused, like one that is no number,
    with [ValueError]. *)
Definition int (s : string) : result Z :=
  let body := strip (String.list_ascii_of_string s) in
  let parsed :=
    match body with
    | c :: l' =>
        if Ascii.eqb c "+" then int_digits 0 false l'
        else if Ascii.eqb c "-" then Z.opp <$> int_digits 0 false l'
        else int_digits 0 false body
    | [] => None
    end in
  match parsed with
  | Some z =>
      if count_digits body <=? max_str_digits then Return z
      else Raise ValueError
  | None => Raise ValueError
  end.

End PyStr.

(** ** [parse_duration] *)

Definition parse_duration (duration_iso : string) : result Z :=
  let time_str := PyStr.slice_from duration_iso 2 in
  let h_pos := PyStr.find time_str "H" in
  '(hours, time_str) ←
     (if negb (h_pos =? -1)
      then hours ← PyStr.int (PyStr.slice_to time_str h_pos);
           Return (hours, PyStr.slice_from time_str (h_pos + 1))
      else Return (0, time_str));
  let m_pos := PyStr.find time_str "M" in
  '(minutes, time_str) ←
     (if negb (m_pos =? -1)
      then minutes ← PyStr.int (PyStr.slice_to time_str m_pos);
           Return (minutes, PyStr.slice_from time_str (m_pos + 1))
      else Return (0, time_str));
  let s_pos := PyStr.find time_str "S" in
  seconds ←
     (if negb (s_pos =? -1)
      then PyStr.int (PyStr.slice_to time_str s_pos)
      else Return 0);
  Return (hours * 3600 + minutes * 60 + seconds).

(** ** Effects: a mutable store, the remote calls issued, exceptions

    A statement runs in a state and either returns or raises; like the
    interpreter's heap, the state survives an exception, so an [except]
    handler sees every mutation made before the [raise]. *)

Definition eff (S A : Type) : Type := S -> result A * S.

#[global] Instance eff_ret {S} : MRet (eff S) := fun A a s => (Return a, s).
#[global] Instance eff_bind {S} : MBind (eff S) := fun A B k m s =>
  match m s with
  | (Return a, s') => k a s'
  | (Raise e, s') => (Raise e, s')
  end.

Definition lift {S A} (r : result A) : eff S A := fun s => (r, s).
Definition get_state {S} : eff S S := fun s => (Return s, s).
Definition modify {S} (f : S -> S) : eff S unit := fun s => (Return tt, f s).

(** [try: body except E: handler]. Only the exception class [E] is caught;
    every other exception leaves the statement. *)
Definition try_eff {S A} (body : eff S A) (E : exn) (handler : eff S A)
  : eff S A := fun s =>
  match body s with
  | (Return a, s') => (Return a, s')
  | (Raise e, s') => if exn_eqb e E then handler s' else (Raise e, s')
  end.

(** [try: body except Exception as e: handler e]: every exception is
    caught. *)
Definition try_eff_all {S A} (body : eff S A) (handler : exn -> eff S A)
  : eff S A := fun s =>
  match body s with
  | (Return a, s') => (Return a, s')
  | (Raise e, s') => handler e s'
  end.

(** [for x in l: body x] *)
Fixpoint for_each {S A} (l : list A) (body : A -> eff S unit) : eff S unit :=
  match l with
  | [] => mret tt
  | x :: l' => _ ← body x; for_each l' body
  end.

(** The state of a fetch: the dictionary being filled and the requests sent
    to the platform so far, oldest first. *)
Record fetch (D Req : Type) : Type := Fetch { store : D; calls : list Req }.
Arguments Fetch {D Req} store calls.
Arguments store {D Req} f.
Arguments calls {D Req} f.

(** [.execute()]: send [req]; the platform answers or the call raises. *)
Definition execute {D Req Resp} (svc : Req -> result Resp) (req : Req)
  : eff (fetch D Req) Resp := fun s =>
  (svc req, Fetch (store s) (calls s ++ [req])).

Definition update_store {D Req} (f : D -> D) : eff (fetch D Req) unit :=
  modify (fun s => Fetch (f (store s)) (calls s)).

Definition read_store {D Req} : eff (fetch D Req) D :=
  s ← get_state; mret (store s).

(** [l[i]] *)
Definition py_index {A} (l : list A) (i : nat) : result A :=
  match l !! i with
  | Some a => Return a
  | None => Raise IndexError
  end.

(** [range(a, b)] *)
Definition py_range (a b : Z) : list Z := seqZ a (b - a).

(** ** [get_annual_views] *)

Record ReportQuery : Type := {
  rq_ids : string;
  rq_startDate : string;
  rq_endDate : string;
  rq_metrics : string
}.

(** A report: the [rows] key may be missing; a row is a list of cells and a
    cell is an integer, which [int] leaves as it is. *)
Record Report : Type := { rows : option (list (list Z)) }.

Definition analytics_service : Type := ReportQuery -> result Report.

Definition annual_query (channel_id : string) (year : Z) : ReportQuery :=
  {| rq_ids := "channel==" +:+ channel_id;
     rq_startDate := pretty year +:+ "-01-01";
     rq_endDate := pretty year +:+ "-12-31";
     rq_metrics := "views" |}.

(** The body of the loop over the years. *)
Definition annual_step (youtube_analytics : analytics_service)
    (channel_id : string) (year : Z) : eff (fetch (gmap Z Z) ReportQuery) unit :=
  try_eff
    (response ← execute youtube_analytics (annual_query channel_id year);
     row ← lift (py_index (default [[0]] (rows response)) 0);
     views ← lift (py_index row 0);
     update_store <[year := views]>)
    HttpError
    (update_store <[year := 0]>).

(** The result, and the state the function leaves behind. *)
Definition get_annual_views (youtube_analytics : analytics_service)
    (channel_id : string) (start_year end_year : Z)
  : result (gmap Z Z) * fetch (gmap Z Z) ReportQuery :=
  (_ ← for_each (py_range start_year (end_year + 1))
         (annual_step youtube_analytics channel_id);
   read_store) (Fetch ∅ []).

(** ** [get_videos_by_year] *)

Record PlaylistRequest : Type := {
  pr_part : string;
  pr_playlistId : string;
  pr_maxResults : Z;
  pr_pageToken : option string
}.

(** One entry of a page: [item["snippet"]["resourceId"]["videoId"]] and
    [item["snippet"]["publishedAt"]]. *)
Record PlaylistItem : Type := {
  pi_videoId : string;
  pi_publishedAt : string
}.

(** A page: both keys may be missing. *)
Record PlaylistPage : Type := {
  pp_items : option (list PlaylistItem);
  pp_nextPageToken : option string
}.

Definition playlist_service : Type := PlaylistRequest -> result PlaylistPage.

(** The request for the page named by [pageToken]. *)
Definition playlist_request (uploads_playlist_id : string)
    (pageToken : option string) : PlaylistRequest :=
  {| pr_part := "snippet";
     pr_playlistId := uploads_playlist_id;
     pr_maxResults := 50;
     pr_pageToken := pageToken |}.

(** Truth value of an optional string: [None] and the empty string are
    false. *)
Definition truthy (o : option string) : bool :=
  match o with
  | Some s => negb (String.eqb s "")
  | None => false
  end.

(** The body of the [for item in ...] loop. *)
Definition place_item (item : PlaylistItem)
    (videos_by_year : gmap string (list string)) : gmap string (list string) :=
  let video_id := pi_videoId item in
  let published_at := pi_publishedAt item in
  let year := PyStr.slice_to published_at 4 in
  let videos_by_year :=
    if decide (year ∈ dom videos_by_year) then videos_by_year
    else <[year := []]> videos_by_year in
  alter (fun l => l ++ [video_id]) year videos_by_year.

(** The [while True] loop, [fuel] bounding the number of iterations;
    [None] is returned when the bound is reached before the [break]. The
    counter [total_videos] is only logged. *)
Fixpoint playlist_loop (fuel : nat) (youtube : playlist_service)
    (uploads_playlist_id : string) (nextPageToken : option string)
  : eff (fetch (gmap string (list string)) PlaylistRequest) (option unit) :=
  match fuel with
  | O => mret None
  | S fuel' =>
      playlist_response ←
        execute youtube (playlist_request uploads_playlist_id nextPageToken);
      _ ← for_each (default [] (pp_items playlist_response))
            (fun item => update_store (place_item item));
      let nextPageToken := pp_nextPageToken playlist_response in
      if negb (truthy nextPageToken) then mret (Some tt)
      else playlist_loop fuel' youtube uploads_playlist_id nextPageToken
  end.

(** The result, [None] standing for a loop that has not ended within
    [fuel] iterations, and the state the function leaves behind. *)
Definition get_videos_by_year (fuel : nat) (youtube : playlist_service)
    (uploads_playlist_id : string)
  : result (option (gmap string (list string)))
    * fetch (gmap string (list string)) PlaylistRequest :=
  try_eff
    (r ← playlist_loop fuel youtube uploads_playlist_id None;
     videos_by_year ← read_store;
     mret (_ ← r; Some videos_by_year))
    HttpError
    (videos_by_year ← read_store; mret (Some videos_by_year))
    (Fetch ∅ []).

(** ** Ordered dictionaries

    A [dict] whose iteration order matters: the entries in insertion order;
    assigning to a key that is present keeps its position. *)

Module PyDict.
Section Dict.
Context {V : Type}.

Definition t : Type := list (string * V).

(** [d[k] = v] *)
Fixpoint set (k : string) (v : V) (d : t) : t :=
  match d with
  | [] => [(k, v)]
  | (k', v') :: d' =>
      if String.eqb k k' then (k, v) :: d' else (k', v') :: set k v d'
  end.

Definition keys (d : t) : list string := d.*1.

Definition items (d : t) : list (string * V) := d.
End Dict.
Arguments t V : clear implicits.
End PyDict.

(** ** [get_video_stats] *)

Record VideosRequest : Type := {
  vr_part : string;
  vr_id : string
}.

Record Statistics : Type := {
  viewCount : option string;
  likeCount : option string;
  commentCount : option string
}.

Record ContentDetails : Type := { cd_duration : option string }.

Record Thumbnail : Type := { th_url : option string }.

(** One video resource. [id], [snippet.title], [snippet.publishedAt] and
    [snippet.thumbnails] are read with [item[...]]; the others with [.get]. *)
Record Video : Type := {
  v_id : string;
  v_title : string;
  v_publishedAt : string;
  v_thumbnails_high : option Thumbnail;
  v_statistics : option Statistics;
  v_contentDetails : option ContentDetails
}.

Record VideoList : Type := { vl_items : option (list Video) }.

Definition videos_service : Type := VideosRequest -> result VideoList.

Record VideoRecord : Type := {
  title : string;
  views : Z;
  likes : Z;
  comments : Z;
  duration : Z;
  published_at : string;
  thumbnail : string
}.

(** [int(statistics.get(key, 0))]: the platform sends counts as strings. *)
Definition int_or_zero (field : option string) : result Z :=
  match field with
  | Some s => PyStr.int s
  | None => Return 0
  end.

(** [range(start, stop, step)] for a positive [step]. *)
Definition py_range_step (start stop step : nat) : list nat :=
  (fun k => start + k * step)%nat <$> seq 0 ((stop - start + step - 1) / step)%nat.

(** [l[i:j]] for indices that are not negative. *)
Definition list_slice {A} (l : list A) (i j : nat) : list A :=
  take (j - i) (drop i l).

(** The body of the [for item in ...] loop: build the record of one video. *)
Definition video_record (item : Video) : result VideoRecord :=
  let title := v_title item in
  let statistics :=
    default {| viewCount := None; likeCount := None; commentCount := None |}
            (v_statistics item) in
  let content_details :=
    default {| cd_duration := None |} (v_contentDetails item) in
  let duration_iso := default "PT0S" (cd_duration content_details) in
  duration_seconds ← parse_duration duration_iso;
  views ← int_or_zero (viewCount statistics);
  likes ← int_or_zero (likeCount statistics);
  comments ← int_or_zero (commentCount statistics);
  Return {| title := title;
            views := views;
            likes := likes;
            comments := comments;
            duration := duration_seconds;
            published_at := v_publishedAt item;
            thumbnail :=
              default "" (th_url (default {| th_url := None |}
                                          (v_thumbnails_high item))) |}.

Definition videos_request (batch : list string) : VideosRequest :=
  {| vr_part := "statistics,snippet,contentDetails";
     vr_id := PyStr.join "," batch |}.

(** The body of the loop over the items of a response. *)
Definition stats_item (item : Video)
  : eff (fetch (PyDict.t VideoRecord) VideosRequest) unit :=
  let video_id := v_id item in
  record ← lift (video_record item);
  update_store (PyDict.set video_id record).

(** The body of the loop over the batches, for one batch. *)
Definition stats_batch (youtube : videos_service) (batch : list string)
  : eff (fetch (PyDict.t VideoRecord) VideosRequest) unit :=
  try_eff
    (response ← execute youtube (videos_request batch);
     for_each (default [] (vl_items response)) stats_item)
    HttpError
    (mret tt).

(** The result, and the state the function leaves behind. *)
Definition get_video_stats (youtube : videos_service) (video_ids : list string)
  : result (PyDict.t VideoRecord)
    * fetch (PyDict.t VideoRecord) VideosRequest :=
  (_ ← for_each (py_range_step 0 (length video_ids) 50) (fun i =>
         let batch := list_slice video_ids i (i + 50) in
         stats_batch youtube batch);
   read_store) (Fetch [] []).

(** ** [get_top_videos] *)

(** The values stored in a record: integers and strings. *)
Inductive pyval : Type :=
| VInt (z : Z)
| VStr (s : string).

#[global] Instance pyval_eq_dec : EqDecision pyval.
Proof. solve_decision. Defined.

(** [record.get(key, dflt)] *)
Definition record_get (r : VideoRecord) (key : string) (dflt : pyval) : pyval :=
  if String.eqb key "title" then VStr (title r)
  else if String.eqb key "views" then VInt (views r)
  else if String.eqb key "likes" then VInt (likes r)
  else if String.eqb key "comments" then VInt (comments r)
  else if String.eqb key "duration" then VInt (duration r)
  else if String.eqb key "published_at" then VStr (published_at r)
  else if String.eqb key "thumbnail" then VStr (thumbnail r)
  else dflt.

(** [a < b]: integers by value, strings by code points; an integer and a
    string do not compare. *)
Definition py_lt (a b : pyval) : result bool :=
  match a, b with
  | VInt x, VInt y => Return (x <? y)
  | VStr x, VStr y => Return (String.ltb x y)
  | _, _ => Raise TypeError
  end.

Section Sorted.
Context {A : Type} (key : A -> pyval).

(** Put [x] behind every element that is not greater than it. *)
Fixpoint insert_last (x : A) (l : list A) : result (list A) :=
  match l with
  | [] => Return [x]
  | y :: l' =>
      b ← py_lt (key x) (key y);
      if b : bool then Return (x :: y :: l')
      else (r ← insert_last x l'; Return (y :: r))
  end.

(** The stable ascending sort: elements are taken in input order and each
    goes behind the equal ones already placed. *)
Fixpoint sort_from (acc l : list A) : result (list A) :=
  match l with
  | [] => Return acc
  | x :: l' => acc' ← insert_last x acc; sort_from acc' l'
  end.

(** [sorted(l, key=key, reverse=reverse)]. With [reverse] the interpreter
    reverses the list, sorts it ascending and stable, and reverses the
    outcome. *)
Definition sorted (l : list A) (reverse : bool) : result (list A) :=
  if reverse then (l' ← sort_from [] (List.rev l); Return (List.rev l'))
  else sort_from [] l.
End Sorted.

(** [l[:j]], for any integer [j]. *)
Definition list_slice_to {A} (l : list A) (j : Z) : list A :=
  take (Z.to_nat (Z.min (Z.of_nat (length l))
                    (if j <? 0 then Z.max 0 (Z.of_nat (length l) + j) else j))) l.

Definition get_top_videos (stats : PyDict.t VideoRecord) (metric : string)
    (limit : Z) : result (list (string * VideoRecord)) :=
  sorted_videos ←
    sorted (fun x : string * VideoRecord => record_get x.2 metric (VInt 0))
           (PyDict.items stats) true;
  Return (list_slice_to sorted_videos limit).

(** The default of the [limit] argument. *)
Definition default_limit : Z := 5.

(** ** [get_authenticated_services] *)

(** What the scraper reads of a credential: whether it is valid, whether it
    is expired, and its refresh token. *)
Record Credentials : Type := {
  cr_token : string;
  cr_refresh_token : option string;
  cr_valid : bool;
  cr_expired : bool
}.

Record Config : Type := {
  cfg_client_secrets_file : string;
  cfg_token_file : string;
  cfg_scopes : list string;
  cfg_api_service_name : string * string;
  cfg_api_version : string * string
}.

(** The authorization library and the consent flow, as the scraper calls
    them. *)
Record AuthLibrary (Service : Type) : Type := {
  (** [Credentials.from_authorized_user_info(json.loads(text), scopes)] *)
  from_authorized_user_info : string -> list string -> result Credentials;
  (** [creds.refresh(Request())]: the credential as updated in place. *)
  refresh : Credentials -> result Credentials;
  (** [InstalledAppFlow.from_client_secrets_file(path, scopes)
       .run_local_server(port=0)], given the content of the file. *)
  run_local_server : string -> list string -> result Credentials;
  (** [creds.to_json()] *)
  to_json : Credentials -> string;
  (** [build(name, version, credentials=creds)] *)
  build : string -> string -> option Credentials -> result Service
}.
Arguments from_authorized_user_info {Service} a _ _.
Arguments refresh {Service} a _.
Arguments run_local_server {Service} a _ _.
Arguments to_json {Service} a _.
Arguments build {Service} a _ _ _.

(** ** Files and the log

    The files that exist, each with its content. A file is known by a
    name; a path names a file, and two paths may name the same one. *)

Inductive LogRecord : Type :=
(** [logger.info(f"Archivo de configuración creado: {CONFIG_FILE}")] *)
| ConfigCreated (path : string)
(** [logger.error(f"Error al cargar credenciales: {e}")] *)
| CredentialsNotLoaded (e : exn)
(** [logger.error(f"Error al refrescar token: {e}")] *)
| TokenNotRefreshed (e : exn)
(** [logger.error(f"Archivo de credenciales no encontrado: {client_secrets_path}")] *)
| SecretsNotFound (path : string)
(** [logger.info("Nuevas credenciales guardadas")] *)
| CredentialsSaved
(** [logger.error(f"Error en el proceso de autenticación: {e}")] *)
| AuthenticationFailed (e : exn)
(** [logger.error(f"Error al construir servicios de API: {e}")] *)
| ServicesNotBuilt (e : exn)
(** [logger.info(f"Obtenidas {views} visualizaciones para el año {year}")] *)
| ViewsFetched (views year : Z)
(** [logger.error(f"Error al obtener visualizaciones para {year}: {e}")] *)
| ViewsNotFetched (year : Z) (e : exn)
(** [logger.error(f"No se encontró el canal con ID: {channel_id}")] *)
| ChannelNotFound (channel_id : string)
(** [logger.info(f"ID de playlist de uploads: {uploads_playlist_id}")] *)
| UploadsPlaylistFound (uploads_playlist_id : string)
(** [logger.error(f"Error al obtener playlist de uploads: {e}")] *)
| UploadsPlaylistNotFetched (e : exn)
(** [logger.info(f"Total de videos extraídos: {total_videos} en {len(videos_by_year)} años")] *)
| VideosListed (total_videos years : nat)
(** [logger.error(f"Error al obtener videos por año: {e}")] *)
| VideosNotListed (e : exn)
(** [logger.info(f"Procesados {len(batch)} videos (IDs {i}-{i+len(batch)-1})")] *)
| StatsProcessed (videos : nat) (first last : Z)
(** [logger.error(f"Error al obtener estadísticas para el lote {i}-{i+len(batch)-1}: {e}")] *)
| StatsNotFetched (first last : Z) (e : exn)
(** [logger.error("No se pudo obtener la playlist de uploads. Finalizando.")] *)
| UploadsPlaylistMissing
(** [logger.info(f"Obteniendo estadísticas para {len(video_ids)} videos del año {year}")] *)
| YearStatsRequested (videos : nat) (year : string)
(** [logger.info(f"Datos guardados en {filename}")] *)
| DataSaved (filename : string)
(** [logger.error(f"Error al guardar datos en {filename}: {e}")] *)
| DataNotSaved (filename : string) (e : exn)
(** [logger.error(f"Error en la ejecución principal: {e}", exc_info=True)] *)
| RunFailed (e : exn).

(** The operating system and the logging module, as the scraper meets
    them. *)
Record System : Type := {
  (** the file that a path names *)
  sys_file : string -> string;
  (** the exception with which [open(path, 'w')] fails, if it fails *)
  sys_open_error : string -> option exn;
  (** the line that the file handler writes for a record, time stamp
      included, given what the log file holds *)
  sys_log_line : string -> LogRecord -> string
}.

(** The file of [logging.FileHandler("youtube_scraper.log")]. *)
Definition LOG_FILE : string := "youtube_scraper.log".

(** [open(path, 'r')] and the reading of the file. *)
Definition read_file (sys : System) (path : string)
  : eff (gmap string string) string :=
  fs ← get_state;
  match fs !! sys_file sys path with
  | Some text => mret text
  | None => lift (Raise FileNotFoundError)
  end.

(** [open(path, 'w')] and the writing of [content]: the file is created or
    emptied, then written. *)
Definition write_file (sys : System) (path content : string)
  : eff (gmap string string) unit :=
  match sys_open_error sys path with
  | Some e => lift (Raise e)
  | None => modify <[sys_file sys path := content]>
  end.

(** The files after the file handler has appended the line of [record] to
    the log file. *)
Definition log_append (sys : System) (record : LogRecord)
    (fs : gmap string string) : gmap string string :=
  let text := default "" (fs !! sys_file sys LOG_FILE) in
  <[sys_file sys LOG_FILE := text +:+ sys_log_line sys text record]> fs.

(** [logger.info(...)] and [logger.error(...)] *)
Definition logger (sys : System) (record : LogRecord)
  : eff (gmap string string) unit :=
  modify (log_append sys record).

(** The files after [records] have been logged, in this order. *)
Definition logged (sys : System) (records : list LogRecord)
    (fs : gmap string string) : gmap string string :=
  foldl (fun fs record => log_append sys record fs) fs records.

Section Auth.
Context {Service : Type} (sys : System) (lib : AuthLibrary Service).

Definition get_authenticated_services (config : Config)
  : eff (gmap string string) (Service * Service) :=
  let token_file := cfg_token_file config in
  fs ← get_state;
  creds ←
    match fs !! sys_file sys token_file with
    | Some text =>
        try_eff_all
          (c ← lift (from_authorized_user_info lib text (cfg_scopes config));
           mret (Some c))
          (fun e => _ ← logger sys (CredentialsNotLoaded e); mret None)
    | None => mret None
    end;
  creds ←
    (if match creds with Some c => negb (cr_valid c) | None => true end
     then
       creds ←
         match creds with
         | Some c =>
             if cr_expired c && truthy (cr_refresh_token c)
             then try_eff_all
                    (c' ← lift (refresh lib c); mret (Some c'))
                    (fun e => _ ← logger sys (TokenNotRefreshed e); mret None)
             else mret (Some c)
         | None => mret None
         end;
       match creds with
       | Some c => mret (Some c)
       | None =>
           try_eff_all
             (let client_secrets_path := cfg_client_secrets_file config in
              fs ← get_state;
              secrets ←
                match fs !! sys_file sys client_secrets_path with
                | Some secrets => mret secrets
                | None =>
                    _ ← logger sys (SecretsNotFound client_secrets_path);
                    lift (Raise FileNotFoundError)
                end;
              c ← lift (run_local_server lib secrets (cfg_scopes config));
              _ ← write_file sys token_file (to_json lib c);
              _ ← logger sys CredentialsSaved;
              mret (Some c))
             (fun e => _ ← logger sys (AuthenticationFailed e); lift (Raise e))
       end
     else mret creds);
  try_eff_all
    (youtube ← lift (build lib (cfg_api_service_name config).1
                           (cfg_api_version config).1 creds);
     youtube_analytics ← lift (build lib (cfg_api_service_name config).2
                                     (cfg_api_version config).2 creds);
     mret (youtube, youtube_analytics))
    (fun e => _ ← logger sys (ServicesNotBuilt e); lift (Raise e)).
End Auth.


(** * Vocabulary of the statements *)

(** ** Encoded durations *)

(** [c] occurs in [s]. *)
Fixpoint contains (c : ascii) (s : string) : bool :=
  match s with
  | EmptyString => false
  | String a s' => Ascii.eqb a c || contains c s'
  end.

Definition all_digits (s : string) : bool :=
  forallb PyStr.is_digit (String.list_ascii_of_string s).

(** A numeral: one digit or more, and no more than [int] converts. *)
Definition numeral (s : string) : Prop :=
  s <> EmptyString /\ all_digits s = true
  /\ PyStr.len s <= PyStr.max_str_digits.

(** The number a list of digits denotes, by position. *)
Fixpoint positional (l : list ascii) : Z :=
  match l with
  | [] => 0
  | c :: l' => PyStr.digit_value c * 10 ^ Z.of_nat (length l') + positional l'
  end.

Definition numeral_value (s : string) : Z :=
  positional (String.list_ascii_of_string s).

(** A component of an encoded duration: the text of a number followed by
    its marker, or nothing. *)
Definition component (marker : ascii) (text : option string) : string :=
  match text with
  | Some a => a +:+ String marker EmptyString
  | None => EmptyString
  end.

(** What the scan for [marker] reads in [component marker text +:+ rest]:
    a present component must be accepted by [int] and have no earlier
    occurrence of the marker; an absent one requires that the marker does
    not occur further on, and counts as zero. *)
Definition field (marker : ascii) (text : option string) (rest : string)
    (v : Z) : Prop :=
  match text with
  | Some a => contains marker a = false /\ PyStr.int a = Return v
  | None => contains marker rest = false /\ v = 0
  end.

Definition field_value (text : option string) : Z :=
  match text with
  | Some a => numeral_value a
  | None => 0
  end.

Definition numeral_field (text : option string) : Prop :=
  match text with
  | Some a => numeral a
  | None => True
  end.

(** A text of 4301 digits, one more than [int] converts. *)
Definition long_numeral : string :=
  String.string_of_list_ascii (replicate 4301 "1"%char).

(** ** Yearly reports *)

(** The call for [year] fails: the client raises [HttpError]. *)
Definition year_fails (svc : analytics_service) (channel_id : string)
    (year : Z) : Prop :=
  svc (annual_query channel_id year) = Raise HttpError.

(** The call for [year] succeeds and [total] is read from it: the first
    column of the first row, or 0 when the report has no [rows] key. *)
Definition year_total (svc : analytics_service) (channel_id : string)
    (year total : Z) : Prop :=
  (exists row more,
      svc (annual_query channel_id year)
      = Return {| rows := Some ((total :: row) :: more) |})
  \/ (svc (annual_query channel_id year) = Return {| rows := None |}
      /\ total = 0).

(** A reporting surface for the examples: a total for 2020, a failure for
    2021, a report without [rows] for 2022, a report with no row for 2023. *)
Definition demo_analytics : analytics_service := fun q =>
  if String.eqb (rq_startDate q) "2020-01-01"
  then Return {| rows := Some [[7; 1]; [9]] |}
  else if String.eqb (rq_startDate q) "2021-01-01" then Raise HttpError
  else if String.eqb (rq_startDate q) "2022-01-01"
  then Return {| rows := None |}
  else if String.eqb (rq_startDate q) "2023-01-01"
  then Return {| rows := Some [] |}
  else Return {| rows := Some [[1]] |}.

(** ** Pages of a playlist *)

(** How a listing ends: the last page carries no continuation token, or a
    call fails (the client raises [HttpError]). *)
Inductive ending : Type :=
| Exhausted
| Failed.

(** [serves svc pl tok pages e]: asked for the playlist [pl] from the token
    [tok] on, the platform delivers the pages [pages], in this order, each
    but the last one naming the next, and the listing then ends as [e]. *)
Inductive serves (svc : playlist_service) (pl : string)
  : option string -> list (list PlaylistItem) -> ending -> Prop :=
| serves_failed tok :
    svc (playlist_request pl tok) = Raise HttpError ->
    serves svc pl tok [] Failed
| serves_last tok page :
    svc (playlist_request pl tok) = Return page ->
    truthy (pp_nextPageToken page) = false ->
    serves svc pl tok [default [] (pp_items page)] Exhausted
| serves_more tok page pages e :
    svc (playlist_request pl tok) = Return page ->
    truthy (pp_nextPageToken page) = true ->
    serves svc pl (pp_nextPageToken page) pages e ->
    serves svc pl tok (default [] (pp_items page) :: pages) e.

(** The requests of a listing: one per page, and the one that failed. *)
Definition listing_calls (pages : list (list PlaylistItem)) (e : ending) : nat :=
  match e with
  | Exhausted => length pages
  | Failed => S (length pages)
  end.

(** The mapping [d] after the items [items] have been placed, in order. *)
Definition place_all (items : list PlaylistItem)
    (d : gmap string (list string)) : gmap string (list string) :=
  foldl (fun d item => place_item item d) d items.

(** The first four characters of a publication timestamp. *)
Definition first_four (published_at : string) : string :=
  String.substring 0 4 published_at.

(** The videos of [items] published in [year], in the order of [items]. *)
Definition published_in (year : string) (items : list PlaylistItem)
  : list string :=
  pi_videoId <$> filter (fun item => first_four (pi_publishedAt item) = year) items.

(** A catalog surface for the examples: two pages, then a failure. *)
Definition demo_page1 : PlaylistPage :=
  {| pp_items :=
       Some [ {| pi_videoId := "v1";
                 pi_publishedAt := "2022-07-01T10:00:00Z" |};
              {| pi_videoId := "v2";
                 pi_publishedAt := "2021-03-05T08:30:00Z" |} ];
     pp_nextPageToken := Some "p2" |}.

Definition demo_page2 : PlaylistPage :=
  {| pp_items :=
       Some [ {| pi_videoId := "v3";
                 pi_publishedAt := "2022-01-09T12:00:00Z" |} ];
     pp_nextPageToken := Some "p3" |}.

Definition demo_playlist : playlist_service := fun q =>
  match pr_pageToken q with
  | None => Return demo_page1
  | Some tok =>
      if String.eqb tok "p2" then Return demo_page2 else Raise HttpError
  end.

(** ** Batches of identifiers *)

(** [chunks n l]: [l] cut from the left into pieces of [n] elements, the
    last one holding what remains. *)
Fixpoint chunks_fuel {A} (fuel n : nat) (l : list A) : list (list A) :=
  match fuel, l with
  | S fuel', _ :: _ => take n l :: chunks_fuel fuel' n (drop n l)
  | _, _ => []
  end.

Definition chunks {A} (n : nat) (l : list A) : list (list A) :=
  chunks_fuel (length l) n l.

(** The detail call for [batch] fails: the client raises [HttpError]. *)
Definition batch_fails (svc : videos_service) (batch : list string) : Prop :=
  svc (videos_request batch) = Raise HttpError.

(** The detail call for [batch] succeeds with the items [items]. *)
Definition batch_returns (svc : videos_service) (batch : list string)
    (items : list Video) : Prop :=
  exists response,
    svc (videos_request batch) = Return response
    /\ items = default [] (vl_items response).

(** An item the scraper can read: its duration and its counts convert. *)
Definition readable (item : Video) : Prop :=
  exists record, video_record item = Return record.

(** The platform answers the detail call for [batch]: the call fails, or it
    returns readable items, all of them among the videos asked for. *)
Definition answered (svc : videos_service) (batch : list string) : Prop :=
  batch_fails svc batch
  \/ exists items,
       batch_returns svc batch items
       /\ Forall (fun item => readable item /\ v_id item ∈ batch) items.

(** The identifier [k] comes back from a successful call for one of the
    batches [cs]. *)
Definition returned_by (svc : videos_service) (cs : list (list string))
    (k : string) : Prop :=
  exists c items item,
    c ∈ cs /\ batch_returns svc c items /\ item ∈ items /\ v_id item = k.

(** A catalog surface for the examples: sixty identifiers "0" to "59"; the
    call for the batch that starts with "0" fails, the other one returns
    the videos "50" and "51". *)
Definition demo_ids : list string := (fun n : nat => pretty n) <$> seq 0 60.

Definition demo_video (id : string) : Video :=
  {| v_id := id;
     v_title := "title";
     v_publishedAt := "2022-07-01T10:00:00Z";
     v_thumbnails_high := None;
     v_statistics :=
       Some {| viewCount := Some "10"; likeCount := None;
               commentCount := Some "3" |};
     v_contentDetails := Some {| cd_duration := Some "PT1M5S" |} |}.

Definition demo_videos : videos_service := fun q =>
  if String.prefix "0," (vr_id q) then Raise HttpError
  else Return {| vl_items := Some [demo_video "50"; demo_video "51"] |}.

(** ** Rankings *)

(** [a <= b] on values: [b < a] is false. *)
Definition val_le (a b : pyval) : Prop := py_lt b a = Return false.

(** Values of the same kind: all integers or all strings. *)
Definition uniform {A} (value : A -> pyval) : Prop :=
  (forall x, exists z, value x = VInt z)
  \/ (forall x, exists s, value x = VStr s).

(** What a record holds under each of its keys. *)
Definition record_entries (r : VideoRecord) : gmap string pyval :=
  {[ "title" := VStr (title r);
     "views" := VInt (views r);
     "likes" := VInt (likes r);
     "comments" := VInt (comments r);
     "duration" := VInt (duration r);
     "published_at" := VStr (published_at r);
     "thumbnail" := VStr (thumbnail r) ]}.

(** The value of an entry of the mapping for a ranking by [metric]: what
    its record holds under the key [metric], and 0 when the record has no
    such key. *)
Definition metric_value (metric : string) (x : string * VideoRecord) : pyval :=
  default (VInt 0) (record_entries x.2 !! metric).

(** [l] in non-decreasing order of [value]. *)
Definition non_decreasing {A} (value : A -> pyval) (l : list A) : Prop :=
  StronglySorted (fun x y => val_le (value x) (value y)) l.

(** [l] in non-increasing order of [value]. *)
Definition non_increasing {A} (value : A -> pyval) (l : list A) : Prop :=
  StronglySorted (fun x y => val_le (value y) (value x)) l.

(** The entries of [l] whose value is [v], in the order of [l]. *)
Definition with_value {A} (value : A -> pyval) (v : pyval) (l : list A)
  : list A :=
  filter (fun x => value x = v) l.

(** [s] is the stable descending sort of [l] by [value]: the same entries,
    in non-increasing order, entries of equal value in the order of [l]. *)
Definition stable_descending_sort {A} (value : A -> pyval) (l s : list A)
  : Prop :=
  Permutation s l
  /\ non_increasing value s
  /\ forall v, with_value value v s = with_value value v l.

Definition demo_record (views likes : Z) : VideoRecord :=
  {| title := "title"; views := views; likes := likes; comments := 0;
     duration := 0; published_at := "2022-07-01T10:00:00Z"; thumbnail := "" |}.

(** A mapping for the examples: six videos, with ties on [views]. *)
Definition demo_stats : PyDict.t VideoRecord :=
  [ ("a", demo_record 1 5); ("b", demo_record 2 5); ("c", demo_record 1 6);
    ("d", demo_record 2 0); ("e", demo_record 0 0); ("f", demo_record 9 0) ].

(** ** Files and the log *)

(** A system for the examples: a path names the file of the same name, a
    leading "./" left out; the empty path cannot be opened; every record is
    logged as the line "#". *)
Definition demo_sys : System :=
  {| sys_file := fun path =>
       if String.prefix "./" path then PyStr.drop 2 path else path;
     sys_open_error := fun path =>
       if String.eqb path "" then Some FileNotFoundError else None;
     sys_log_line := fun _ _ => "#" |}.

(** ** Credentials *)

(** The two services are built from the credential [c]. *)
Definition builds {Service} (lib : AuthLibrary Service) (config : Config)
    (c : Credentials) (youtube youtube_analytics : Service) : Prop :=
  build lib (cfg_api_service_name config).1 (cfg_api_version config).1 (Some c)
  = Return youtube
  /\ build lib (cfg_api_service_name config).2 (cfg_api_version config).2
       (Some c)
     = Return youtube_analytics.

(** An authorization library for the examples: the stored token is expired
    and carries a refresh token; refreshing yields the token "fresh". *)
Definition demo_auth : AuthLibrary string :=
  {| from_authorized_user_info := fun text _ =>
       Return {| cr_token := text; cr_refresh_token := Some "refresh";
                 cr_valid := false; cr_expired := true |};
     refresh := fun c =>
       Return {| cr_token := "fresh";
                 cr_refresh_token := cr_refresh_token c;
                 cr_valid := true; cr_expired := false |};
     run_local_server := fun _ _ =>
       Return {| cr_token := "granted"; cr_refresh_token := Some "refresh";
                 cr_valid := true; cr_expired := false |};
     to_json := cr_token;
     build := fun name _ _ => Return name |}.

Definition demo_config : Config :=
  {| cfg_client_secrets_file := "client_secrets.json";
     cfg_token_file := "token.json";
     cfg_scopes := ["https://www.googleapis.com/auth/youtube.readonly";
                    "https://www.googleapis.com/auth/yt-analytics.readonly"];
     cfg_api_service_name := ("youtube", "youtubeAnalytics");
     cfg_api_version := ("v3", "v2") |}.

(** * Further vocabulary *)

(** ** Text that [int] can read *)

(** The characters that may occur in text [int] accepts: digits, white
    space, a sign, an underscore. *)
Definition int_char (c : ascii) : bool :=
  PyStr.is_digit c || PyStr.is_space c
  || Ascii.eqb c "+" || Ascii.eqb c "-" || Ascii.eqb c "_".

(** Some character of [s] is foreign to [int]. *)
Definition has_foreign_char (s : string) : Prop :=
  exists c, In c (String.list_ascii_of_string s) /\ int_char c = false.

(** ** Listings, page by page *)

(** The items of a page. *)
Definition page_items (page : PlaylistPage) : list PlaylistItem :=
  default [] (pp_items page).

(** [delivers svc pl tok ps tok']: asked for the playlist [pl] from the token
    [tok] on, the platform answers with the pages [ps], each naming the
    next, and the last of them names [tok']. *)
Inductive delivers (svc : playlist_service) (pl : string)
  : option string -> list PlaylistPage -> option string -> Prop :=
| delivers_nil tok : delivers svc pl tok [] tok
| delivers_cons tok page ps tok' :
    svc (playlist_request pl tok) = Return page ->
    truthy (pp_nextPageToken page) = true ->
    delivers svc pl (pp_nextPageToken page) ps tok' ->
    delivers svc pl tok (page :: ps) tok'.

(** The tokens of the requests that fetch the pages [ps] and ask for one
    more: none at first, then the token each page names. *)
Definition request_tokens (ps : list PlaylistPage) : list (option string) :=
  None :: (pp_nextPageToken <$> ps).

(** A reporting surface for the examples: the call for 2021 is cut by a
    transport error. *)
Definition demo_analytics_outage : analytics_service := fun q =>
  if String.eqb (rq_startDate q) "2021-01-01" then Raise OtherError
  else Return {| rows := Some [[7]] |}.

(** A catalog surface for the examples: every page names a next page. *)
Definition demo_endless_playlist : playlist_service := fun q =>
  Return {| pp_items := Some [ {| pi_videoId := "v";
                                  pi_publishedAt := "2022-07-01T10:00:00Z" |} ];
            pp_nextPageToken := Some "next" |}.

(** A catalog surface for the examples: one page, then a transport error. *)
Definition demo_playlist_outage : playlist_service := fun q =>
  match pr_pageToken q with
  | None => Return demo_page1
  | Some _ => Raise OtherError
  end.

(** All the identifiers a mapping from years to videos holds. *)
Definition all_videos (videos_by_year : gmap string (list string))
  : list string :=
  concat (map_to_list videos_by_year).*2.

(** ** Statistics, entry by entry *)

(** [d.get(k)] on an ordered dictionary. *)
Fixpoint dict_get {V} (k : string) (d : PyDict.t V) : option V :=
  match d with
  | [] => None
  | (k', v) :: d' => if String.eqb k k' then Some v else dict_get k d'
  end.

(** The items that come back for the batches [cs], in the order of the
    calls; a failed call brings none. *)
Definition successful_items (svc : videos_service) (cs : list (list string))
  : list Video :=
  concat ((fun c => match svc (videos_request c) with
                    | Return response => default [] (vl_items response)
                    | Raise _ => []
                    end) <$> cs).

(** The record of an item, when it is readable. *)
Definition record_of (item : Video) : option VideoRecord :=
  match video_record item with
  | Return record => Some record
  | Raise _ => None
  end.

(** A catalog surface for the examples: the second batch holds a video
    whose duration has a day component. *)
Definition demo_long_video : Video :=
  {| v_id := "51";
     v_title := "marathon";
     v_publishedAt := "2022-07-01T10:00:00Z";
     v_thumbnails_high := None;
     v_statistics := None;
     v_contentDetails := Some {| cd_duration := Some "P1DT2H3M4S" |} |}.

Definition demo_videos_long : videos_service := fun q =>
  if String.prefix "0," (vr_id q) then Raise HttpError
  else Return {| vl_items := Some [demo_video "50"; demo_long_video;
                                   demo_video "52"] |}.

(** A catalog surface for the examples: the call for the batch that starts
    with "0" fails with an error that is not [HttpError]. *)
Definition demo_videos_outage : videos_service := fun q =>
  if String.prefix "0," (vr_id q) then Raise OtherError
  else Return {| vl_items := Some [demo_video "50"; demo_video "51"] |}.

(** A catalog surface for the examples: the video "50" comes back twice. *)
Definition demo_videos_twice : videos_service := fun q =>
  Return {| vl_items :=
              Some [demo_video "50";
                    {| v_id := "50";
                       v_title := "second";
                       v_publishedAt := "2022-07-01T10:00:00Z";
                       v_thumbnails_high := None;
                       v_statistics := None;
                       v_contentDetails := None |}] |}.

(** The last item of [items] that carries the identifier [k]. *)
Definition latest (k : string) (items : list Video) : option Video :=
  last (filter (fun item => v_id item = k) items).

(** ** Rankings by any metric *)

(** The keys of a record. *)
Definition record_fields : list string :=
  ["title"; "views"; "likes"; "comments"; "duration"; "published_at";
   "thumbnail"].

(** ** Credentials: when consent is asked *)

(** No credential is left after loading and refreshing, and [records] have
    been logged on the way: there is no token file; or its content does not
    load, which is logged; or the credential it holds is invalid and
    expired and its refresh fails, which is logged. *)
Definition no_credential {Service} (sys : System) (lib : AuthLibrary Service)
    (config : Config) (fs : gmap string string) (records : list LogRecord)
  : Prop :=
  (fs !! sys_file sys (cfg_token_file config) = None /\ records = [])
  \/ (exists text e,
        fs !! sys_file sys (cfg_token_file config) = Some text
        /\ from_authorized_user_info lib text (cfg_scopes config) = Raise e
        /\ records = [CredentialsNotLoaded e])
  \/ (exists text c e,
        fs !! sys_file sys (cfg_token_file config) = Some text
        /\ from_authorized_user_info lib text (cfg_scopes config) = Return c
        /\ cr_valid c = false /\ cr_expired c = true
        /\ truthy (cr_refresh_token c) = true
        /\ refresh lib c = Raise e
        /\ records = [TokenNotRefreshed e]).

(** An authorization library for the examples: the stored token does not
    load, consent is granted, and the services cannot be built. *)
Definition demo_auth_broken : AuthLibrary string :=
  {| from_authorized_user_info := fun _ _ => Raise ValueError;
     refresh := fun c => Return c;
     run_local_server := fun _ _ =>
       Return {| cr_token := "granted"; cr_refresh_token := None;
                 cr_valid := true; cr_expired := false |};
     to_json := cr_token;
     build := fun _ _ _ => Raise OtherError |}.

(** An authorization library for the examples: the stored token is expired
    and has no refresh token. *)
Definition demo_auth_expired : AuthLibrary string :=
  {| from_authorized_user_info := fun text _ =>
       Return {| cr_token := text; cr_refresh_token := None;
                 cr_valid := false; cr_expired := true |};
     refresh := fun _ => Raise OtherError;
     run_local_server := fun _ _ => Raise OtherError;
     to_json := cr_token;
     build := fun name _ creds =>
       Return (name +:+ ":" +:+ default "" (cr_token <$> creds)) |}.

(** An authorization library for the examples: the stored token is expired,
    its refresh fails, consent is granted. *)
Definition demo_auth_refresh_fails : AuthLibrary string :=
  {| from_authorized_user_info := from_authorized_user_info demo_auth;
     refresh := fun _ => Raise OtherError;
     run_local_server := run_local_server demo_auth;
     to_json := to_json demo_auth;
     build := build demo_auth |}.

(** * The rest of the scraper *)

(** ** [get_channel_uploads_playlist] *)

Record ChannelsRequest : Type := {
  chr_part : string;
  chr_id : string
}.

(** A channel resource:
    [item["contentDetails"]["relatedPlaylists"]["uploads"]]. *)
Record Channel : Type := { ch_uploads : string }.

Record ChannelList : Type := { cl_items : option (list Channel) }.

Definition channels_service : Type := ChannelsRequest -> result ChannelList.

Definition channels_request (channel_id : string) : ChannelsRequest :=
  {| chr_part := "contentDetails"; chr_id := channel_id |}.

(** The result, and the state the function leaves behind. *)
Definition get_channel_uploads_playlist (youtube : channels_service)
    (channel_id : string)
  : result (option string) * fetch unit ChannelsRequest :=
  try_eff
    (response ← execute youtube (channels_request channel_id);
     match cl_items response with
     | None | Some [] => mret None
     | Some items =>
         item ← lift (py_index items 0);
         let uploads_playlist_id := ch_uploads item in
         mret (Some uploads_playlist_id)
     end)
    HttpError
    (mret None)
    (Fetch tt []).

(** ** [load_config] and [save_data_to_json] *)

(** A configuration: the keys of the default configuration, with their
    types; the keys that [get_authenticated_services] reads are grouped in
    [st_auth]. *)
Record Settings : Type := {
  st_auth : Config;
  st_channel_id : string;
  st_years_to_analyze : Z;
  st_output_file : string;
  st_request_delay : QArith_base.Q
}.

Definition CONFIG_FILE : string := "config.json".

Definition default_config : Settings :=
  {| st_auth :=
       {| cfg_client_secrets_file :=
            "client_secret_844657651833-kuq37s029uuna9jhtnkji47dcpsb0rc2.apps.googleusercontent.com.json";
          cfg_token_file := "token.json";
          cfg_scopes :=
            ["https://www.googleapis.com/auth/youtube.readonly";
             "https://www.googleapis.com/auth/yt-analytics.readonly"];
          cfg_api_service_name := ("youtube", "youtubeAnalytics");
          cfg_api_version := ("v3", "v2") |};
     st_channel_id := "";
     st_years_to_analyze := 5;
     st_output_file := "youtube_data.json";
     st_request_delay := QArith_base.Qmake 1 2 |}.

(** The [json] module on configurations: [json.load] of the text of a file,
    which raises when the text is not a configuration, and the text that
    [json.dump(config, f, indent=4)] writes. *)
Record ConfigCodec : Type := {
  json_load : string -> result Settings;
  json_dump : Settings -> string
}.

Definition load_config (sys : System) (codec : ConfigCodec)
  : eff (gmap string string) Settings :=
  try_eff
    (text ← read_file sys CONFIG_FILE;
     lift (json_load codec text))
    FileNotFoundError
    (_ ← write_file sys CONFIG_FILE (json_dump codec default_config);
     _ ← logger sys (ConfigCreated CONFIG_FILE);
     mret default_config).

(** [json.dump(data, f, indent=4, ensure_ascii=False)] writes the text piece
    by piece: [dump data] is the text written and, when the encoder stops
    on an exception, that exception. The file is opened for writing, hence
    emptied, before the first piece. *)
Definition save_data_to_json {Data} (sys : System)
    (dump : Data -> string * option exn)
    (data : Data) (filename : string) : eff (gmap string string) unit :=
  try_eff_all
    (let '(text, failure) := dump data in
     _ ← write_file sys filename text;
     _ ← match failure with
         | Some e => lift (Raise e)
         | None => mret tt
         end;
     logger sys (DataSaved filename))
    (fun e => logger sys (DataNotSaved filename e)).

(** ** The listing as the caller iterates it

    [main] iterates [videos_by_year.items()], in insertion order:
    [get_videos_by_year] again, its mapping kept as an ordered dictionary. *)

Definition place_item_ordered (item : PlaylistItem)
    (videos_by_year : PyDict.t (list string)) : PyDict.t (list string) :=
  let video_id := pi_videoId item in
  let published_at := pi_publishedAt item in
  let year := PyStr.slice_to published_at 4 in
  let videos_by_year :=
    match dict_get year videos_by_year with
    | Some _ => videos_by_year
    | None => PyDict.set year [] videos_by_year
    end in
  PyDict.set year (default [] (dict_get year videos_by_year) ++ [video_id])
             videos_by_year.

Fixpoint playlist_loop_ordered (fuel : nat) (youtube : playlist_service)
    (uploads_playlist_id : string) (nextPageToken : option string)
  : eff (fetch (PyDict.t (list string)) PlaylistRequest) (option unit) :=
  match fuel with
  | O => mret None
  | S fuel' =>
      playlist_response ←
        execute youtube (playlist_request uploads_playlist_id nextPageToken);
      _ ← for_each (default [] (pp_items playlist_response))
            (fun item => update_store (place_item_ordered item));
      let nextPageToken := pp_nextPageToken playlist_response in
      if negb (truthy nextPageToken) then mret (Some tt)
      else playlist_loop_ordered fuel' youtube uploads_playlist_id nextPageToken
  end.

Definition get_videos_by_year_ordered (fuel : nat) (youtube : playlist_service)
    (uploads_playlist_id : string)
  : result (option (PyDict.t (list string)))
    * fetch (PyDict.t (list string)) PlaylistRequest :=
  try_eff
    (r ← playlist_loop_ordered fuel youtube uploads_playlist_id None;
     videos_by_year ← read_store;
     mret (_ ← r; Some videos_by_year))
    HttpError
    (videos_by_year ← read_store; mret (Some videos_by_year))
    (Fetch [] []).

(** ** The fetches, with what they log

    [main] runs the fetches for their results, for the calls they issue and
    for the records they log: here they are again, each with its logger
    calls, on a state that holds, besides the mapping and the calls, the
    records logged and the counter [total_videos] of the listing. *)

Record Notes : Type := {
  records : list LogRecord;
  total_videos : nat
}.

Definition noted (D Req : Type) : Type := fetch D Req * Notes.

(** A statement on the mapping and the calls. *)
Definition on_fetch {D Req A} (m : eff (fetch D Req) A) : eff (noted D Req) A :=
  fun s => let '(r, f) := m s.1 in (r, (f, s.2)).

(** [logger.info(...)] and [logger.error(...)], the record kept for the
    file handler. *)
Definition log {D Req} (record : LogRecord) : eff (noted D Req) unit :=
  modify (fun s =>
    (s.1, {| records := records s.2 ++ [record];
             total_videos := total_videos s.2 |})).

(** [total_videos += 1] *)
Definition count_video {D Req} : eff (noted D Req) unit :=
  modify (fun s =>
    (s.1, {| records := records s.2;
             total_videos := S (total_videos s.2) |})).

Definition start {D Req} (d : D) : noted D Req :=
  (Fetch d [], {| records := []; total_videos := 0 |}).

Definition annual_step_logged (youtube_analytics : analytics_service)
    (channel_id : string) (year : Z)
  : eff (noted (gmap Z Z) ReportQuery) unit :=
  try_eff
    (response ←
       on_fetch (execute youtube_analytics (annual_query channel_id year));
     row ← lift (py_index (default [[0]] (rows response)) 0);
     views ← lift (py_index row 0);
     _ ← on_fetch (update_store <[year := views]>);
     log (ViewsFetched views year))
    HttpError
    (_ ← log (ViewsNotFetched year HttpError);
     on_fetch (update_store <[year := 0]>)).

Definition get_annual_views_logged (youtube_analytics : analytics_service)
    (channel_id : string) (start_year end_year : Z)
  : result (gmap Z Z) * noted (gmap Z Z) ReportQuery :=
  (_ ← for_each (py_range start_year (end_year + 1))
         (annual_step_logged youtube_analytics channel_id);
   on_fetch read_store) (start ∅).

Definition get_channel_uploads_playlist_logged (youtube : channels_service)
    (channel_id : string)
  : result (option string) * noted unit ChannelsRequest :=
  try_eff
    (response ← on_fetch (execute youtube (channels_request channel_id));
     match cl_items response with
     | None | Some [] =>
         _ ← log (ChannelNotFound channel_id);
         mret None
     | Some items =>
         item ← lift (py_index items 0);
         let uploads_playlist_id := ch_uploads item in
         _ ← log (UploadsPlaylistFound uploads_playlist_id);
         mret (Some uploads_playlist_id)
     end)
    HttpError
    (_ ← log (UploadsPlaylistNotFetched HttpError);
     mret None)
    (start tt).

Fixpoint playlist_loop_logged (fuel : nat) (youtube : playlist_service)
    (uploads_playlist_id : string) (nextPageToken : option string)
  : eff (noted (PyDict.t (list string)) PlaylistRequest) (option unit) :=
  match fuel with
  | O => mret None
  | S fuel' =>
      playlist_response ←
        on_fetch
          (execute youtube (playlist_request uploads_playlist_id nextPageToken));
      _ ← for_each (default [] (pp_items playlist_response))
            (fun item =>
               _ ← on_fetch (update_store (place_item_ordered item));
               count_video);
      let nextPageToken := pp_nextPageToken playlist_response in
      if negb (truthy nextPageToken) then mret (Some tt)
      else playlist_loop_logged fuel' youtube uploads_playlist_id nextPageToken
  end.

Definition get_videos_by_year_logged (fuel : nat) (youtube : playlist_service)
    (uploads_playlist_id : string)
  : result (option (PyDict.t (list string)))
    * noted (PyDict.t (list string)) PlaylistRequest :=
  try_eff
    (r ← playlist_loop_logged fuel youtube uploads_playlist_id None;
     match r with
     | None => mret None
     | Some _ =>
         s ← get_state;
         let videos_by_year := store s.1 in
         _ ← log (VideosListed (total_videos s.2) (length videos_by_year));
         mret (Some videos_by_year)
     end)
    HttpError
    (_ ← log (VideosNotListed HttpError);
     videos_by_year ← on_fetch read_store;
     mret (Some videos_by_year))
    (start []).

Definition stats_batch_logged (youtube : videos_service) (i : nat)
    (batch : list string)
  : eff (noted (PyDict.t VideoRecord) VideosRequest) unit :=
  let first := Z.of_nat i in
  let last := Z.of_nat i + Z.of_nat (length batch) - 1 in
  try_eff
    (response ← on_fetch (execute youtube (videos_request batch));
     _ ← on_fetch (for_each (default [] (vl_items response)) stats_item);
     log (StatsProcessed (length batch) first last))
    HttpError
    (log (StatsNotFetched first last HttpError)).

Definition get_video_stats_logged (youtube : videos_service)
    (video_ids : list string)
  : result (PyDict.t VideoRecord)
    * noted (PyDict.t VideoRecord) VideosRequest :=
  (_ ← for_each (py_range_step 0 (length video_ids) 50) (fun i =>
         let batch := list_slice video_ids i (i + 50) in
         stats_batch_logged youtube i batch);
   on_fetch read_store) (start []).

(** ** [main] *)

(** The two clients that [build] returns, with the resources the scraper
    uses of them. *)
Record Client : Type := {
  api_reports : analytics_service;
  api_channels : channels_service;
  api_playlistItems : playlist_service;
  api_videos : videos_service
}.

(** A request to the platform, whatever the resource. *)
Inductive Request : Type :=
| ReportCall (q : ReportQuery)
| ChannelsCall (q : ChannelsRequest)
| PlaylistCall (q : PlaylistRequest)
| VideosCall (q : VideosRequest).

(** What a run can change: the files, and the requests sent so far. *)
Record World : Type := {
  w_files : gmap string string;
  w_requests : list Request
}.

(** An entry of a ranking, as it is serialized. *)
Record TopEntry : Type := {
  te_video_id : string;
  te_data : VideoRecord
}.

(** [channel_data] *)
Record ChannelData : Type := {
  snap_channel_id : string;
  snap_extraction_date : string;
  snap_annual_views : gmap Z Z;
  snap_videos_by_year : PyDict.t (list string);
  snap_video_stats : PyDict.t VideoRecord;
  snap_top_videos : PyDict.t (list TopEntry)
}.

(** What [main] takes from its surroundings: the operating system and the
    logging module, the line typed at the prompt or the exception of
    [input], the clock, the authorization library and the [json] module. *)
Record Host : Type := {
  host_sys : System;
  host_input : result string;
  host_year : Z;
  host_now : string;
  host_auth : AuthLibrary Client;
  host_codec : ConfigCodec;
  host_dump : ChannelData -> string * option exn
}.

(** A statement on the files, within a run. *)
Definition in_files {A} (m : eff (gmap string string) A) : eff World A :=
  fun w =>
    let '(r, fs) := m (w_files w) in
    (r, {| w_files := fs; w_requests := w_requests w |}).

(** A fetch, within a run: its requests are sent, its records go to the
    log file, its result is returned or its exception raised. *)
Definition remote {A D Req} (sys : System) (tag : Req -> Request)
    (run : result A * noted D Req) : eff World A :=
  fun w =>
    (run.1, {| w_files := logged sys (records run.2.2) (w_files w);
               w_requests := w_requests w ++ (tag <$> calls run.2.1) |}).

(** [all_video_stats.update(year_stats)] *)
Definition dict_update {V} (d other : PyDict.t V) : PyDict.t V :=
  foldl (fun d kv => PyDict.set kv.1 kv.2 d) d (PyDict.items other).

(** The loop over [videos_by_year.items()]. *)
Fixpoint collect_stats (sys : System) (youtube : Client)
    (items : list (string * list string))
    (all_video_stats : PyDict.t VideoRecord)
  : eff World (PyDict.t VideoRecord) :=
  match items with
  | [] => mret all_video_stats
  | (year, video_ids) :: items' =>
      match video_ids with
      | [] => collect_stats sys youtube items' all_video_stats
      | _ :: _ =>
          _ ← in_files (logger sys (YearStatsRequested (length video_ids) year));
          year_stats ←
            remote sys VideosCall
              (get_video_stats_logged (api_videos youtube) video_ids);
          collect_stats sys youtube items'
            (dict_update all_video_stats year_stats)
      end
  end.

(** The rankings, with their tuples turned into entries. *)
Definition rank (all_video_stats : PyDict.t VideoRecord)
  : result (PyDict.t (list TopEntry)) :=
  by_views ← get_top_videos all_video_stats "views" default_limit;
  by_likes ← get_top_videos all_video_stats "likes" default_limit;
  by_comments ← get_top_videos all_video_stats "comments" default_limit;
  let entries := fmap (M := list)
                   (fun x : string * VideoRecord =>
                      {| te_video_id := x.1; te_data := x.2 |}) in
  Return [("views", entries by_views); ("likes", entries by_likes);
          ("comments", entries by_comments)].

(** The configuration [config] with another channel identifier. *)
Definition with_channel_id (config : Settings) (channel_id : string)
  : Settings :=
  {| st_auth := st_auth config;
     st_channel_id := channel_id;
     st_years_to_analyze := st_years_to_analyze config;
     st_output_file := st_output_file config;
     st_request_delay := st_request_delay config |}.

(** Lines 423 to 437: the configuration, the channel identifier, the two
    clients. *)
Definition main_setup (host : Host)
  : eff World (Settings * string * Client * Client) :=
  let sys := host_sys host in
  config ← in_files (load_config sys (host_codec host));
  '(config, channel_id) ←
    (if String.eqb (st_channel_id config) ""
     then
       channel_id ← lift (host_input host);
       let config := with_channel_id config channel_id in
       _ ← in_files (write_file sys CONFIG_FILE
                       (json_dump (host_codec host) config));
       mret (config, channel_id)
     else mret (config, st_channel_id config));
  '(youtube, youtube_analytics) ←
    in_files (get_authenticated_services sys (host_auth host) (st_auth config));
  mret (config, channel_id, youtube, youtube_analytics).

(** Lines 439 to 514: the fetches, the rankings, the snapshot. The result
    [None] stands for a listing that is still asking for pages after [fuel]
    of them: the run has not come to an end. *)
Definition main_fetch (fuel : nat) (host : Host) (config : Settings)
    (channel_id : string) (youtube youtube_analytics : Client)
  : eff World (option unit) :=
  let sys := host_sys host in
  let current_year := host_year host in
  let start_year := current_year - st_years_to_analyze config in
  let end_year := current_year in
  let extraction_date := host_now host in
  annual_views ←
    remote sys ReportCall
      (get_annual_views_logged (api_reports youtube_analytics) channel_id
         start_year end_year);
  uploads_playlist_id ←
    remote sys ChannelsCall
      (get_channel_uploads_playlist_logged (api_channels youtube) channel_id);
  if negb (truthy uploads_playlist_id)
  then _ ← in_files (logger sys UploadsPlaylistMissing); mret (Some tt)
  else
    listing ←
      remote sys PlaylistCall
        (get_videos_by_year_logged fuel (api_playlistItems youtube)
           (default "" uploads_playlist_id));
    match listing with
    | None => mret None
    | Some videos_by_year =>
        all_video_stats ←
          collect_stats sys youtube (PyDict.items videos_by_year) [];
        top_videos ← lift (rank all_video_stats);
        let channel_data :=
          {| snap_channel_id := channel_id;
             snap_extraction_date := extraction_date;
             snap_annual_views := annual_views;
             snap_videos_by_year := videos_by_year;
             snap_video_stats := all_video_stats;
             snap_top_videos := top_videos |} in
        _ ← in_files (save_data_to_json sys (host_dump host) channel_data
                        (st_output_file config));
        mret (Some tt)
    end.

(** [main]: every exception is logged and ends the run. The result [None]
    is that of [main_fetch]: the run has not come to an end. *)
Definition main (fuel : nat) (host : Host) : eff World (option unit) :=
  try_eff_all
    ('(config, channel_id, youtube, youtube_analytics) ← main_setup host;
     main_fetch fuel host config channel_id youtube youtube_analytics)
    (fun e => _ ← in_files (logger (host_sys host) (RunFailed e));
              mret (Some tt)).

(** Between [fs] and [fs'] nothing has happened to the files but the
    logging of some records. *)
Definition only_logged (sys : System) (fs fs' : gmap string string) : Prop :=
  exists records, fs' = logged sys records fs.

(** A fetch that logs, its records and its counter forgotten. *)
Definition forget_notes {A D Req} (run : result A * noted D Req)
  : result A * fetch D Req :=
  (run.1, run.2.1).

(** [logging] does what [m] does to the mapping and the calls, with the
    same result. *)
Definition erases {D Req A} (logging : eff (noted D Req) A)
    (m : eff (fetch D Req) A) : Prop :=
  forall s, forget_notes (logging s) = m s.1.

(** The state of an ordered listing, its order forgotten. *)
Definition forget_order
    (s : fetch (PyDict.t (list string)) PlaylistRequest)
  : fetch (gmap string (list string)) PlaylistRequest :=
  Fetch (list_to_map (store s)) (calls s).

(** A [json] module for the examples: a configuration is written as its
    channel identifier, and read back into the default configuration with
    that identifier; the text "{" is no configuration. *)
Definition demo_codec : ConfigCodec :=
  {| json_load := fun text =>
       if String.eqb text "{" then Raise ValueError
       else Return (with_channel_id default_config text);
     json_dump := st_channel_id |}.

(** A catalog surface for the examples: the channel "UC" has the uploads
    playlist "UU"; no other channel is found. *)
Definition demo_channels : channels_service := fun q =>
  if String.eqb (chr_id q) "UC"
  then Return {| cl_items := Some [ {| ch_uploads := "UU" |} ] |}
  else Return {| cl_items := Some [] |}.


(** A platform for the examples: the surfaces above, behind one client. *)
Definition demo_client : Client :=
  {| api_reports := demo_analytics;
     api_channels := demo_channels;
     api_playlistItems := demo_playlist;
     api_videos := demo_videos |}.

(** An authorization library for the examples: a stored token is valid as
    it is, and both clients are [demo_client]. *)
Definition demo_host_auth : AuthLibrary Client :=
  {| from_authorized_user_info := fun text _ =>
       Return {| cr_token := text; cr_refresh_token := None;
                 cr_valid := true; cr_expired := false |};
     refresh := fun c => Return c;
     run_local_server := fun _ _ =>
       Return {| cr_token := "granted"; cr_refresh_token := None;
                 cr_valid := true; cr_expired := false |};
     to_json := cr_token;
     build := fun _ _ _ => Return demo_client |}.

(** Surroundings for the examples: [channel] is typed at the prompt, the
    year is 2022, and a snapshot is written as its channel identifier. *)
Definition demo_host (channel : string) : Host :=
  {| host_sys := demo_sys;
     host_input := Return channel;
     host_year := 2022;
     host_now := "2022-12-31T00:00:00";
     host_auth := demo_host_auth;
     host_codec := demo_codec;
     host_dump := fun data => (snap_channel_id data, None) |}.

(** A start for the examples: one file that is none of the scraper's, and
    no request sent. *)
Definition demo_world : World :=
  {| w_files := {[ "notes.txt" := "kept" ]}; w_requests := [] |}.
(** * Properties *)

(** ** Strings *)

Section StringFacts.
Import PyStr.

Lemma contains_app c s t :
  contains c (s +:+ t) = contains c s || contains c t.
Proof.
  induction s as [|a s IH]; simpl; [done|].
  by rewrite IH, orb_assoc.
Qed.

Lemma find_ge s c : -1 <= find s c.
Proof.
  induction s as [|a s IH]; simpl; [lia|].
  destruct (Ascii.eqb a c); [lia|].
  destruct (Z.eqb_spec (find s c) (-1)); lia.
Qed.

Lemma find_absent s c : contains c s = false -> find s c = -1.
Proof.
  induction s as [|a s IH]; simpl; [done|].
  intros [Ha Hs]%orb_false_iff. rewrite Ha, (IH Hs). done.
Qed.

Lemma find_marker a c r :
  contains c a = false -> find (a +:+ String c r) c = len a.
Proof.
  unfold len. induction a as [|x a IH]; simpl.
  - intros _. by rewrite Ascii.eqb_refl.
  - intros [Hx Ha]%orb_false_iff. rewrite Hx, (IH Ha).
    destruct (Z.eqb_spec (Z.of_nat (String.length a)) (-1)); lia.
Qed.

Lemma str_take_app a r : take (String.length a) (a +:+ r) = a.
Proof. induction a as [|x a IH]; simpl; [by destruct r|by rewrite IH]. Qed.

Lemma str_drop_app a r : drop (String.length a) (a +:+ r) = r.
Proof. induction a as [|x a IH]; simpl; [by destruct r|done]. Qed.

Lemma str_length_app a r :
  String.length (a +:+ r) = (String.length a + String.length r)%nat.
Proof. induction a as [|x a IH]; simpl; [done|by rewrite IH]. Qed.

Lemma app_marker a c r :
  (a +:+ String c EmptyString) +:+ r = a +:+ String c r.
Proof.
  induction a as [|x a IH]; [done|].
  change (String x ((a +:+ String c EmptyString) +:+ r)
          = String x (a +:+ String c r)).
  by f_equal.
Qed.

Lemma bound_inside s i :
  0 <= i <= len s -> bound s i = Z.to_nat i.
Proof.
  intros H. unfold bound. destruct (Z.ltb_spec i 0); [lia|].
  f_equal. lia.
Qed.

Lemma slice_to_marker a c r : slice_to (a +:+ String c r) (len a) = a.
Proof.
  unfold slice_to. rewrite bound_inside.
  - unfold len. rewrite Nat2Z.id. apply str_take_app.
  - unfold len. rewrite str_length_app. lia.
Qed.

Lemma slice_from_marker a c r :
  slice_from (a +:+ String c r) (len a + 1) = r.
Proof.
  unfold slice_from. rewrite bound_inside.
  - unfold len. replace (Z.to_nat (Z.of_nat (String.length a) + 1))
      with (String.length (a +:+ String c EmptyString)).
    + rewrite <- (app_marker a c r). apply str_drop_app.
    + rewrite str_length_app. simpl. lia.
  - unfold len. rewrite str_length_app. simpl. lia.
Qed.

Lemma slice_from_prefix p s (n : nat) :
  String.length p = n -> slice_from (p +:+ s) (Z.of_nat n) = s.
Proof.
  intros <-. unfold slice_from. rewrite bound_inside.
  - rewrite Nat2Z.id. apply str_drop_app.
  - unfold len. rewrite str_length_app. lia.
Qed.

  (** *** Decimal numerals *)

Lemma int_digits_positional l acc b :
  forallb is_digit l = true -> (l <> [] \/ b = true) ->
  int_digits acc b l = Some (acc * 10 ^ Z.of_nat (length l) + positional l).
Proof.
  revert acc b. induction l as [|c l IH]; intros acc b Hd Hne; simpl.
  - destruct Hne as [Hne | ->]; [done|]. f_equal. lia.
  - apply andb_true_iff in Hd as [Hc Hl]. rewrite Hc.
    rewrite (IH _ true Hl) by (by right). f_equal.
    rewrite Nat2Z.inj_succ, Z.pow_succ_r by lia. lia.
Qed.

Lemma digit_not_space c : is_digit c = true -> is_space c = false.
Proof.
  unfold is_digit, is_space. cbv zeta. generalize (nat_of_ascii c). intros n.
  rewrite andb_true_iff, !Nat.leb_le. intros [? ?].
  repeat (apply orb_false_iff; split);
    rewrite ?andb_false_iff, ?Nat.leb_gt, ?Nat.eqb_neq; lia.
Qed.

Lemma lstrip_head c l : is_space c = false -> lstrip (c :: l) = c :: l.
Proof. intros H. simpl. by rewrite H. Qed.

Lemma strip_digits l : forallb is_digit l = true -> strip l = l.
Proof.
  intros Hd. unfold strip.
  assert (Hl : forall k, forallb is_digit k = true -> lstrip k = k).
  { intros [|c k]; [done|]. simpl. intros [Hc _]%andb_true_iff.
    by rewrite (digit_not_space _ Hc). }
  rewrite (Hl _ Hd), Hl, rev_involutive; [done|].
  rewrite forallb_forall in *. intros x Hx. apply Hd. by apply in_rev.
Qed.

Lemma count_digits_all l :
  forallb is_digit l = true -> count_digits l = Z.of_nat (length l).
Proof.
  intros Hd. unfold count_digits. f_equal. f_equal.
  induction l as [|c l IH]; [done|]. simpl in *.
  apply andb_true_iff in Hd as [-> Hl]. simpl. f_equal. by apply IH.
Qed.

Lemma int_numeral s : numeral s -> int s = Return (numeral_value s).
Proof.
  intros (Hne & Hd & Hlen). unfold int, numeral_value, all_digits in *.
  rewrite (strip_digits _ Hd), (count_digits_all _ Hd).
  assert (Hshort : (Z.of_nat (length (String.list_ascii_of_string s))
                    <=? max_str_digits) = true).
  { apply Z.leb_le. unfold len in Hlen.
    assert (E : length (String.list_ascii_of_string s) = String.length s).
    { clear. induction s as [|a s IH]; simpl; congruence. }
    by rewrite E. }
  destruct (String.list_ascii_of_string s) as [|c l] eqn:Hs.
  - destruct s; [done|discriminate].
  - assert (Hc : is_digit c = true) by (simpl in Hd; by destruct (is_digit c)).
    assert (Ascii.eqb c "+" = false /\ Ascii.eqb c "-" = false) as [-> ->].
    { split; apply Ascii.eqb_neq; intros ->; discriminate. }
    rewrite (int_digits_positional _ 0 false Hd) by (by left).
    by rewrite Hshort.
Qed.

Lemma numeral_no_marker c s :
  is_digit c = false -> all_digits s = true -> contains c s = false.
Proof.
  intros Hc. unfold all_digits. induction s as [|a s IH]; simpl; [done|].
  intros [Ha Hs]%andb_true_iff. rewrite (IH Hs), orb_false_r.
  apply Ascii.eqb_neq. intros ->. congruence.
Qed.
End StringFacts.

(** ** [parse_duration] *)

Example parse_duration_docstring : parse_duration "PT1H30M15S" = Return 5415.
Proof. reflexivity. Qed.
Example parse_duration_day_component : parse_duration "P1DT2H3M4S" = Raise ValueError.
Proof. reflexivity. Qed.
Example parse_duration_no_marker : parse_duration "P0D" = Return 0.
Proof. reflexivity. Qed.
Example parse_duration_spaces_and_sign : parse_duration "PT 1_0 H-5S" = Return 35995.
Proof. reflexivity. Qed.

Section ParseDuration.
Import PyStr.

Lemma scan_pair marker text rest v :
    field marker text rest v ->
    let time_str := component marker text +:+ rest in
    let pos := find time_str marker in
    (if negb (pos =? -1)
     then x ← int (slice_to time_str pos);
          Return (x, slice_from time_str (pos + 1))
     else Return (0, time_str)) = Return (v, rest).
Proof.
    destruct text as [a|]; simpl; intros [Hc Hv].
    - rewrite app_marker, (find_marker _ _ _ Hc).
      destruct (Z.eqb_spec (len a) (-1)) as [E|_]; [unfold len in E; lia|].
      simpl. by rewrite slice_to_marker, Hv, slice_from_marker.
    - change (EmptyString +:+ rest) with rest.
      rewrite (find_absent _ _ Hc). simpl. by subst.
Qed.

Lemma scan_last marker text rest v :
    field marker text rest v ->
    let time_str := component marker text +:+ rest in
    let pos := find time_str marker in
    (if negb (pos =? -1) then int (slice_to time_str pos) else Return 0)
    = Return v.
Proof.
    destruct text as [a|]; simpl; intros [Hc Hv].
    - rewrite app_marker, (find_marker _ _ _ Hc).
      destruct (Z.eqb_spec (len a) (-1)) as [E|_]; [unfold len in E; lia|].
      simpl. by rewrite slice_to_marker.
    - change (EmptyString +:+ rest) with rest.
      rewrite (find_absent _ _ Hc). simpl. by subst.
Qed.

Lemma parse_duration_fields iso h m s rest vh vm vs :
    slice_from iso 2
      = component "H" h +:+ component "M" m +:+ component "S" s +:+ rest ->
    field "H" h (component "M" m +:+ component "S" s +:+ rest) vh ->
    field "M" m (component "S" s +:+ rest) vm ->
    field "S" s rest vs ->
    parse_duration iso = Return (vh * 3600 + vm * 60 + vs).
Proof.
    intros Hiso Hh Hm Hs. unfold parse_duration. rewrite Hiso.
    rewrite (scan_pair _ _ _ _ Hh). simpl.
    rewrite (scan_pair _ _ _ _ Hm). simpl.
    rewrite (scan_last _ _ _ _ Hs). done.
Qed.

Lemma numeral_field_scan marker text rest :
    is_digit marker = false -> numeral_field text ->
    (text = None -> contains marker rest = false) ->
    field marker text rest (field_value text).
Proof.
    intros Hmk Hn Hrest. destruct text as [a|]; simpl in *.
    - split; [|by apply int_numeral].
      apply numeral_no_marker; [done|apply Hn].
    - split; [by apply Hrest|done].
Qed.

Lemma component_no_marker marker other text :
    is_digit marker = false -> marker <> other -> numeral_field text ->
    contains marker (component other text) = false.
Proof.
    intros Hmk Hne Hn. destruct text as [a|]; simpl; [|done].
    rewrite contains_app. simpl. destruct Hn as (_ & Hd & _).
    rewrite (numeral_no_marker _ _ Hmk Hd). simpl.
    rewrite orb_false_r. apply Ascii.eqb_neq. congruence.
Qed.
End ParseDuration.

Lemma str_app_nil_r s : s +:+ EmptyString = s.
Proof.
  induction s as [|a s IH]; [done|].
  change (String a (s +:+ EmptyString) = String a s). by f_equal.
Qed.

Lemma parse_duration_numerals prefix h m s :
  String.length prefix = 2%nat ->
  numeral_field h -> numeral_field m -> numeral_field s ->
  parse_duration
    (prefix +:+ component "H" h +:+ component "M" m +:+ component "S" s)
  = Return (field_value h * 3600 + field_value m * 60 + field_value s).
Proof.
  intros Hp Hh Hm Hs.
  apply (parse_duration_fields _ h m s EmptyString).
  - change 2 with (Z.of_nat 2). rewrite (slice_from_prefix _ _ _ Hp).
    by rewrite str_app_nil_r.
  - apply numeral_field_scan; [done|done|]. intros _.
    rewrite !contains_app.
    rewrite (component_no_marker "H" "M"), (component_no_marker "H" "S"); done.
  - apply numeral_field_scan; [done|done|]. intros _.
    rewrite !contains_app.
    rewrite (component_no_marker "M" "S"); done.
  - apply numeral_field_scan; done.
Qed.

Lemma int_raises_only_ValueError s :
  (exists z, PyStr.int s = Return z) \/ PyStr.int s = Raise ValueError.
Proof.
  unfold PyStr.int. cbv zeta.
  match goal with
  | |- context [match ?parsed with Some z => _ | None => _ end] =>
      destruct parsed
  end; [|by right].
  destruct (_ <=? _); eauto.
Qed.

(** The only exception that leaves [parse_duration] is the [ValueError] of
    [int]. *)
Lemma parse_duration_raises_only_ValueError duration_iso :
  (exists seconds, parse_duration duration_iso = Return seconds)
  \/ parse_duration duration_iso = Raise ValueError.
Proof.
  unfold parse_duration, mbind, result_bind.
  repeat match goal with
         | |- context [if ?b then _ else _] => destruct b
         | |- context [PyStr.int ?s] =>
             destruct (int_raises_only_ValueError s) as [[? ->]| ->]
         end; eauto.
Qed.

Example numeral_value_leading_zero : numeral_value "0730" = 730.
Proof. reflexivity. Qed.

(** C1 (as amended). [parse_duration] is a function of its argument alone.
    After the two-character prefix it scans for the hour marker, then the
    minute marker, then the second marker. Whenever each of the three is
    either absent from the text still to be scanned, and then counts as
    zero, or preceded by text that [int] accepts, the call returns
    hours * 3600 + minutes * 60 + seconds and raises nothing; [rest] is
    whatever follows the last component, unrecognized markers included. *)
Theorem parse_duration_returns_on_accepted_fields :
  forall (duration_iso : string) (h m s : option string) (rest : string)
         (hours minutes seconds : Z),
    PyStr.slice_from duration_iso 2
      = component "H" h +:+ component "M" m +:+ component "S" s +:+ rest ->
    field "H" h (component "M" m +:+ component "S" s +:+ rest) hours ->
    field "M" m (component "S" s +:+ rest) minutes ->
    field "S" s rest seconds ->
    parse_duration duration_iso
    = Return (hours * 3600 + minutes * 60 + seconds).
Proof. intros. by eapply parse_duration_fields. Qed.

Lemma parse_duration_returns_on_accepted_fields_witness :
  parse_duration "PT 1 H-15SxD" = Return 3585.
Proof.
  apply (parse_duration_returns_on_accepted_fields
           "PT 1 H-15SxD" (Some " 1 ") None (Some "-15") "xD" 1 0 (-15)).
  - reflexivity.
  - split; reflexivity.
  - split; reflexivity.
  - split; reflexivity.
Defined.

(** C1, as first stated, fails: a marker with no number before it makes
    [int] raise, and the exception leaves [parse_duration]. *)
Lemma parse_duration_raises_on_bare_marker :
  parse_duration "PTH" = Raise ValueError.
Proof. reflexivity. Qed.

(** C9 (as amended). A duration made of any two-character prefix followed
    by an optional hour numeral and [H], an optional minute numeral and
    [M], an optional second numeral and [S], in that order, each numeral of
    no more than 4300 digits, parses to
    hours * 3600 + minutes * 60 + seconds, a missing component counting as
    zero; so "PT1H30M15S" gives 5415, "PT45S" gives 45 and "PT0S" gives 0. *)
Theorem parse_duration_hours_minutes_seconds :
  (forall (prefix : string) (h m s : option string),
      String.length prefix = 2%nat ->
      numeral_field h -> numeral_field m -> numeral_field s ->
      parse_duration
        (prefix +:+ component "H" h +:+ component "M" m +:+ component "S" s)
      = Return (field_value h * 3600 + field_value m * 60 + field_value s))
  /\ parse_duration "PT1H30M15S" = Return 5415
  /\ parse_duration "PT45S" = Return 45
  /\ parse_duration "PT0S" = Return 0.
Proof.
  split; [|by repeat split].
  intros. by apply parse_duration_numerals.
Qed.

Lemma parse_duration_hours_minutes_seconds_witness :
  parse_duration "PT02H7S" = Return 7207.
Proof.
  apply (proj1 parse_duration_hours_minutes_seconds
               "PT" (Some "02") None (Some "7")).
  - reflexivity.
  - split; [discriminate|split; [reflexivity|by vm_compute]].
  - exact I.
  - split; [discriminate|split; [reflexivity|by vm_compute]].
Defined.

(** C9, as first stated, fails: a decimal number of 4301 digits before its
    marker is a text that [int] refuses, and [parse_duration] raises
    [ValueError] instead of returning the sum. *)
Lemma parse_duration_raises_on_long_numeral :
  all_digits long_numeral = true
  /\ parse_duration ("PT" +:+ long_numeral +:+ "H") = Raise ValueError.
Proof. split; vm_compute; reflexivity. Qed.

(** ** Effects *)

(** Expose the state transformer behind a block of statements. *)
Ltac run_eff :=
  unfold try_eff, try_eff_all, execute, update_store, read_store, logger,
    modify, lift, get_state, mbind, eff_bind, mret, eff_ret;
  simpl.

Lemma for_each_app {S A} (l1 l2 : list A) (body : A -> eff S unit) (s : S) :
  for_each (l1 ++ l2) body s
  = match for_each l1 body s with
    | (Return _, s') => for_each l2 body s'
    | (Raise e, s') => (Raise e, s')
    end.
Proof.
  revert s. induction l1 as [|x l1 IH]; intros s; simpl; [done|].
  unfold mbind, eff_bind. destruct (body x s) as [[[]|e] s']; [apply IH|done].
Qed.

Lemma for_each_cons {S A} (x : A) (l : list A) (body : A -> eff S unit) (s : S) :
  for_each (x :: l) body s
  = match body x s with
    | (Return _, s') => for_each l body s'
    | (Raise e, s') => (Raise e, s')
    end.
Proof. done. Qed.

(** ** [get_annual_views] *)

Section AnnualViews.
Context (svc : analytics_service) (channel_id : string).

Lemma annual_step_fails year d log :
  year_fails svc channel_id year ->
  annual_step svc channel_id year (Fetch d log)
  = (Return tt, Fetch (<[year := 0]> d) (log ++ [annual_query channel_id year])).
Proof.
  intros H. unfold annual_step. run_eff. by rewrite H.
Qed.

Lemma annual_step_total year total d log :
  year_total svc channel_id year total ->
  annual_step svc channel_id year (Fetch d log)
  = (Return tt,
     Fetch (<[year := total]> d) (log ++ [annual_query channel_id year])).
Proof.
  intros [(row & more & H)|[H ->]]; unfold annual_step; run_eff;
    by rewrite H.
Qed.

Lemma annual_step_empty_rows year d log :
  svc (annual_query channel_id year) = Return {| rows := Some [] |} ->
  annual_step svc channel_id year (Fetch d log)
  = (Raise IndexError, Fetch d (log ++ [annual_query channel_id year])).
Proof.
  intros H. unfold annual_step. run_eff. by rewrite H.
Qed.

(** The loop over a list of years whose calls all fail or carry a total. *)
Lemma annual_loop years d log :
  (forall y, y ∈ years ->
     year_fails svc channel_id y \/ exists v, year_total svc channel_id y v) ->
  exists d',
    for_each years (annual_step svc channel_id) (Fetch d log)
    = (Return tt, Fetch d' (log ++ (annual_query channel_id <$> years)))
    /\ (forall y, y ∉ years -> d' !! y = d !! y)
    /\ (forall y, y ∈ years -> year_fails svc channel_id y -> d' !! y = Some 0)
    /\ (forall y v, y ∈ years -> year_total svc channel_id y v ->
          d' !! y = Some v).
Proof.
  revert d log. induction years as [|x years IH]; intros d log Hall.
  - exists d. rewrite app_nil_r. repeat split; try done.
    all: intros; exfalso; eapply not_elem_of_nil; eauto.
  - assert (Hx : exists v,
      annual_step svc channel_id x (Fetch d log)
      = (Return tt, Fetch (<[x := v]> d) (log ++ [annual_query channel_id x]))
      /\ (year_fails svc channel_id x -> v = 0)
      /\ (forall w, year_total svc channel_id x w -> v = w)).
    { destruct (Hall x) as [Hf|[v Hv]]; [left|..].
      - exists 0. split; [by apply annual_step_fails|]. split; [done|].
        intros w [(? & ? & Hw)|[Hw _]]; unfold year_fails in Hf; congruence.
      - exists v. split; [by apply annual_step_total|]. split.
        + intros Hf. destruct Hv as [(? & ? & Hw)|[Hw _]];
            unfold year_fails in Hf; congruence.
        + intros w Hw. destruct Hv as [(? & ? & Hv)|[Hv ->]];
            destruct Hw as [(? & ? & Hw)|[Hw ->]]; congruence. }
    destruct Hx as (v & Hstep & Hvf & Hvt).
    destruct (IH (<[x := v]> d) (log ++ [annual_query channel_id x]))
      as (d' & Hrun & Hout & Hfail & Htot).
    { intros y Hy. apply Hall. by right. }
    exists d'. rewrite for_each_cons, Hstep, Hrun.
    rewrite fmap_cons, <- app_assoc. split; [done|].
    split; [|split].
    + intros y Hy. rewrite Hout by (intros ?; apply Hy; by right).
      apply lookup_insert_ne. intros ->. apply Hy. by left.
    + intros y Hy Hf. destruct (decide (y ∈ years)) as [Hin|Hnin]; [eauto|].
      rewrite (Hout _ Hnin).
      apply elem_of_cons in Hy as [->|Hy]; [|done].
      rewrite (Hvf Hf). apply lookup_insert_eq.
    + intros y w Hy Hw. destruct (decide (y ∈ years)) as [Hin|Hnin]; [eauto|].
      rewrite (Hout _ Hnin).
      apply elem_of_cons in Hy as [->|Hy]; [|done].
      rewrite (Hvt _ Hw). apply lookup_insert_eq.
Qed.

Lemma get_annual_views_unfold start_year end_year :
  get_annual_views svc channel_id start_year end_year
  = match for_each (py_range start_year (end_year + 1))
            (annual_step svc channel_id)
            (Fetch ∅ []) with
    | (Return _, s) => (Return (store s), s)
    | (Raise e, s) => (Raise e, s)
    end.
Proof.
  unfold get_annual_views, mbind, eff_bind.
  by destruct (for_each _ _ _) as [[[]|e] s].
Qed.

Lemma elem_of_py_range y a b : y ∈ py_range a b <-> a <= y < b.
Proof. unfold py_range. rewrite elem_of_seqZ. lia. Qed.
End AnnualViews.

Lemma get_annual_views_run svc channel_id start_year end_year :
  (forall y, start_year <= y <= end_year ->
     year_fails svc channel_id y \/ exists v, year_total svc channel_id y v) ->
  exists annual_views,
    get_annual_views svc channel_id start_year end_year
    = (Return annual_views,
       Fetch annual_views
         (annual_query channel_id <$> py_range start_year (end_year + 1)))
    /\ (forall y, is_Some (annual_views !! y) <-> start_year <= y <= end_year)
    /\ (forall y, start_year <= y <= end_year ->
          year_fails svc channel_id y -> annual_views !! y = Some 0)
    /\ (forall y v, start_year <= y <= end_year ->
          year_total svc channel_id y v -> annual_views !! y = Some v).
Proof.
  intros Hall.
  destruct (annual_loop svc channel_id (py_range start_year (end_year + 1)) ∅ [])
    as (d & Hrun & Hout & Hfail & Htot).
  { intros y Hy%elem_of_py_range. apply Hall. lia. }
  exists d. rewrite get_annual_views_unfold, Hrun. simpl.
  split; [done|]. split; [|split].
  - intros y. split.
    + intros Hsome. destruct (decide (y ∈ py_range start_year (end_year + 1)))
        as [Hin%elem_of_py_range|Hnin]; [lia|].
      rewrite (Hout _ Hnin), lookup_empty in Hsome. by destruct Hsome.
    + intros Hy.
      assert (Hin : y ∈ py_range start_year (end_year + 1))
        by (apply elem_of_py_range; lia).
      destruct (Hall y Hy) as [Hf|[v Hv]]; [rewrite (Hfail y Hin Hf)
                                            |rewrite (Htot y v Hin Hv)]; eauto.
  - intros y Hy. apply Hfail, elem_of_py_range. lia.
  - intros y v Hy. apply Htot, elem_of_py_range. lia.
Qed.

(** C3 (as amended). For [start_year <= end_year], when the call of each
    year of the range either fails with [HttpError] or succeeds with a
    total, [get_annual_views] returns normally a mapping whose keys are
    exactly the years of the range; a year whose call raised [HttpError] is
    mapped to 0 and every other year to the total fetched for it. *)
Theorem get_annual_views_isolates_failed_years :
  forall (svc : analytics_service) (channel_id : string)
         (start_year end_year : Z),
    start_year <= end_year ->
    (forall y, start_year <= y <= end_year ->
       year_fails svc channel_id y \/ exists v, year_total svc channel_id y v) ->
    exists annual_views,
      (get_annual_views svc channel_id start_year end_year).1
      = Return annual_views
      /\ (forall y, is_Some (annual_views !! y) <-> start_year <= y <= end_year)
      /\ (forall y, start_year <= y <= end_year ->
            year_fails svc channel_id y -> annual_views !! y = Some 0)
      /\ (forall y v, start_year <= y <= end_year ->
            year_total svc channel_id y v -> annual_views !! y = Some v).
Proof.
  intros svc channel_id start_year end_year _ Hall.
  destruct (get_annual_views_run _ _ _ _ Hall) as (d & Hrun & H).
  exists d. by rewrite Hrun.
Qed.

Lemma demo_analytics_2020_2022 y :
  2020 <= y <= 2022 ->
  year_fails demo_analytics "UC" y
  \/ exists v, year_total demo_analytics "UC" y v.
Proof.
  intros Hy. assert (y = 2020 \/ y = 2021 \/ y = 2022) as [->|[->| ->]] by lia.
  - right. exists 7. left. by exists [1], [[9]].
  - by left.
  - right. exists 0. by right.
Qed.

Lemma get_annual_views_isolates_failed_years_witness :
  exists annual_views,
    (get_annual_views demo_analytics "UC" 2020 2022).1 = Return annual_views
    /\ annual_views !! 2020 = Some 7
    /\ annual_views !! 2021 = Some 0
    /\ annual_views !! 2022 = Some 0
    /\ annual_views !! 2023 = None.
Proof.
  destruct (get_annual_views_isolates_failed_years demo_analytics "UC" 2020 2022)
    as (d & Hrun & Hdom & Hfail & Htot).
  - lia.
  - apply demo_analytics_2020_2022.
  - exists d. split; [done|]. split; [|split; [|split]].
    + apply Htot; [lia|]. left. by exists [1], [[9]].
    + apply Hfail; [lia|done].
    + apply Htot; [lia|]. by right.
    + destruct (d !! 2023) eqn:E; [|done].
      assert (is_Some (d !! 2023)) as Hs%Hdom by eauto. lia.
Defined.

(** C3, as first stated, fails: a call that fails with another exception
    than [HttpError] is not recorded as 0. Here the call for 2021 fails so,
    and [get_annual_views] raises instead of returning a mapping. *)
Lemma get_annual_views_raises_on_other_failure :
  demo_analytics_outage (annual_query "UC" 2021) = Raise OtherError
  /\ (get_annual_views demo_analytics_outage "UC" 2020 2022).1
     = Raise OtherError.
Proof. split; reflexivity. Qed.

(** C10. The default of 0 is taken when a successful report has no [rows]
    key. When the report of year [y] has a [rows] key holding an empty list,
    reading its first row raises [IndexError], which the handler for
    [HttpError] does not catch: [get_annual_views] raises, records nothing
    for [y] and issues no call for the later years. *)
Theorem get_annual_views_empty_rows_raises :
  forall (svc : analytics_service) (channel_id : string)
         (start_year end_year y : Z),
    start_year <= y <= end_year ->
    ((forall y', start_year <= y' <= end_year ->
        year_fails svc channel_id y'
        \/ exists v, year_total svc channel_id y' v) ->
     svc (annual_query channel_id y) = Return {| rows := None |} ->
     exists annual_views,
       (get_annual_views svc channel_id start_year end_year).1
       = Return annual_views
       /\ annual_views !! y = Some 0)
    /\
    ((forall y', start_year <= y' < y ->
        year_fails svc channel_id y'
        \/ exists v, year_total svc channel_id y' v) ->
     svc (annual_query channel_id y) = Return {| rows := Some [] |} ->
     exists annual_views,
       get_annual_views svc channel_id start_year end_year
       = (Raise IndexError,
          Fetch annual_views
            (annual_query channel_id <$> py_range start_year (y + 1)))
       /\ annual_views !! y = None).
Proof.
  intros svc channel_id start_year end_year y Hy. split.
  - intros Hall Hrows.
    destruct (get_annual_views_run _ _ _ _ Hall) as (d & Hrun & _ & _ & Htot).
    exists d. rewrite Hrun. split; [done|]. apply Htot; [done|]. by right.
  - intros Hbefore Hrows.
    destruct (annual_loop svc channel_id (py_range start_year y) ∅ [])
      as (d & Hrun & Hout & _).
    { intros y' Hy'%elem_of_py_range. apply Hbefore. lia. }
    exists d. split.
    + rewrite get_annual_views_unfold.
      assert (Hsplit : py_range start_year (end_year + 1)
                = py_range start_year y ++ y :: py_range (y + 1) (end_year + 1)).
      { unfold py_range.
        replace (end_year + 1 - start_year)
          with ((y - start_year) + (1 + (end_year + 1 - (y + 1)))) by lia.
        rewrite seqZ_app by lia. f_equal.
        replace (start_year + (y - start_year)) with y by lia.
        rewrite seqZ_cons by lia. f_equal. f_equal; lia. }
      rewrite Hsplit, for_each_app, Hrun, for_each_cons.
      rewrite (annual_step_empty_rows _ _ _ _ _ Hrows). simpl.
      assert (Hq : py_range start_year (y + 1) = py_range start_year y ++ [y]).
      { unfold py_range.
        replace (y + 1 - start_year) with ((y - start_year) + 1) by lia.
        rewrite seqZ_app by lia. f_equal.
        replace (start_year + (y - start_year)) with y by lia. done. }
      by rewrite Hq, fmap_app.
    + rewrite Hout; [apply lookup_empty|].
      intros Hin%elem_of_py_range. lia.
Qed.

Lemma get_annual_views_empty_rows_raises_witness :
  (exists annual_views,
     (get_annual_views demo_analytics "UC" 2020 2022).1 = Return annual_views
     /\ annual_views !! 2022 = Some 0)
  /\ (exists annual_views,
        get_annual_views demo_analytics "UC" 2020 2024
        = (Raise IndexError,
           Fetch annual_views
             (annual_query "UC" <$> py_range 2020 (2023 + 1)))
        /\ annual_views !! 2023 = None).
Proof.
  split.
  - apply (proj1 (get_annual_views_empty_rows_raises
                    demo_analytics "UC" 2020 2022 2022 ltac:(lia))).
    + apply demo_analytics_2020_2022.
    + reflexivity.
  - apply (proj2 (get_annual_views_empty_rows_raises
                    demo_analytics "UC" 2020 2024 2023 ltac:(lia))).
    + intros y' Hy'. apply demo_analytics_2020_2022. lia.
    + reflexivity.
Defined.

(** ** [get_videos_by_year] *)

Lemma slice_to_first_four s : PyStr.slice_to s 4 = first_four s.
Proof.
  unfold PyStr.slice_to, PyStr.bound, PyStr.len, first_four. simpl.
  replace (Z.to_nat (Z.min (Z.of_nat (String.length s)) 4))
    with (Nat.min (String.length s) 4) by lia.
  generalize 4%nat. induction s as [|a s IH]; intros [|n]; simpl; try done.
  by rewrite IH.
Qed.

Lemma place_item_lookup item d y :
  place_item item d !! y
  = if decide (y = first_four (pi_publishedAt item))
    then Some (default [] (d !! y) ++ [pi_videoId item])
    else d !! y.
Proof.
  unfold place_item. rewrite slice_to_first_four.
  set (year := first_four (pi_publishedAt item)).
  destruct (decide (year ∈ dom d)) as [Hin|Hnin].
  - rewrite lookup_alter. apply elem_of_dom in Hin as [l Hl].
    destruct (decide (y = year)) as [->|Hne].
    + rewrite decide_True by done. by rewrite Hl.
    + by rewrite decide_False by done.
  - apply not_elem_of_dom in Hnin. rewrite lookup_alter.
    destruct (decide (y = year)) as [->|Hne].
    + rewrite decide_True by done. by rewrite lookup_insert_eq, Hnin.
    + rewrite decide_False by done. by rewrite lookup_insert_ne.
Qed.

Lemma published_in_cons y item items :
  published_in y (item :: items)
  = if decide (first_four (pi_publishedAt item) = y)
    then pi_videoId item :: published_in y items
    else published_in y items.
Proof. unfold published_in. rewrite filter_cons. by case_decide. Qed.

Lemma place_all_lookup items d y :
  place_all items d !! y
  = if decide (published_in y items = [])
    then d !! y
    else Some (default [] (d !! y) ++ published_in y items).
Proof.
  revert d. induction items as [|item items IH]; intros d.
  { by rewrite decide_True. }
  change (place_all (item :: items) d)
    with (place_all items (place_item item d)).
  rewrite IH, place_item_lookup, published_in_cons.
  destruct (decide (first_four (pi_publishedAt item) = y)) as [Hy|Hy].
  - rewrite (decide_True (P := y = _)) by done.
    rewrite (decide_False (P := _ :: _ = [])) by done.
    destruct (decide (published_in y items = [])) as [E|E].
    + by rewrite E.
    + simpl. by rewrite <- app_assoc.
  - by rewrite (decide_False (P := y = _)) by done.
Qed.

Lemma published_in_app y l1 l2 :
  published_in y (l1 ++ l2) = published_in y l1 ++ published_in y l2.
Proof. unfold published_in. by rewrite filter_app, fmap_app. Qed.

Lemma place_all_app l1 l2 d :
  place_all (l1 ++ l2) d = place_all l2 (place_all l1 d).
Proof. unfold place_all. apply foldl_app. Qed.

Lemma for_each_place items d (log : list PlaylistRequest) :
  for_each items (fun item => update_store (place_item item)) (Fetch d log)
  = (Return tt, Fetch (place_all items d) log).
Proof.
  revert d. induction items as [|item items IH]; intros d; [done|].
  rewrite for_each_cons. unfold update_store at 1, modify. simpl.
  apply IH.
Qed.

Lemma playlist_loop_serves svc pl tok pages e :
  serves svc pl tok pages e ->
  forall fuel d log, (length pages < fuel)%nat ->
  exists reqs,
    length reqs = listing_calls pages e
    /\ playlist_loop fuel svc pl tok (Fetch d log)
       = (match e with
          | Exhausted => Return (Some tt)
          | Failed => Raise HttpError
          end,
          Fetch (place_all (concat pages) d) (log ++ reqs)).
Proof.
  induction 1 as [tok Hcall|tok page Hcall Hlast|tok page pages e Hcall Hnext _ IH];
    intros [|fuel] d log Hfuel; simpl in Hfuel; try lia.
  - exists [playlist_request pl tok]. split; [done|].
    simpl. unfold mbind, eff_bind, execute. simpl.
    by rewrite Hcall.
  - exists [playlist_request pl tok]. split; [done|].
    simpl. unfold mbind, eff_bind, execute. simpl.
    rewrite Hcall, for_each_place.
    rewrite Hlast. simpl. by rewrite app_nil_r.
  - destruct (IH fuel (place_all (default [] (pp_items page)) d)
                (log ++ [playlist_request pl tok])) as (reqs & Hlen & Hrun);
      [lia|].
    exists (playlist_request pl tok :: reqs). split.
    { destruct e; simpl in *; lia. }
    simpl. unfold mbind, eff_bind, execute. simpl.
    rewrite Hcall, for_each_place.
    rewrite Hnext. simpl. rewrite Hrun, place_all_app, <- app_assoc. done.
Qed.

Lemma get_videos_by_year_serves svc pl pages e fuel :
  serves svc pl None pages e ->
  (length pages < fuel)%nat ->
  exists reqs,
    length reqs = listing_calls pages e
    /\ get_videos_by_year fuel svc pl
       = (Return (Some (place_all (concat pages) ∅)),
          Fetch (place_all (concat pages) ∅) reqs).
Proof.
  intros Hs Hfuel.
  destruct (playlist_loop_serves _ _ _ _ _ Hs fuel ∅ [] Hfuel)
    as (reqs & Hlen & Hrun).
  exists reqs. split; [done|].
  unfold get_videos_by_year, try_eff, mbind, eff_bind. rewrite Hrun.
  by destruct e.
Qed.

Lemma place_all_empty_lookup items y :
  place_all items ∅ !! y
  = if decide (published_in y items = []) then None
    else Some (published_in y items).
Proof. rewrite place_all_lookup, lookup_empty. by case_decide. Qed.

Lemma place_all_empty_default items y :
  default [] (place_all items ∅ !! y) = published_in y items.
Proof.
  rewrite place_all_empty_lookup. case_decide as E; [by rewrite E|done].
Qed.

Lemma elem_of_published_in vid y items :
  vid ∈ published_in y items
  <-> exists item, item ∈ items /\ first_four (pi_publishedAt item) = y
                   /\ pi_videoId item = vid.
Proof.
  unfold published_in. rewrite list_elem_of_fmap. split.
  - intros (item & -> & [Hy Hin]%list_elem_of_filter). eauto.
  - intros (item & Hin & Hy & <-). exists item. split; [done|].
    by apply list_elem_of_filter.
Qed.

Lemma NoDup_fmap_eq {A B} (f : A -> B) (l : list A) x y :
  NoDup (f <$> l) -> x ∈ l -> y ∈ l -> f x = f y -> x = y.
Proof.
  induction l as [|a l IH]; simpl; [by intros _ ?%not_elem_of_nil|].
  intros [Ha Hl]%NoDup_cons [->|Hx]%elem_of_cons [->|Hy]%elem_of_cons Hf;
    try done.
  - exfalso. apply Ha. rewrite Hf. by apply list_elem_of_fmap_2.
  - exfalso. apply Ha. rewrite <- Hf. by apply list_elem_of_fmap_2.
  - by apply IH.
Qed.

(** C7 (as amended). When the platform delivers the pages [pages] and the
    listing then ends, by a call that fails with [HttpError] or by a page
    without continuation, the function returns, with no exception, the
    mapping of all items of these pages: each year holds the videos
    published in it in page order. It sends one request per page and, after
    a failure, none beyond the failed one. *)
Theorem get_videos_by_year_partial_result :
  forall (svc : playlist_service) (uploads_playlist_id : string)
         (pages : list (list PlaylistItem)) (e : ending) (fuel : nat),
    serves svc uploads_playlist_id None pages e ->
    (length pages < fuel)%nat ->
    exists videos_by_year reqs,
      get_videos_by_year fuel svc uploads_playlist_id
      = (Return (Some videos_by_year), Fetch videos_by_year reqs)
      /\ length reqs = listing_calls pages e
      /\ forall year,
           videos_by_year !! year
           = if decide (published_in year (concat pages) = []) then None
             else Some (published_in year (concat pages)).
Proof.
  intros svc pl pages e fuel Hs Hfuel.
  destruct (get_videos_by_year_serves _ _ _ _ _ Hs Hfuel) as (reqs & Hlen & Hrun).
  exists (place_all (concat pages) ∅), reqs.
  split; [done|]. split; [done|]. apply place_all_empty_lookup.
Qed.

Lemma demo_playlist_serves :
  serves demo_playlist "UU" None
    [ [ {| pi_videoId := "v1"; pi_publishedAt := "2022-07-01T10:00:00Z" |};
        {| pi_videoId := "v2"; pi_publishedAt := "2021-03-05T08:30:00Z" |} ];
      [ {| pi_videoId := "v3"; pi_publishedAt := "2022-01-09T12:00:00Z" |} ] ]
    Failed.
Proof.
  apply (serves_more demo_playlist "UU" None demo_page1); [done|done|].
  apply (serves_more demo_playlist "UU" (Some "p2") demo_page2); [done|done|].
  by apply serves_failed.
Qed.

Lemma get_videos_by_year_partial_result_witness :
  exists videos_by_year reqs,
    get_videos_by_year 3 demo_playlist "UU"
    = (Return (Some videos_by_year), Fetch videos_by_year reqs)
    /\ length reqs = 3%nat
    /\ videos_by_year !! "2022" = Some ["v1"; "v3"]
    /\ videos_by_year !! "2021" = Some ["v2"]
    /\ videos_by_year !! "2020" = None.
Proof.
  destruct (get_videos_by_year_partial_result demo_playlist "UU" _ _ 3
              demo_playlist_serves) as (d & reqs & Hrun & Hlen & Hd).
  - simpl. lia.
  - exists d, reqs. split; [done|]. split; [done|].
    rewrite !Hd. by repeat split.
Defined.

(** C7, as first stated, fails: when the call for the second page fails
    with another exception than [HttpError], that exception reaches the
    caller and the items of the first page are not returned. *)
Lemma get_videos_by_year_raises_on_other_failure :
  demo_playlist_outage (playlist_request "UU" None) = Return demo_page1
  /\ demo_playlist_outage (playlist_request "UU" (Some "p2"))
     = Raise OtherError
  /\ (get_videos_by_year 3 demo_playlist_outage "UU").1 = Raise OtherError.
Proof. repeat split; reflexivity. Qed.

(** C6. Every bucket of the mapping holds exactly the videos whose
    publication timestamp begins with the four characters naming the
    bucket: a video is placed in the bucket of the first four characters of
    its timestamp and, its identifier being listed once, in no other; a
    video published at "2022-07-01T10:00:00Z" goes to "2022" alone. *)
Theorem get_videos_by_year_buckets :
  forall (svc : playlist_service) (uploads_playlist_id : string)
         (pages : list (list PlaylistItem)) (e : ending) (fuel : nat),
    serves svc uploads_playlist_id None pages e ->
    (length pages < fuel)%nat ->
    exists videos_by_year,
      (get_videos_by_year fuel svc uploads_playlist_id).1
      = Return (Some videos_by_year)
      /\ (forall year,
            default [] (videos_by_year !! year)
            = pi_videoId <$>
                filter (fun item => first_four (pi_publishedAt item) = year)
                       (concat pages))
      /\ (forall item, item ∈ concat pages ->
            pi_videoId item
            ∈ default [] (videos_by_year !! first_four (pi_publishedAt item)))
      /\ (NoDup (pi_videoId <$> concat pages) ->
          forall item year, item ∈ concat pages ->
            pi_videoId item ∈ default [] (videos_by_year !! year)
            <-> year = first_four (pi_publishedAt item))
      /\ (forall video_id,
            place_item {| pi_videoId := video_id;
                          pi_publishedAt := "2022-07-01T10:00:00Z" |} ∅
            = {[ "2022" := [video_id] ]}).
Proof.
  intros svc pl pages e fuel Hs Hfuel.
  destruct (get_videos_by_year_serves _ _ _ _ _ Hs Hfuel) as (reqs & Hlen & Hrun).
  exists (place_all (concat pages) ∅). rewrite Hrun.
  split; [done|]. split; [|split; [|split]].
  - intros year. apply place_all_empty_default.
  - intros item Hin. rewrite place_all_empty_default.
    apply elem_of_published_in. eauto.
  - intros Hnd item year Hin. rewrite place_all_empty_default.
    rewrite elem_of_published_in. split.
    + intros (item' & Hin' & <- & Hid).
      by rewrite (NoDup_fmap_eq pi_videoId _ _ _ Hnd Hin' Hin Hid).
    + intros ->. eauto.
  - intros video_id. apply map_eq. intros y.
    rewrite place_item_lookup. simpl.
    change (first_four "2022-07-01T10:00:00Z") with "2022".
    destruct (decide (y = "2022")) as [->|Hne].
    + by rewrite lookup_singleton_eq.
    + by rewrite lookup_singleton_ne.
Qed.

Lemma get_videos_by_year_buckets_witness :
  exists videos_by_year,
    (get_videos_by_year 3 demo_playlist "UU").1 = Return (Some videos_by_year)
    /\ default [] (videos_by_year !! "2022") = ["v1"; "v3"]
    /\ default [] (videos_by_year !! "2021") = ["v2"].
Proof.
  destruct (get_videos_by_year_buckets demo_playlist "UU" _ _ 3
              demo_playlist_serves) as (d & Hrun & Hd & _).
  - simpl. lia.
  - exists d. split; [done|]. by rewrite !Hd.
Defined.

(** ** Batches *)

Lemma chunks_fuel_concat {A} fuel n (l : list A) :
  (0 < n)%nat -> (length l <= fuel)%nat -> concat (chunks_fuel fuel n l) = l.
Proof.
  intros Hn. revert l. induction fuel as [|fuel IH]; intros [|x l] Hl;
    simpl in *; try done; try lia.
  rewrite IH.
  - apply (take_drop n (x :: l)).
  - rewrite length_drop. simpl. lia.
Qed.


Lemma chunks_fuel_slices {A} fuel n (l : list A) :
  (0 < n)%nat -> (length l <= fuel)%nat ->
  chunks_fuel fuel n l
  = (fun i => list_slice l i (i + n)) <$> py_range_step 0 (length l) n.
Proof.
  intros Hn. unfold py_range_step, list_slice.
  revert l. induction fuel as [|fuel IH]; intros l Hl.
  - destruct l; [|simpl in Hl; lia]. simpl.
    rewrite Nat.div_small by lia. done.
  - destruct l as [|x l]; [simpl; by rewrite Nat.div_small by lia|].
    set (xl := x :: l). assert (Hlen : (0 < length xl)%nat) by (simpl; lia).
    change (chunks_fuel (S fuel) n xl)
      with (take n xl :: chunks_fuel fuel n (drop n xl)).
    rewrite IH by (rewrite length_drop; subst xl; simpl in *; lia).
    rewrite length_drop.
    replace ((length xl - 0 + n - 1) / n)%nat
      with (S ((length xl - n - 0 + n - 1) / n))%nat.
    + rewrite <- cons_seq, <- fmap_S_seq, fmap_cons, <- !list_fmap_compose.
      rewrite fmap_cons, <- list_fmap_compose. f_equal.
      * simpl. f_equal. lia.
      * apply list_fmap_ext. intros _ k _. simpl. rewrite drop_drop.
        repeat (f_equal; try lia).
    + destruct (le_lt_dec (length xl) n) as [Hle|Hgt].
      * replace (length xl - n - 0 + n - 1)%nat with (n - 1)%nat by lia.
        rewrite (Nat.div_small (n - 1)) by lia.
        apply (Nat.div_unique _ n 1 (length xl - 1)); lia.
      * replace (length xl - 0 + n - 1)%nat
          with ((length xl - n - 0 + n - 1) + 1 * n)%nat by lia.
        rewrite Nat.div_add by lia. lia.
Qed.

Lemma chunks_concat {A} n (l : list A) :
  (0 < n)%nat -> concat (chunks n l) = l.
Proof. intros Hn. by apply chunks_fuel_concat. Qed.


Lemma chunks_slices {A} n (l : list A) :
  (0 < n)%nat ->
  (fun i => list_slice l i (i + n)) <$> py_range_step 0 (length l) n
  = chunks n l.
Proof. intros Hn. symmetry. by apply chunks_fuel_slices. Qed.

Lemma elem_of_concat {A} (x : A) (ls : list (list A)) :
  x ∈ concat ls <-> exists l, l ∈ ls /\ x ∈ l.
Proof.
  induction ls as [|l0 ls IH]; simpl.
  - split; [by intros ?%not_elem_of_nil|by intros (? & ?%not_elem_of_nil & _)].
  - rewrite elem_of_app, IH. split.
    + intros [H|(l & Hl & Hx)]; [exists l0|exists l]; split; try done;
        [by left|by right].
    + intros (l & [->|Hl]%elem_of_cons & Hx); [by left|right; eauto].
Qed.

(** Pieces of a list without repetition share no element. *)
Lemma concat_NoDup_piece {A} (cs : list (list A)) c c' x :
  NoDup (concat cs) -> c ∈ cs -> c' ∈ cs -> x ∈ c -> x ∈ c' -> c = c'.
Proof.
  induction cs as [|c0 cs IH]; simpl; [by intros _ ?%not_elem_of_nil|].
  intros (Hc0 & Hdisj & Hcs)%NoDup_app [->|Hc]%elem_of_cons
         [->|Hc']%elem_of_cons Hx Hx'; try done.
  - exfalso. apply (Hdisj x Hx). apply elem_of_concat. eauto.
  - exfalso. apply (Hdisj x Hx'). apply elem_of_concat. eauto.
  - by apply IH.
Qed.

(** ** Ordered dictionaries *)

Lemma dict_keys_set {V} k (v : V) d k' :
  k' ∈ PyDict.keys (PyDict.set k v d) <-> k' = k \/ k' ∈ PyDict.keys d.
Proof.
  unfold PyDict.keys. induction d as [|[k0 v0] d IH]; simpl.
  - rewrite list_elem_of_singleton. split; [by left|].
    by intros [?|?%not_elem_of_nil].
  - destruct (String.eqb_spec k k0) as [->|Hne]; simpl.
    + rewrite !elem_of_cons. tauto.
    + rewrite !elem_of_cons, IH. tauto.
Qed.

Lemma dict_set_NoDup {V} k (v : V) d :
  NoDup (PyDict.keys d) -> NoDup (PyDict.keys (PyDict.set k v d)).
Proof.
  unfold PyDict.keys. induction d as [|[k0 v0] d IH]; simpl.
  - intros _. apply NoDup_singleton.
  - intros [Hk0 Hd]%NoDup_cons.
    destruct (String.eqb_spec k k0) as [->|Hne]; simpl.
    + by apply NoDup_cons.
    + apply NoDup_cons. split; [|by apply IH].
      intros [E|Hin]%(dict_keys_set (V := V)); [congruence|done].
Qed.

(** ** [get_video_stats] *)

Lemma for_each_fmap {S A B} (f : A -> B) (l : list A) (body : B -> eff S unit) :
  for_each l (fun x => body (f x)) = for_each (f <$> l) body.
Proof. induction l as [|x l IH]; simpl; [done|by rewrite IH]. Qed.

Section VideoStats.
Context (svc : videos_service).

Lemma stats_items_run items st (log : list VideosRequest) :
  Forall readable items ->
  exists st',
    for_each items stats_item (Fetch st log) = (Return tt, Fetch st' log)
    /\ (NoDup (PyDict.keys st) -> NoDup (PyDict.keys st'))
    /\ forall k, k ∈ PyDict.keys st'
                 <-> k ∈ PyDict.keys st \/ k ∈ v_id <$> items.
Proof.
  revert st. induction items as [|item items IH]; intros st Hall.
  - exists st. split; [done|]. split; [done|]. intros k. split; [by left|].
    by intros [?|?%not_elem_of_nil].
  - apply Forall_cons in Hall as [[record Hrec] Hall].
    destruct (IH (PyDict.set (v_id item) record st) Hall)
      as (st' & Hrun & Hnd & Hkeys).
    exists st'. split; [|split].
    + rewrite for_each_cons. unfold stats_item at 1.
      unfold mbind, eff_bind, lift, update_store, modify. rewrite Hrec.
      simpl. exact Hrun.
    + intros H. by apply Hnd, dict_set_NoDup.
    + intros k. rewrite Hkeys, dict_keys_set, fmap_cons, elem_of_cons. tauto.
Qed.

Lemma stats_batch_fails batch st log :
  batch_fails svc batch ->
  stats_batch svc batch (Fetch st log)
  = (Return tt, Fetch st (log ++ [videos_request batch])).
Proof.
  intros H. unfold stats_batch. run_eff. by rewrite H.
Qed.

Lemma stats_batch_returns batch items st log :
  batch_returns svc batch items -> Forall readable items ->
  exists st',
    stats_batch svc batch (Fetch st log)
    = (Return tt, Fetch st' (log ++ [videos_request batch]))
    /\ (NoDup (PyDict.keys st) -> NoDup (PyDict.keys st'))
    /\ forall k, k ∈ PyDict.keys st'
                 <-> k ∈ PyDict.keys st \/ k ∈ v_id <$> items.
Proof.
  intros (response & Hcall & ->) Hall.
  destruct (stats_items_run _ st (log ++ [videos_request batch]) Hall)
    as (st' & Hrun & Hnd & Hkeys).
  exists st'. split; [|done].
  unfold stats_batch, try_eff, mbind, eff_bind, execute. simpl.
  by rewrite Hcall, Hrun.
Qed.

Lemma stats_loop cs st log :
  (forall c, c ∈ cs -> answered svc c) ->
  exists st',
    for_each cs (stats_batch svc) (Fetch st log)
    = (Return tt, Fetch st' (log ++ (videos_request <$> cs)))
    /\ (NoDup (PyDict.keys st) -> NoDup (PyDict.keys st'))
    /\ forall k, k ∈ PyDict.keys st'
                 <-> k ∈ PyDict.keys st \/ returned_by svc cs k.
Proof.
  revert st log. induction cs as [|c cs IH]; intros st log Hall.
  - exists st. rewrite app_nil_r. split; [done|]. split; [done|].
    intros k. split; [by left|].
    intros [H|(c & ? & ? & Hc%not_elem_of_nil & _)]; done.
  - assert (Hc : exists st1,
      stats_batch svc c (Fetch st log)
      = (Return tt, Fetch st1 (log ++ [videos_request c]))
      /\ (NoDup (PyDict.keys st) -> NoDup (PyDict.keys st1))
      /\ forall k, k ∈ PyDict.keys st1
                   <-> k ∈ PyDict.keys st \/ returned_by svc [c] k).
    { destruct (Hall c) as [Hf|(items & Hret & Hitems)]; [by left|..].
      - exists st. split; [by apply stats_batch_fails|]. split; [done|].
        intros k. split; [by left|].
        intros [H|(c' & items & item & ->%list_elem_of_singleton
                      & (r & Hr & _) & _)]; [done|].
        unfold batch_fails in Hf. congruence.
      - destruct (stats_batch_returns c items st log Hret) as (st1 & ? & ? & Hk).
        { eapply Forall_impl; [exact Hitems|]. by intros ? [? _]. }
        exists st1. split; [done|]. split; [done|].
        intros k. rewrite Hk. apply or_iff_compat_l. split.
        + intros (item & -> & Hin)%list_elem_of_fmap.
          exists c, items, item. by rewrite list_elem_of_singleton.
        + intros (c' & items' & item & ->%list_elem_of_singleton
                     & Hret' & Hin & <-).
          destruct Hret as (r & Hr & ->), Hret' as (r' & Hr' & ->).
          assert (r = r') as -> by congruence.
          by apply list_elem_of_fmap_2. }
    destruct Hc as (st1 & Hstep & Hnd1 & Hk1).
    destruct (IH st1 (log ++ [videos_request c])) as (st' & Hrun & Hnd & Hk).
    { intros c' Hc'. apply Hall. by right. }
    exists st'. split; [|split].
    + by rewrite for_each_cons, Hstep, Hrun, fmap_cons, <- app_assoc.
    + auto.
    + intros k. rewrite Hk, Hk1. unfold returned_by. split.
      * intros [[H|(c' & items & item & ->%list_elem_of_singleton & H)]
               |(c' & items & item & Hc' & H)]; [by left|right..].
        -- exists c, items, item. split; [by left|done].
        -- exists c', items, item. split; [by right|done].
      * intros [H|(c' & items & item & [->|Hc']%elem_of_cons & H)].
        -- by left; left.
        -- left; right. exists c, items, item.
           by rewrite list_elem_of_singleton.
        -- right. by exists c', items, item.
Qed.

Lemma get_video_stats_run video_ids :
  (forall c, c ∈ chunks 50 video_ids -> answered svc c) ->
  exists stats,
    get_video_stats svc video_ids
    = (Return stats, Fetch stats (videos_request <$> chunks 50 video_ids))
    /\ NoDup (PyDict.keys stats)
    /\ forall k, k ∈ PyDict.keys stats <-> returned_by svc (chunks 50 video_ids) k.
Proof.
  intros Hall.
  destruct (stats_loop (chunks 50 video_ids) [] [] Hall)
    as (stats & Hrun & Hnd & Hk).
  exists stats. split; [|split].
  - unfold get_video_stats, mbind, eff_bind.
    rewrite (for_each_fmap (fun i => list_slice video_ids i (i + 50))).
    rewrite chunks_slices by lia. unfold PyDict.t in *. by rewrite Hrun.
  - apply Hnd. constructor.
  - intros k. rewrite Hk. unfold PyDict.keys. simpl.
    split; [intros [?%not_elem_of_nil|?]; done|by right].
Qed.
End VideoStats.


Lemma demo_videos_answered c :
  c ∈ chunks 50 demo_ids -> answered demo_videos c.
Proof.
  intros Hc%list_elem_of_In. vm_compute in Hc.
  destruct Hc as [<-|[<-|[]]].
  - by left.
  - right. exists [demo_video "50"; demo_video "51"]. split.
    + by eexists.
    + repeat constructor; try (by eexists);
        apply list_elem_of_In; vm_compute; tauto.
Qed.


(** C8 (as amended). When every batch is answered, its call failing with
    [HttpError] or returning items that can all be read and are among the
    videos asked for, [get_video_stats]
    returns normally after one call per batch, whichever calls failed. The
    keys of the mapping are exactly the identifiers that came back from the
    successful calls: a failed call removes nothing that another batch
    produced, and, the identifiers being distinct, no identifier of a failed
    batch is a key. *)
Theorem get_video_stats_isolates_failed_batches :
  forall (svc : videos_service) (video_ids : list string),
    (forall c, c ∈ chunks 50 video_ids -> answered svc c) ->
    exists stats,
      get_video_stats svc video_ids
      = (Return stats, Fetch stats (videos_request <$> chunks 50 video_ids))
      /\ (forall k, k ∈ PyDict.keys stats
                    <-> returned_by svc (chunks 50 video_ids) k)
      /\ (NoDup video_ids ->
          forall c, c ∈ chunks 50 video_ids -> batch_fails svc c ->
          forall k, k ∈ c -> k ∉ PyDict.keys stats).
Proof.
  intros svc video_ids Hall.
  destruct (get_video_stats_run svc video_ids Hall) as (stats & Hrun & _ & Hk).
  exists stats. split; [done|]. split; [done|].
  intros Hnd c Hc Hf k Hkc (c' & items & item & Hc' & Hret & Hin & <-)%Hk.
  assert (Hkc' : v_id item ∈ c').
  { destruct (Hall c' Hc') as [Hf'|(items' & Hret' & Hitems)].
    - destruct Hret as (r & Hr & _). unfold batch_fails in Hf'. congruence.
    - destruct Hret as (r & Hr & ->), Hret' as (r' & Hr' & ->).
      assert (r = r') as -> by congruence.
      rewrite Forall_forall in Hitems. by apply Hitems. }
  assert (c = c') as <-.
  { apply (concat_NoDup_piece (chunks 50 video_ids) c c' (v_id item));
      try done. by rewrite chunks_concat by lia. }
  destruct Hret as (r & Hr & _). unfold batch_fails in Hf. congruence.
Qed.

Lemma get_video_stats_isolates_failed_batches_witness :
  exists stats,
    get_video_stats demo_videos demo_ids
    = (Return stats, Fetch stats (videos_request <$> chunks 50 demo_ids))
    /\ "50" ∈ PyDict.keys stats
    /\ "7" ∉ PyDict.keys stats.
Proof.
  destruct (get_video_stats_isolates_failed_batches demo_videos demo_ids
              demo_videos_answered) as (stats & Hrun & Hk & Habsent).
  exists stats. split; [done|]. split.
  - apply Hk. exists (drop 50 demo_ids), [demo_video "50"; demo_video "51"],
      (demo_video "50").
    split; [apply list_elem_of_In; vm_compute; tauto|].
    split; [by eexists|]. split; [by left|done].
  - apply (Habsent ltac:(apply (bool_decide_unpack _); vm_compute; reflexivity)
                   (take 50 demo_ids)).
    + apply list_elem_of_In. vm_compute. tauto.
    + reflexivity.
    + apply list_elem_of_In. vm_compute. tauto.
Defined.

(** C8, as first stated, fails: when the call of the first batch fails with
    another exception than [HttpError], the whole fetch is aborted: the
    function raises, returns no mapping and never asks for the second
    batch. *)
Lemma get_video_stats_raises_on_other_failure :
  demo_videos_outage (videos_request (take 50 demo_ids)) = Raise OtherError
  /\ get_video_stats demo_videos_outage demo_ids
     = (Raise OtherError, Fetch [] [videos_request (take 50 demo_ids)]).
Proof. split; vm_compute; reflexivity. Qed.

(** ** Values and their order *)

Lemma string_ltb_lt a b : String.ltb a b = true <-> OrderedTypeEx.String_as_OT.lt a b.
Proof.
  unfold String.ltb. rewrite <- OrderedTypeEx.String_as_OT.cmp_lt.
  unfold OrderedTypeEx.String_as_OT.cmp.
  destruct (String.compare a b); split; congruence.
Qed.

Lemma py_lt_irrefl v : py_lt v v = Return false.
Proof.
  destruct v as [z|s]; simpl; f_equal.
  - apply Z.ltb_irrefl.
  - destruct (String.ltb s s) eqn:E; [|done].
    apply string_ltb_lt in E.
    by apply OrderedTypeEx.String_as_OT.lt_not_eq in E.
Qed.

Lemma py_lt_trans a b c :
  py_lt a b = Return true -> py_lt b c = Return true -> py_lt a c = Return true.
Proof.
  destruct a as [x|x], b as [y|y], c as [z|z]; simpl; try done;
    intros [= Hab] [= Hbc]; f_equal.
  - apply Z.ltb_lt. apply Z.ltb_lt in Hab, Hbc. lia.
  - apply string_ltb_lt. apply string_ltb_lt in Hab, Hbc.
    by eapply OrderedTypeEx.String_as_OT.lt_trans.
Qed.

Lemma py_lt_asym a b : py_lt a b = Return true -> py_lt b a = Return false.
Proof.
  intros Hab. destruct (py_lt b a) as [[|]|e] eqn:Hba; try done.
  - pose proof (py_lt_trans _ _ _ Hab Hba) as H.
    rewrite py_lt_irrefl in H. done.
  - destruct a, b; simpl in *; done.
Qed.

Lemma uniform_py_lt {A} (value : A -> pyval) x y :
  uniform value -> exists b, py_lt (value x) (value y) = Return b.
Proof.
  intros [H|H]; destruct (H x) as [a ->], (H y) as [b ->]; simpl; eauto.
Qed.

(** The key of the ranking is the value the record holds for the metric. *)
Lemma metric_value_record_get metric x :
  record_get x.2 metric (VInt 0) = metric_value metric x.
Proof.
  unfold metric_value, record_entries, record_get.
  repeat match goal with
         | |- context [String.eqb metric ?f] =>
             destruct (String.eqb_spec metric f) as [->|?];
               [by vm_compute|rewrite ?lookup_insert_ne by done]
         end.
  by rewrite lookup_singleton_ne.
Qed.

Lemma metric_value_uniform metric : uniform (metric_value metric).
Proof.
  assert (H : uniform (fun x : string * VideoRecord =>
                         record_get x.2 metric (VInt 0))).
  { unfold uniform, record_get.
    repeat match goal with
           | |- context [String.eqb ?a ?b] => destruct (String.eqb a b)
           end; eauto. }
  destruct H as [H|H]; [left|right]; intros x;
    rewrite <- metric_value_record_get; apply H.
Qed.

(** ** [sorted] *)

Section SortedFacts.
Context {A : Type} (value : A -> pyval) (Huniform : uniform value).

Lemma with_value_cons v x l :
  with_value value v (x :: l)
  = if decide (value x = v) then x :: with_value value v l
    else with_value value v l.
Proof. unfold with_value. by rewrite filter_cons. Qed.

Lemma with_value_app v l1 l2 :
  with_value value v (l1 ++ l2)
  = with_value value v l1 ++ with_value value v l2.
Proof. unfold with_value. apply filter_app. Qed.

Lemma with_value_rev v l :
  with_value value v (List.rev l) = List.rev (with_value value v l).
Proof.
  induction l as [|x l IH]; [done|]. simpl.
  rewrite with_value_app, IH, !with_value_cons.
  case_decide; simpl; [done|by rewrite app_nil_r].
Qed.

Lemma with_value_none v l :
  (forall z, z ∈ l -> value z <> v) -> with_value value v l = [].
Proof.
  induction l as [|x l IH]; intros H; [done|].
  rewrite with_value_cons, decide_False by (apply H; by left).
  apply IH. intros z Hz. apply H. by right.
Qed.

Lemma insert_last_spec x l :
  non_decreasing value l ->
  exists l',
    insert_last value x l = Return l'
    /\ Permutation l' (x :: l)
    /\ non_decreasing value l'
    /\ forall v, with_value value v l'
                 = with_value value v l ++ with_value value v [x].
Proof.
  induction l as [|y l IH]; intros Hsorted.
  - exists [x]. repeat split; try done. repeat constructor.
  - apply StronglySorted_inv in Hsorted as [Hl Hy].
    rewrite Forall_forall in Hy.
    destruct (uniform_py_lt value x y Huniform) as [[|] Hxy].
    + exists (x :: y :: l). simpl. unfold mbind, result_bind. rewrite Hxy.
      assert (Hbelow : forall z, z ∈ y :: l -> val_le (value x) (value z)).
      { intros z [->|Hz]%elem_of_cons; unfold val_le.
        - by apply py_lt_asym.
        - destruct (uniform_py_lt value z x Huniform) as [[|] Hzx]; [|done].
          pose proof (py_lt_trans _ _ _ Hzx Hxy) as Hzy.
          apply Hy in Hz. unfold val_le in Hz. congruence. }
      split; [done|]. split; [done|]. split.
      * constructor; [by constructor; [|apply Forall_forall]|].
        apply Forall_forall. intros z Hz. by apply Hbelow.
      * intros v. rewrite (with_value_cons v x (y :: l)), (with_value_cons v x []).
        case_decide as Hv; [|by rewrite app_nil_r].
        assert (Hnone : with_value value v (y :: l) = []).
        { apply with_value_none. intros z Hz Hzv. specialize (Hbelow z Hz). unfold val_le in Hbelow.
          apply elem_of_cons in Hz as [->|Hz].
          - rewrite Hzv, <- Hv, py_lt_irrefl in Hxy. done.
          - apply Hy in Hz. unfold val_le in Hz.
            rewrite Hzv, <- Hv in Hz. congruence. }
        by rewrite Hnone.
    + destruct (IH Hl) as (r & Hr & Hperm & Hsr & Hstable).
      exists (y :: r). simpl. unfold mbind, result_bind. rewrite Hxy, Hr.
      split; [done|]. split; [|split].
      * rewrite Hperm. apply perm_swap.
      * constructor; [done|]. apply Forall_forall. intros z Hz.
        rewrite Hperm in Hz.
        apply elem_of_cons in Hz as [->|Hz]; [done|].
        by apply Hy.
      * intros v. rewrite !(with_value_cons v y), Hstable.
        by case_decide.
Qed.

Lemma sort_from_spec acc l :
  non_decreasing value acc ->
  exists s,
    sort_from value acc l = Return s
    /\ Permutation s (acc ++ l)
    /\ non_decreasing value s
    /\ forall v, with_value value v s
                 = with_value value v acc ++ with_value value v l.
Proof.
  revert acc. induction l as [|x l IH]; intros acc Hacc.
  - exists acc. rewrite app_nil_r. repeat split; try done.
    intros v. by rewrite app_nil_r.
  - destruct (insert_last_spec x acc Hacc) as (acc' & Hins & Hperm & Hs & Hst).
    destruct (IH acc' Hs) as (s & Hrun & Hperm' & Hs' & Hst').
    exists s. simpl. unfold mbind, result_bind. rewrite Hins.
    split; [done|]. split; [|split; [done|]].
    + rewrite Hperm', Hperm. simpl. apply Permutation_middle.
    + intros v. rewrite Hst', Hst, <- app_assoc. f_equal.
      by rewrite (with_value_cons v x l), (with_value_cons v x []);
        case_decide.
Qed.

Lemma non_decreasing_rev l :
  non_decreasing value l -> non_increasing value (List.rev l).
Proof.
  unfold non_increasing, non_decreasing. induction 1 as [|x l Hl IH Hx]; simpl; [constructor|].
  apply StronglySorted_app_2; [|done|repeat constructor].
  intros y z Hy ->%list_elem_of_singleton.
  rewrite Forall_forall in Hx. apply Hx. by apply list_elem_of_In, in_rev, list_elem_of_In.
Qed.

Lemma sorted_reverse_spec l :
  exists s,
    sorted value l true = Return s /\ stable_descending_sort value l s.
Proof.
  destruct (sort_from_spec [] (List.rev l)) as (r & Hrun & Hperm & Hsorted & Hst).
  { constructor. }
  exists (List.rev r). unfold sorted, mbind, result_bind. rewrite Hrun.
  split; [done|]. split; [|split].
  - rewrite <- Permutation_rev, Hperm. simpl. by rewrite <- Permutation_rev.
  - by apply non_decreasing_rev.
  - intros v. rewrite with_value_rev, Hst. simpl.
    by rewrite with_value_rev, rev_involutive.
Qed.
End SortedFacts.

(** ** [get_top_videos] *)

Lemma insert_last_ext {A} (f g : A -> pyval) x l :
  (forall y, f y = g y) -> insert_last f x l = insert_last g x l.
Proof.
  intros H. induction l as [|y l IH]; simpl; [done|]. by rewrite !H, IH.
Qed.

Lemma sort_from_ext {A} (f g : A -> pyval) acc l :
  (forall y, f y = g y) -> sort_from f acc l = sort_from g acc l.
Proof.
  intros H. revert acc. induction l as [|x l IH]; intros acc; simpl; [done|].
  rewrite (insert_last_ext f g x acc H). unfold mbind, result_bind.
  destruct (insert_last g x acc); [apply IH|done].
Qed.

Lemma sorted_ext {A} (f g : A -> pyval) l reverse :
  (forall y, f y = g y) -> sorted f l reverse = sorted g l reverse.
Proof.
  intros H. unfold sorted.
  destruct reverse; by rewrite (sort_from_ext f g _ _ H).
Qed.

(** The ranking sorts by the value the records hold for the metric. *)
Lemma get_top_videos_key stats metric limit :
  get_top_videos stats metric limit
  = (sorted_videos ← sorted (metric_value metric) (PyDict.items stats) true;
     Return (list_slice_to sorted_videos limit)).
Proof.
  unfold get_top_videos.
  by rewrite (sorted_ext _ (metric_value metric) _ _
                (metric_value_record_get metric)).
Qed.

Lemma list_slice_to_take {A} (l : list A) (n : nat) :
  list_slice_to l (Z.of_nat n) = take n l.
Proof.
  unfold list_slice_to. destruct (Z.ltb_spec (Z.of_nat n) 0); [lia|].
  destruct (le_lt_dec (length l) n).
  - rewrite Z.min_l, Nat2Z.id by lia. by rewrite !take_ge by lia.
  - by rewrite Z.min_r, Nat2Z.id by lia.
Qed.

(** A list in non-increasing order of an integer value is in non-increasing
    order of the integers. *)
Lemma non_increasing_Z {A} (value : A -> pyval) (field : A -> Z) (l : list A) :
  (forall x, value x = VInt (field x)) ->
  non_increasing value l ->
  StronglySorted (fun x y => field y <= field x) l.
Proof.
  intros Hv. unfold non_increasing. induction 1 as [|x l _ IH Hx]; constructor;
    [done|].
  eapply Forall_impl; [exact Hx|]. intros y. unfold val_le.
  rewrite !Hv. simpl. intros [= H]. by apply Z.ltb_ge in H.
Qed.

(** C5. For every mapping and every metric, [get_top_videos] with the
    default limit returns, raising nothing, at most 5 entries in
    non-increasing order of the value their records hold for the metric (0
    for a record without it); they are the first 5 of the stable descending
    sort of all entries: the entries of the mapping, in non-increasing
    order of that value, entries of equal value in the iteration order of
    the mapping. For the metrics "views", "likes" and "comments" the
    entries returned are in non-increasing order of the views, of the likes
    and of the comments of their records. *)
Theorem get_top_videos_stable_top_five :
  forall (stats : PyDict.t VideoRecord) (metric : string),
  exists top sorted_videos,
    get_top_videos stats metric default_limit = Return top
    /\ (length top <= 5)%nat
    /\ non_increasing (metric_value metric) top
    /\ top = take 5 sorted_videos
    /\ stable_descending_sort (metric_value metric) (PyDict.items stats)
         sorted_videos
    /\ (metric = "views" ->
        StronglySorted (fun x y => views y.2 <= views x.2) top)
    /\ (metric = "likes" ->
        StronglySorted (fun x y => likes y.2 <= likes x.2) top)
    /\ (metric = "comments" ->
        StronglySorted (fun x y => comments y.2 <= comments x.2) top).
Proof.
  intros stats metric.
  destruct (sorted_reverse_spec (metric_value metric)
              (metric_value_uniform metric) (PyDict.items stats))
    as (s & Hrun & Hspec).
  assert (Htop : non_increasing (metric_value metric) (take 5 s)).
  { destruct Hspec as (_ & Hs & _). unfold non_increasing in *.
    rewrite <- (take_drop 5 s) in Hs. by apply StronglySorted_app_1_l in Hs. }
  exists (take 5 s), s. repeat split; try done.
  - rewrite get_top_videos_key. unfold mbind, result_bind.
    rewrite Hrun. f_equal. apply (list_slice_to_take s 5).
  - rewrite length_take. lia.
  - by destruct Hspec.
  - by destruct Hspec as (_ & ? & _).
  - by destruct Hspec as (_ & _ & ?).
  - intros ->. by apply (non_increasing_Z (metric_value "views")).
  - intros ->. by apply (non_increasing_Z (metric_value "likes")).
  - intros ->. by apply (non_increasing_Z (metric_value "comments")).
Qed.

Example get_top_videos_by_views :
  exists top,
    get_top_videos demo_stats "views" default_limit = Return top
    /\ top.*1 = ["f"; "b"; "d"; "a"; "c"].
Proof. eexists. split; reflexivity. Qed.

(** ** [get_authenticated_services] *)

(** C2 fails on the refresh path. When the stored credential is expired,
    carries a refresh token and is refreshed with success, the services are
    built from the refreshed credential, and the files are left as they
    were: the token file still holds the old text. *)
Theorem refreshed_credential_is_not_persisted :
  forall (Service : Type) (sys : System) (lib : AuthLibrary Service)
         (config : Config) (fs : gmap string string) (text : string)
         (c c' : Credentials) (youtube youtube_analytics : Service),
    fs !! sys_file sys (cfg_token_file config) = Some text ->
    from_authorized_user_info lib text (cfg_scopes config) = Return c ->
    cr_valid c = false ->
    cr_expired c = true ->
    truthy (cr_refresh_token c) = true ->
    refresh lib c = Return c' ->
    builds lib config c' youtube youtube_analytics ->
    get_authenticated_services sys lib config fs
    = (Return (youtube, youtube_analytics), fs).
Proof.
  intros Service sys lib config fs text c c' y ya Htok Hload Hvalid Hexp Hrt
         Href [Hb1 Hb2].
  unfold get_authenticated_services. run_eff. rewrite Htok. simpl.
  rewrite Hload. simpl.
  rewrite Hvalid, Hexp, Hrt. simpl. rewrite Href. simpl.
  by rewrite Hb1, Hb2.
Qed.

Lemma refreshed_credential_is_not_persisted_witness :
  get_authenticated_services demo_sys demo_auth demo_config
    {[ "token.json" := "stale" ]}
  = (Return ("youtube", "youtubeAnalytics"), {[ "token.json" := "stale" ]}).
Proof.
  apply (refreshed_credential_is_not_persisted string demo_sys demo_auth
           demo_config {[ "token.json" := "stale" ]} "stale"
           {| cr_token := "stale"; cr_refresh_token := Some "refresh";
              cr_valid := false; cr_expired := true |}
           {| cr_token := "fresh"; cr_refresh_token := Some "refresh";
              cr_valid := true; cr_expired := false |}).
  - reflexivity.
  - reflexivity.
  - reflexivity.
  - reflexivity.
  - reflexivity.
  - reflexivity.
  - split; reflexivity.
Defined.

(** On the sibling path the credential is persisted: the consent flow
    writes what it grants to the token file, and logs that it has. *)
Example consent_flow_persists_demo :
  get_authenticated_services demo_sys demo_auth demo_config
    {[ "client_secrets.json" := "secrets" ]}
  = (Return ("youtube", "youtubeAnalytics"),
     logged demo_sys [CredentialsSaved]
       (<[ "token.json" := "granted" ]>
          {[ "client_secrets.json" := "secrets" ]})).
Proof. reflexivity. Qed.

(** * Further properties *)

(** ** [parse_duration]: markers that are missing, text that is foreign *)

Lemma lstrip_keeps c l :
  In c l -> PyStr.is_space c = false -> In c (PyStr.lstrip l).
Proof.
  induction l as [|x l IH]; simpl; [done|].
  intros [->|Hin] Hc.
  - rewrite Hc. by left.
  - destruct (PyStr.is_space x); [by apply IH|by right].
Qed.

Lemma strip_keeps c l :
  In c l -> PyStr.is_space c = false -> In c (PyStr.strip l).
Proof.
  intros Hin Hc. unfold PyStr.strip.
  apply in_rev. rewrite rev_involutive.
  apply lstrip_keeps; [|done]. apply in_rev. rewrite rev_involutive.
  by apply lstrip_keeps.
Qed.

Lemma int_digits_foreign c l acc b :
  In c l -> PyStr.is_digit c = false -> Ascii.eqb c "_" = false ->
  PyStr.int_digits acc b l = None.
Proof.
  revert acc b. induction l as [|x l IH]; intros acc b Hin Hd Hu; [done|].
  simpl. destruct Hin as [->|Hin].
  - by rewrite Hd, Hu.
  - destruct (PyStr.is_digit x); [by apply IH|].
    destruct (Ascii.eqb x "_" && b); [by apply IH|done].
Qed.

Lemma int_foreign s : has_foreign_char s -> PyStr.int s = Raise ValueError.
Proof.
  intros (c & Hin & Hc). unfold int_char in Hc.
  repeat (apply orb_false_iff in Hc as [Hc ?]).
  pose proof (strip_keeps _ _ Hin ltac:(done)) as Hbody.
  unfold PyStr.int. destruct (PyStr.strip _) as [|x body]; [done|].
  assert (Htail : Ascii.eqb x "+" = true \/ Ascii.eqb x "-" = true ->
                  In c body).
  { intros Hx. destruct Hbody as [->|?]; [|done]. destruct Hx; congruence. }
  destruct (Ascii.eqb x "+") eqn:Hplus.
  { rewrite (int_digits_foreign c) by auto. done. }
  destruct (Ascii.eqb x "-") eqn:Hminus.
  { rewrite (int_digits_foreign c) by auto. done. }
  rewrite (int_digits_foreign c (x :: body)) by auto. done.
Qed.

(** X1. A duration with no hour, minute or second marker behind its
    two-character prefix parses to 0, whatever else it holds: a day-only or
    week-only duration is read as zero seconds, silently. *)
Theorem parse_duration_without_markers_is_zero :
  forall duration_iso : string,
    contains "H" (PyStr.slice_from duration_iso 2) = false ->
    contains "M" (PyStr.slice_from duration_iso 2) = false ->
    contains "S" (PyStr.slice_from duration_iso 2) = false ->
    parse_duration duration_iso = Return 0.
Proof.
  intros iso HH HM HS.
  by apply (parse_duration_fields iso None None None
              (PyStr.slice_from iso 2) 0 0 0).
Qed.

Lemma parse_duration_without_markers_is_zero_witness :
  parse_duration "P3D" = Return 0 /\ parse_duration "P2W" = Return 0.
Proof.
  split; apply parse_duration_without_markers_is_zero; reflexivity.
Defined.

(** X2. When the text between the prefix and the first hour marker holds a
    character that [int] cannot read (the [D] and [T] of a day component,
    for instance), [parse_duration] raises [ValueError]. *)
Theorem parse_duration_foreign_text_before_hour_marker :
  forall (duration_iso before rest : string),
    PyStr.slice_from duration_iso 2 = before +:+ String "H" rest ->
    contains "H" before = false ->
    has_foreign_char before ->
    parse_duration duration_iso = Raise ValueError.
Proof.
  intros iso before rest Hiso HH Hforeign. unfold parse_duration.
  rewrite Hiso, (find_marker _ _ _ HH), slice_to_marker.
  destruct (Z.eqb_spec (PyStr.len before) (-1)) as [E|_];
    [unfold PyStr.len in E; lia|].
  simpl. by rewrite (int_foreign _ Hforeign).
Qed.

Lemma parse_duration_foreign_text_before_hour_marker_witness :
  parse_duration "P1DT2H3M4S" = Raise ValueError.
Proof.
  apply (parse_duration_foreign_text_before_hour_marker
           "P1DT2H3M4S" "DT2" "3M4S").
  - reflexivity.
  - reflexivity.
  - exists "D"%char. split; [simpl; tauto|reflexivity].
Defined.

(** ** [get_annual_views]: the calls it makes, the errors it lets through *)

Lemma annual_step_raises svc channel_id year e d log :
  svc (annual_query channel_id year) = Raise e -> e <> HttpError ->
  annual_step svc channel_id year (Fetch d log)
  = (Raise e, Fetch d (log ++ [annual_query channel_id year])).
Proof.
  intros H He. unfold annual_step. run_eff. rewrite H.
  by destruct e.
Qed.

Lemma py_range_split a y b :
  a <= y < b -> py_range a b = py_range a y ++ y :: py_range (y + 1) b.
Proof.
  intros H. unfold py_range.
  replace (b - a) with ((y - a) + (1 + (b - (y + 1)))) by lia.
  rewrite seqZ_app by lia. f_equal.
  replace (a + (y - a)) with y by lia.
  rewrite seqZ_cons by lia. f_equal. f_equal; lia.
Qed.

Lemma py_range_snoc a y : a <= y -> py_range a (y + 1) = py_range a y ++ [y].
Proof.
  intros H. rewrite (py_range_split a y (y + 1)) by lia. f_equal.
  unfold py_range. by rewrite Z.sub_diag.
Qed.

(** The loop stops at the first year whose iteration raises. *)
Lemma get_annual_views_aborts svc channel_id start_year end_year y e :
  start_year <= y <= end_year ->
  (forall y', start_year <= y' < y ->
     year_fails svc channel_id y' \/ exists v, year_total svc channel_id y' v) ->
  (forall d log,
     annual_step svc channel_id y (Fetch d log)
     = (Raise e, Fetch d (log ++ [annual_query channel_id y]))) ->
  exists annual_views,
    get_annual_views svc channel_id start_year end_year
    = (Raise e,
       Fetch annual_views
         (annual_query channel_id <$> py_range start_year (y + 1)))
    /\ annual_views !! y = None.
Proof.
  intros Hy Hbefore Hstep.
  destruct (annual_loop svc channel_id (py_range start_year y) ∅ [])
    as (d & Hrun & Hout & _).
  { intros y' Hy'%elem_of_py_range. apply Hbefore. lia. }
  exists d. split.
  - rewrite get_annual_views_unfold.
    rewrite (py_range_split start_year y (end_year + 1)) by lia.
    rewrite for_each_app, Hrun, for_each_cons, Hstep.
    by rewrite py_range_snoc, fmap_app by lia.
  - rewrite Hout; [apply lookup_empty|].
    intros Hin%elem_of_py_range. lia.
Qed.

(** X3. An exception other than [HttpError] raised by the call of a year
    is not handled: [get_annual_views] raises it, returns no mapping, and
    sends no query for the later years. *)
Theorem get_annual_views_propagates_other_errors :
  forall (svc : analytics_service) (channel_id : string)
         (start_year end_year y : Z) (e : exn),
    start_year <= y <= end_year ->
    (forall y', start_year <= y' < y ->
       year_fails svc channel_id y'
       \/ exists v, year_total svc channel_id y' v) ->
    svc (annual_query channel_id y) = Raise e ->
    e <> HttpError ->
    exists annual_views,
      get_annual_views svc channel_id start_year end_year
      = (Raise e,
         Fetch annual_views
           (annual_query channel_id <$> py_range start_year (y + 1)))
      /\ annual_views !! y = None.
Proof.
  intros svc channel_id start_year end_year y e Hy Hbefore Hcall He.
  apply get_annual_views_aborts; [done|done|].
  intros d log. by apply annual_step_raises.
Qed.

Lemma get_annual_views_propagates_other_errors_witness :
  exists annual_views,
    get_annual_views demo_analytics_outage "UC" 2020 2023
    = (Raise OtherError,
       Fetch annual_views (annual_query "UC" <$> [2020; 2021]))
    /\ annual_views !! 2021 = None.
Proof.
  apply (get_annual_views_propagates_other_errors
           demo_analytics_outage "UC" 2020 2023 2021 OtherError).
  - lia.
  - intros y' Hy'. assert (y' = 2020) as -> by lia.
    right. exists 7. left. by exists [], [].
  - reflexivity.
  - discriminate.
Defined.

(** X4. When the call of every year of the range fails or carries a total,
    [get_annual_views] sends exactly one query per year, in increasing
    order of the years, each for the whole of its year; an empty range
    sends none and yields the empty mapping. *)
Theorem get_annual_views_one_query_per_year :
  forall (svc : analytics_service) (channel_id : string)
         (start_year end_year : Z),
    (forall y, start_year <= y <= end_year ->
       year_fails svc channel_id y \/ exists v, year_total svc channel_id y v) ->
    calls (get_annual_views svc channel_id start_year end_year).2
    = annual_query channel_id <$> py_range start_year (end_year + 1)
    /\ length (calls (get_annual_views svc channel_id start_year end_year).2)
       = Z.to_nat (end_year + 1 - start_year)
    /\ (end_year < start_year ->
        get_annual_views svc channel_id start_year end_year
        = (Return ∅, Fetch ∅ [])).
Proof.
  intros svc channel_id start_year end_year Hall.
  destruct (get_annual_views_run _ _ _ _ Hall) as (d & Hrun & Hdom & _).
  split; [by rewrite Hrun|]. split.
  - rewrite Hrun. simpl. rewrite length_fmap. unfold py_range.
    apply length_seqZ.
  - intros Hlt. rewrite get_annual_views_unfold. unfold py_range.
    replace (seqZ start_year (end_year + 1 - start_year)) with (@nil Z); [done|].
    unfold seqZ. by replace (Z.to_nat (end_year + 1 - start_year)) with 0%nat by lia.
Qed.

Lemma get_annual_views_one_query_per_year_witness :
  calls (get_annual_views demo_analytics "UC" 2020 2022).2
  = annual_query "UC" <$> [2020; 2021; 2022].
Proof.
  apply (get_annual_views_one_query_per_year demo_analytics "UC" 2020 2022).
  apply demo_analytics_2020_2022.
Defined.

(** ** [get_videos_by_year]: requests, errors, pages without end *)

Lemma playlist_loop_delivers svc pl tok ps tok' :
  delivers svc pl tok ps tok' ->
  forall fuel d log,
    playlist_loop (length ps + fuel) svc pl tok (Fetch d log)
    = playlist_loop fuel svc pl tok'
        (Fetch (place_all (concat (page_items <$> ps)) d)
               (log ++ (playlist_request pl
                          <$> take (length ps) (tok :: (pp_nextPageToken <$> ps))))).
Proof.
  induction 1 as [tok|tok page ps tok' Hcall Hnext _ IH]; intros fuel d log.
  - simpl. by rewrite app_nil_r.
  - simpl. unfold mbind at 1, eff_bind at 1, execute at 1. simpl.
    rewrite Hcall. unfold mbind at 1, eff_bind at 1.
    rewrite for_each_place. rewrite Hnext. simpl.
    rewrite IH, place_all_app, <- app_assoc. done.
Qed.

Lemma delivers_tokens svc pl tok ps tok' :
  delivers svc pl tok ps tok' ->
  take (length ps) (tok :: (pp_nextPageToken <$> ps)) ++ [tok']
  = tok :: (pp_nextPageToken <$> ps).
Proof.
  induction 1 as [tok|tok page ps tok' _ _ _ IH]; [done|].
  simpl. f_equal. exact IH.
Qed.

(** The listing up to the call that ends it, whatever that call does. *)
Lemma get_videos_by_year_last_call svc pl ps tok' fuel :
  delivers svc pl None ps tok' ->
  playlist_loop (length ps + S fuel) svc pl None (Fetch ∅ [])
  = (match svc (playlist_request pl tok') with
     | Return page =>
         let d := place_all (page_items page)
                    (place_all (concat (page_items <$> ps)) ∅) in
         let log := playlist_request pl <$> request_tokens ps in
         if negb (truthy (pp_nextPageToken page))
         then (Return (Some tt), Fetch d log)
         else playlist_loop fuel svc pl (pp_nextPageToken page) (Fetch d log)
     | Raise e =>
         (Raise e,
          Fetch (place_all (concat (page_items <$> ps)) ∅)
                (playlist_request pl <$> request_tokens ps))
     end).
Proof.
  intros Hd. rewrite (playlist_loop_delivers _ _ _ _ _ Hd).
  assert (Hlog :
    (playlist_request pl <$> take (length ps) (None :: (pp_nextPageToken <$> ps)))
      ++ [playlist_request pl tok']
    = playlist_request pl <$> request_tokens ps).
  { unfold request_tokens.
    transitivity (playlist_request pl
                    <$> (take (length ps) (None :: (pp_nextPageToken <$> ps))
                         ++ [tok'])).
    - by rewrite fmap_app.
    - by rewrite (delivers_tokens _ _ _ _ _ Hd). }
  simpl app. rewrite <- Hlog.
  change (playlist_loop (S fuel) svc pl tok')
    with (playlist_response ← execute svc (playlist_request pl tok');
          _ ← for_each (default [] (pp_items playlist_response))
                (fun item => update_store (place_item item));
          if negb (truthy (pp_nextPageToken playlist_response))
          then mret (Some tt)
          else playlist_loop fuel svc pl (pp_nextPageToken playlist_response)).
  unfold mbind at 1, eff_bind at 1, execute at 1. cbn [store calls].
  destruct (svc (playlist_request pl tok')) as [page|e]; [|done].
  unfold mbind at 1, eff_bind at 1. rewrite for_each_place.
  by destruct (truthy (pp_nextPageToken page)).
Qed.

(** X5. An exception other than [HttpError] raised by a page call is not
    handled: [get_videos_by_year] raises it and the videos of the pages
    already fetched are not returned. *)
Theorem get_videos_by_year_propagates_other_errors :
  forall (svc : playlist_service) (uploads_playlist_id : string)
         (ps : list PlaylistPage) (tok : option string) (e : exn)
         (fuel : nat),
    delivers svc uploads_playlist_id None ps tok ->
    svc (playlist_request uploads_playlist_id tok) = Raise e ->
    e <> HttpError ->
    (length ps < fuel)%nat ->
    get_videos_by_year fuel svc uploads_playlist_id
    = (Raise e,
       Fetch (place_all (concat (page_items <$> ps)) ∅)
             (playlist_request uploads_playlist_id <$> request_tokens ps)).
Proof.
  intros svc pl ps tok e fuel Hd Hcall He Hfuel.
  replace fuel with (length ps + S (fuel - S (length ps)))%nat by lia.
  unfold get_videos_by_year, try_eff. unfold mbind at 1, eff_bind at 1.
  rewrite (get_videos_by_year_last_call _ _ _ _ _ Hd), Hcall.
  by destruct e.
Qed.

Lemma get_videos_by_year_propagates_other_errors_witness :
  (get_videos_by_year 5 demo_playlist_outage "UU").1 = Raise OtherError.
Proof.
  rewrite (get_videos_by_year_propagates_other_errors
             demo_playlist_outage "UU" [demo_page1] (Some "p2") OtherError 5).
  - reflexivity.
  - apply (delivers_cons _ _ None demo_page1); [done|done|]. constructor.
  - reflexivity.
  - discriminate.
  - simpl. lia.
Defined.

(** X6. The requests of a listing chain the tokens: the first carries no
    page token, each later one the token named by the page before it, and
    each asks for 50 results of the same playlist. This holds when the
    listing ends with a page without token, whose items are kept, and when
    it ends with a failed call. *)
Theorem get_videos_by_year_requests_chain_tokens :
  forall (svc : playlist_service) (uploads_playlist_id : string)
         (ps : list PlaylistPage) (tok : option string) (fuel : nat),
    delivers svc uploads_playlist_id None ps tok ->
    (length ps < fuel)%nat ->
    (svc (playlist_request uploads_playlist_id tok) = Raise HttpError ->
     get_videos_by_year fuel svc uploads_playlist_id
     = (Return (Some (place_all (concat (page_items <$> ps)) ∅)),
        Fetch (place_all (concat (page_items <$> ps)) ∅)
              (playlist_request uploads_playlist_id <$> request_tokens ps)))
    /\ (forall last,
          svc (playlist_request uploads_playlist_id tok) = Return last ->
          truthy (pp_nextPageToken last) = false ->
          get_videos_by_year fuel svc uploads_playlist_id
          = (Return (Some (place_all (concat (page_items <$> ps ++ [last])) ∅)),
             Fetch (place_all (concat (page_items <$> ps ++ [last])) ∅)
                   (playlist_request uploads_playlist_id <$> request_tokens ps))).
Proof.
  intros svc pl ps tok fuel Hd Hfuel.
  replace fuel with (length ps + S (fuel - S (length ps)))%nat by lia.
  split.
  - intros Hcall.
    unfold get_videos_by_year, try_eff. unfold mbind at 1, eff_bind at 1.
    by rewrite (get_videos_by_year_last_call _ _ _ _ _ Hd), Hcall.
  - intros last Hcall Hlast.
    unfold get_videos_by_year, try_eff. unfold mbind at 1, eff_bind at 1.
    rewrite (get_videos_by_year_last_call _ _ _ _ _ Hd), Hcall. simpl.
    rewrite Hlast. simpl.
    rewrite fmap_app, concat_app, place_all_app. simpl.
    by rewrite app_nil_r.
Qed.

Lemma get_videos_by_year_requests_chain_tokens_witness :
  calls (get_videos_by_year 3 demo_playlist "UU").2
  = playlist_request "UU" <$> [None; Some "p2"; Some "p3"].
Proof.
  rewrite (proj1 (get_videos_by_year_requests_chain_tokens
                    demo_playlist "UU" [demo_page1; demo_page2] (Some "p3") 3
                    ltac:(repeat (econstructor; try reflexivity))
                    ltac:(simpl; lia))).
  - reflexivity.
  - reflexivity.
Defined.

Lemma playlist_loop_endless svc pl :
  (forall tok, exists page,
      svc (playlist_request pl tok) = Return page
      /\ truthy (pp_nextPageToken page) = true) ->
  forall fuel tok d log,
  exists d' reqs,
    playlist_loop fuel svc pl tok (Fetch d log)
    = (Return None, Fetch d' (log ++ reqs))
    /\ length reqs = fuel.
Proof.
  intros Hall. induction fuel as [|fuel IH]; intros tok d log.
  - exists d, []. by rewrite app_nil_r.
  - destruct (Hall tok) as (page & Hcall & Hnext).
    destruct (IH (pp_nextPageToken page) (place_all (page_items page) d)
                (log ++ [playlist_request pl tok])) as (d' & reqs & Hrun & Hlen).
    exists d', (playlist_request pl tok :: reqs). split; [|simpl; lia].
    simpl. unfold mbind at 1, eff_bind at 1, execute at 1. simpl.
    rewrite Hcall. unfold mbind at 1, eff_bind at 1.
    rewrite for_each_place, Hnext. simpl. unfold page_items in Hrun.
    rewrite Hrun, <- app_assoc. done.
Qed.

(** X7. The loop has no bound of its own: against a platform whose pages
    always name a next page, [get_videos_by_year] is still asking after any
    number of requests. *)
Theorem get_videos_by_year_runs_while_pages_name_a_next :
  forall (svc : playlist_service) (uploads_playlist_id : string),
    (forall tok, exists page,
        svc (playlist_request uploads_playlist_id tok) = Return page
        /\ truthy (pp_nextPageToken page) = true) ->
    forall fuel,
      (get_videos_by_year fuel svc uploads_playlist_id).1 = Return None
      /\ length (calls (get_videos_by_year fuel svc uploads_playlist_id).2)
         = fuel.
Proof.
  intros svc pl Hall fuel.
  destruct (playlist_loop_endless svc pl Hall fuel None ∅ [])
    as (d & reqs & Hrun & Hlen).
  assert (E : get_videos_by_year fuel svc pl = (Return None, Fetch d reqs)).
  { unfold get_videos_by_year, try_eff. unfold mbind at 1, eff_bind at 1.
    by rewrite Hrun. }
  by rewrite E.
Qed.

Lemma get_videos_by_year_runs_while_pages_name_a_next_witness :
  (get_videos_by_year 40 demo_endless_playlist "UU").1 = Return None
  /\ length (calls (get_videos_by_year 40 demo_endless_playlist "UU").2)
     = 40%nat.
Proof.
  apply (get_videos_by_year_runs_while_pages_name_a_next
           demo_endless_playlist "UU").
  intros tok. eexists. split; reflexivity.
Defined.

Lemma concat_Permutation {A} (ls ls' : list (list A)) :
  ls ≡ₚ ls' -> concat ls ≡ₚ concat ls'.
Proof.
  induction 1 as [|l ls ls' _ IH|l1 l2 ls|ls1 ls2 ls3 _ IH1 _ IH2]; simpl.
  - done.
  - by rewrite IH.
  - rewrite !app_assoc. f_equiv. apply Permutation_app_comm.
  - by rewrite IH1.
Qed.

Lemma place_item_insert item d :
  place_item item d
  = <[first_four (pi_publishedAt item)
      := default [] (d !! first_four (pi_publishedAt item))
         ++ [pi_videoId item]]> d.
Proof.
  apply map_eq. intros y. rewrite place_item_lookup, lookup_insert.
  destruct (decide (y = first_four (pi_publishedAt item))) as [->|Hne].
  - by rewrite decide_True.
  - by rewrite decide_False.
Qed.

Lemma all_videos_place_item item d :
  all_videos (place_item item d) ≡ₚ pi_videoId item :: all_videos d.
Proof.
  rewrite place_item_insert. unfold all_videos.
  set (y := first_four (pi_publishedAt item)).
  destruct (d !! y) as [l|] eqn:Hy; simpl.
  - rewrite <- insert_delete_eq.
    rewrite map_to_list_insert by apply lookup_delete_eq.
    rewrite <- (map_to_list_delete d y l Hy). simpl.
    rewrite <- app_assoc. simpl.
    by rewrite <- Permutation_middle.
  - by rewrite map_to_list_insert.
Qed.

Lemma all_videos_place_all items d :
  all_videos (place_all items d) ≡ₚ all_videos d ++ (pi_videoId <$> items).
Proof.
  revert d. induction items as [|item items IH]; intros d.
  - by rewrite app_nil_r.
  - change (place_all (item :: items) d)
      with (place_all items (place_item item d)).
    rewrite IH, all_videos_place_item. simpl.
    by rewrite <- Permutation_middle.
Qed.

(** X8. No video is lost or repeated by the bucketing: the identifiers held
    by the mapping, all years together, are the identifiers of the items of
    the pages fetched, each as many times as it was listed. *)
Theorem get_videos_by_year_keeps_every_video :
  forall (svc : playlist_service) (uploads_playlist_id : string)
         (pages : list (list PlaylistItem)) (e : ending) (fuel : nat),
    serves svc uploads_playlist_id None pages e ->
    (length pages < fuel)%nat ->
    exists videos_by_year,
      (get_videos_by_year fuel svc uploads_playlist_id).1
      = Return (Some videos_by_year)
      /\ all_videos videos_by_year ≡ₚ pi_videoId <$> concat pages.
Proof.
  intros svc pl pages e fuel Hs Hfuel.
  destruct (get_videos_by_year_serves _ _ _ _ _ Hs Hfuel) as (reqs & _ & Hrun).
  exists (place_all (concat pages) ∅). rewrite Hrun. split; [done|].
  rewrite all_videos_place_all. unfold all_videos.
  by rewrite map_to_list_empty.
Qed.

Lemma get_videos_by_year_keeps_every_video_witness :
  exists videos_by_year,
    (get_videos_by_year 3 demo_playlist "UU").1 = Return (Some videos_by_year)
    /\ all_videos videos_by_year ≡ₚ ["v1"; "v2"; "v3"].
Proof.
  apply (get_videos_by_year_keeps_every_video demo_playlist "UU" _ _ 3
           demo_playlist_serves).
  simpl. lia.
Defined.

(** ** [get_video_stats]: number of calls, unreadable items, entries *)

Lemma chunks_length {A} n (l : list A) :
  (0 < n)%nat -> length (chunks n l) = ((length l + n - 1) / n)%nat.
Proof.
  intros Hn. rewrite <- chunks_slices by done.
  unfold py_range_step. rewrite !length_fmap, length_seq.
  by rewrite Nat.sub_0_r.
Qed.

(** X9. When the platform answers every batch, [get_video_stats] sends one
    call for every 50 identifiers, the last call taking what remains:
    (n + 49) / 50 calls for n identifiers, none for an empty list. *)
Theorem get_video_stats_number_of_calls :
  forall (svc : videos_service) (video_ids : list string),
    (forall c, c ∈ chunks 50 video_ids -> answered svc c) ->
    length (calls (get_video_stats svc video_ids).2)
    = ((length video_ids + 49) / 50)%nat.
Proof.
  intros svc video_ids Hall.
  destruct (get_video_stats_run svc video_ids Hall) as (stats & Hrun & _).
  rewrite Hrun. cbn [snd calls]. rewrite length_fmap, chunks_length by lia.
  by replace (length video_ids + 50 - 1)%nat
    with (length video_ids + 49)%nat by lia.
Qed.

Lemma get_video_stats_number_of_calls_witness :
  length (calls (get_video_stats demo_videos demo_ids).2) = 2%nat.
Proof.
  apply (get_video_stats_number_of_calls demo_videos demo_ids
           demo_videos_answered).
Defined.

Lemma int_or_zero_raises_only_ValueError field :
  (exists z, int_or_zero field = Return z)
  \/ int_or_zero field = Raise ValueError.
Proof.
  destruct field as [s|]; simpl; [apply int_raises_only_ValueError|eauto].
Qed.

Lemma video_record_raises_only_ValueError item :
  readable item \/ video_record item = Raise ValueError.
Proof.
  unfold readable, video_record, mbind, result_bind.
  destruct (parse_duration_raises_only_ValueError
              (default "PT0S"
                 (cd_duration (default {| cd_duration := None |}
                                       (v_contentDetails item)))))
    as [[? ->]| ->]; [|by right].
  repeat match goal with
         | |- context [int_or_zero ?f] =>
             destruct (int_or_zero_raises_only_ValueError f) as [[? ->]| ->]
         end; eauto.
Qed.

Lemma stats_items_unreadable good bad rest st (log : list VideosRequest) :
  Forall readable good -> ~ readable bad ->
  exists st',
    for_each (good ++ bad :: rest) stats_item (Fetch st log)
    = (Raise ValueError, Fetch st' log).
Proof.
  intros Hgood Hbad.
  destruct (stats_items_run good st log Hgood) as (st' & Hrun & _).
  exists st'. rewrite for_each_app, Hrun, for_each_cons.
  destruct (video_record_raises_only_ValueError bad) as [?|Hrec]; [done|].
  unfold stats_item, mbind, eff_bind, lift. by rewrite Hrec.
Qed.

(** X10. A returned item that cannot be read (its duration or one of its
    counts does not convert) ends the whole fetch: [get_video_stats] raises
    [ValueError], the records gathered so far are not returned, and the
    batches that follow are not asked for. *)
Theorem get_video_stats_unreadable_item_aborts :
  forall (svc : videos_service) (video_ids : list string)
         (before : list (list string)) (c : list string)
         (after : list (list string)) (good : list Video) (bad : Video)
         (rest : list Video),
    chunks 50 video_ids = before ++ c :: after ->
    (forall c', c' ∈ before -> answered svc c') ->
    batch_returns svc c (good ++ bad :: rest) ->
    Forall readable good ->
    ~ readable bad ->
    (get_video_stats svc video_ids).1 = Raise ValueError
    /\ calls (get_video_stats svc video_ids).2
       = videos_request <$> before ++ [c].
Proof.
  intros svc video_ids before c after good bad rest Hchunks Hbefore
         (response & Hcall & Hitems) Hgood Hbad.
  destruct (stats_loop svc before [] [] Hbefore) as (st & Hrun & _).
  destruct (stats_items_unreadable good bad rest st
              (videos_request <$> before ++ [c]) Hgood Hbad) as (st' & Hbadrun).
  assert (E : get_video_stats svc video_ids
              = (Raise ValueError, Fetch st' (videos_request <$> before ++ [c]))).
  { unfold get_video_stats. unfold mbind at 1, eff_bind at 1.
    rewrite (for_each_fmap (fun i => list_slice video_ids i (i + 50))).
    rewrite chunks_slices by lia. rewrite Hchunks.
    unfold PyDict.t in *. rewrite for_each_app, Hrun, for_each_cons.
    unfold stats_batch, try_eff. unfold mbind at 1, eff_bind at 1, execute.
    rewrite Hcall. simpl. rewrite <- Hitems.
    rewrite fmap_app in Hbadrun. simpl in Hbadrun.
    unfold PyDict.t in *. by rewrite Hbadrun, fmap_app. }
  by rewrite E.
Qed.

Lemma get_video_stats_unreadable_item_aborts_witness :
  (get_video_stats demo_videos_long demo_ids).1 = Raise ValueError
  /\ length (calls (get_video_stats demo_videos_long demo_ids).2) = 2%nat.
Proof.
  destruct (get_video_stats_unreadable_item_aborts
              demo_videos_long demo_ids [take 50 demo_ids] (drop 50 demo_ids) []
              [demo_video "50"] demo_long_video [demo_video "52"])
    as [Hraise Hcalls].
  - reflexivity.
  - intros c' ->%list_elem_of_singleton. by left.
  - by eexists.
  - repeat constructor. by eexists.
  - intros [record Hrec]. discriminate.
  - split; [done|]. by rewrite Hcalls.
Defined.

Lemma dict_get_set_eq {V} k (v : V) d : dict_get k (PyDict.set k v d) = Some v.
Proof.
  induction d as [|[k0 v0] d IH]; simpl.
  - by rewrite String.eqb_refl.
  - destruct (String.eqb_spec k k0) as [->|Hne]; simpl.
    + by rewrite String.eqb_refl.
    + by destruct (String.eqb_spec k k0).
Qed.

Lemma dict_get_set_ne {V} k k' (v : V) d :
  k <> k' -> dict_get k' (PyDict.set k v d) = dict_get k' d.
Proof.
  intros Hne. induction d as [|[k0 v0] d IH]; simpl.
  - by destruct (String.eqb_spec k' k) as [->|_].
  - destruct (String.eqb_spec k k0) as [->|Hne0]; simpl.
    + destruct (String.eqb_spec k' k0) as [->|_]; [done|].
      by destruct (String.eqb_spec k' k0).
    + by rewrite IH.
Qed.

Lemma latest_cons k item items :
  latest k (item :: items)
  = if decide (v_id item = k)
    then match latest k items with Some y => Some y | None => Some item end
    else latest k items.
Proof.
  unfold latest. rewrite filter_cons. case_decide; [|done].
  by rewrite last_cons.
Qed.

Lemma latest_app k l1 l2 :
  latest k (l1 ++ l2)
  = match latest k l2 with Some y => Some y | None => latest k l1 end.
Proof. unfold latest. by rewrite filter_app, last_app. Qed.

Section VideoStatsEntries.
Context (svc : videos_service).

Lemma stats_items_lookup items st (log : list VideosRequest) :
  Forall readable items ->
  exists st',
    for_each items stats_item (Fetch st log) = (Return tt, Fetch st' log)
    /\ forall k, dict_get k st'
                 = match latest k items with
                   | Some item => record_of item
                   | None => dict_get k st
                   end.
Proof.
  revert st. induction items as [|item items IH]; intros st Hall.
  - exists st. by split.
  - apply Forall_cons in Hall as [[record Hrec] Hall].
    destruct (IH (PyDict.set (v_id item) record st) Hall) as (st' & Hrun & Hget).
    exists st'. split.
    + rewrite for_each_cons. unfold stats_item at 1.
      unfold mbind, eff_bind, lift, update_store, modify. rewrite Hrec.
      simpl. exact Hrun.
    + intros k. rewrite Hget, latest_cons.
      destruct (latest k items) as [y|]; [by case_decide|].
      case_decide as Hk.
      * subst k. rewrite dict_get_set_eq. unfold record_of. by rewrite Hrec.
      * by apply dict_get_set_ne.
Qed.

Lemma successful_items_cons c cs :
  successful_items svc (c :: cs)
  = successful_items svc [c] ++ successful_items svc cs.
Proof. unfold successful_items. simpl. by rewrite app_nil_r. Qed.

Lemma stats_loop_lookup cs st log :
  (forall c, c ∈ cs -> answered svc c) ->
  exists st',
    for_each cs (stats_batch svc) (Fetch st log)
    = (Return tt, Fetch st' (log ++ (videos_request <$> cs)))
    /\ forall k, dict_get k st'
                 = match latest k (successful_items svc cs) with
                   | Some item => record_of item
                   | None => dict_get k st
                   end.
Proof.
  revert st log. induction cs as [|c cs IH]; intros st log Hall.
  - exists st. rewrite app_nil_r. by split.
  - assert (Hc : exists st1,
      stats_batch svc c (Fetch st log)
      = (Return tt, Fetch st1 (log ++ [videos_request c]))
      /\ forall k, dict_get k st1
                   = match latest k (successful_items svc [c]) with
                     | Some item => record_of item
                     | None => dict_get k st
                     end).
    { unfold successful_items. simpl. rewrite app_nil_r.
      destruct (Hall c) as [Hf|(items & (response & Hcall & ->) & Hitems)];
        [by left|..].
      - exists st. split; [by apply stats_batch_fails|].
        unfold batch_fails in Hf. by rewrite Hf.
      - destruct (stats_items_lookup (default [] (vl_items response)) st
                    (log ++ [videos_request c])) as (st1 & Hrun & Hget).
        { eapply Forall_impl; [exact Hitems|]. by intros ? [? _]. }
        exists st1. rewrite Hcall. split; [|done].
        unfold stats_batch, try_eff. unfold mbind at 1, eff_bind at 1, execute.
        simpl. by rewrite Hcall, Hrun. }
    destruct Hc as (st1 & Hstep & Hget1).
    destruct (IH st1 (log ++ [videos_request c])) as (st' & Hrun & Hget).
    { intros c' Hc'. apply Hall. by right. }
    exists st'. split.
    + by rewrite for_each_cons, Hstep, Hrun, fmap_cons, <- app_assoc.
    + intros k. rewrite Hget, Hget1, (successful_items_cons c cs), latest_app.
      by destruct (latest k (successful_items svc cs)).
Qed.
End VideoStatsEntries.

(** X11. When the platform answers every batch, the entry stored for an
    identifier is the record built from the last item that came back with
    it: a video returned twice keeps its later record, and an identifier
    that never came back has no entry. *)
Theorem get_video_stats_keeps_the_last_record :
  forall (svc : videos_service) (video_ids : list string),
    (forall c, c ∈ chunks 50 video_ids -> answered svc c) ->
    exists stats,
      (get_video_stats svc video_ids).1 = Return stats
      /\ forall k,
           dict_get k stats
           = latest k (successful_items svc (chunks 50 video_ids))
             ≫= record_of.
Proof.
  intros svc video_ids Hall.
  destruct (stats_loop_lookup svc (chunks 50 video_ids) [] [] Hall)
    as (stats & Hrun & Hget).
  exists stats. split.
  - unfold get_video_stats, mbind, eff_bind.
    rewrite (for_each_fmap (fun i => list_slice video_ids i (i + 50))).
    rewrite chunks_slices by lia. unfold PyDict.t in *. by rewrite Hrun.
  - intros k. rewrite Hget.
    by destruct (latest k (successful_items svc (chunks 50 video_ids))).
Qed.

Lemma get_video_stats_keeps_the_last_record_witness :
  exists stats,
    (get_video_stats demo_videos_twice ["50"]).1 = Return stats
    /\ title <$> dict_get "50" stats = Some "second"
    /\ dict_get "7" stats = None.
Proof.
  destruct (get_video_stats_keeps_the_last_record demo_videos_twice ["50"])
    as (stats & Hrun & Hget).
  - intros c ->%list_elem_of_singleton. right. eexists. split; [by eexists|].
    repeat constructor; try (by eexists).
  - exists stats. split; [done|]. by rewrite !Hget.
Defined.

(** ** [get_top_videos]: other limits, unknown metrics, what the top is *)

Lemma get_top_videos_sorted stats metric limit :
  exists s,
    stable_descending_sort (metric_value metric) (PyDict.items stats) s
    /\ get_top_videos stats metric limit = Return (list_slice_to s limit).
Proof.
  destruct (sorted_reverse_spec (metric_value metric)
              (metric_value_uniform metric) (PyDict.items stats))
    as (s & Hrun & Hspec).
  exists s. split; [done|].
  rewrite get_top_videos_key. unfold mbind, result_bind.
  by rewrite Hrun.
Qed.

Lemma list_slice_to_negative {A} (l : list A) (j : Z) :
  j < 0 -> list_slice_to l j = take (length l - Z.to_nat (- j)) l.
Proof.
  intros Hj. unfold list_slice_to. destruct (Z.ltb_spec j 0); [|lia].
  f_equal. lia.
Qed.

(** X12. For every limit, [get_top_videos] returns a slice of the stable
    descending sort of the entries: its first [limit] entries when the
    limit is not negative (all of them when there are fewer, none for 0),
    and all but its last [-limit] entries when the limit is negative. The
    entries returned are entries of the mapping, none of them twice. *)
Theorem get_top_videos_any_limit :
  forall (stats : PyDict.t VideoRecord) (metric : string) (limit : Z),
  exists top sorted_videos,
    get_top_videos stats metric limit = Return top
    /\ stable_descending_sort (metric_value metric) (PyDict.items stats)
         sorted_videos
    /\ (0 <= limit ->
        top = take (Z.to_nat limit) sorted_videos
        /\ length top = Nat.min (Z.to_nat limit) (length stats))
    /\ (limit < 0 ->
        top = take (length stats - Z.to_nat (- limit)) sorted_videos)
    /\ top ⊆+ PyDict.items stats.
Proof.
  intros stats metric limit.
  destruct (get_top_videos_sorted stats metric limit) as (s & Hspec & Hrun).
  pose proof Hspec as (Hperm & _).
  assert (Hlen : length s = length stats) by (by rewrite Hperm).
  exists (list_slice_to s limit), s. split; [done|]. split; [done|].
  split; [|split].
  - intros Hlimit.
    assert (E : list_slice_to s limit = take (Z.to_nat limit) s).
    { rewrite <- (Z2Nat.id limit) at 1 by done. apply list_slice_to_take. }
    rewrite E. split; [done|]. by rewrite length_take, Hlen.
  - intros Hlimit. by rewrite list_slice_to_negative, Hlen.
  - rewrite <- Hperm. unfold list_slice_to.
    apply sublist_submseteq, sublist_take.
Qed.

Lemma with_value_all {A} (value : A -> pyval) v (l : list A) :
  (forall x, x ∈ l -> value x = v) -> with_value value v l = l.
Proof.
  induction l as [|x l IH]; intros H; [done|].
  unfold with_value in *. rewrite filter_cons, decide_True by (apply H; by left).
  f_equal. apply IH. intros y Hy. apply H. by right.
Qed.

Lemma stable_descending_sort_constant {A} (value : A -> pyval) v (l s : list A) :
  (forall x, value x = v) -> stable_descending_sort value l s -> s = l.
Proof.
  intros Hv (_ & _ & Hstable). specialize (Hstable v).
  by rewrite !with_value_all in Hstable by auto.
Qed.

Lemma metric_value_unknown metric x :
  metric ∉ record_fields -> metric_value metric x = VInt 0.
Proof.
  intros Hm. rewrite <- metric_value_record_get. unfold record_get.
  repeat match goal with
         | |- context [String.eqb metric ?f] =>
             destruct (String.eqb_spec metric f) as [->|_];
               [exfalso; apply Hm; unfold record_fields;
                repeat (first [by left|right])|]
         end.
  done.
Qed.

(** X13. A metric that is not a key of the records ranks nothing: every
    record counts as 0 and [get_top_videos] returns the first entries of
    the mapping in its own order, the first 5 with the default limit. *)
Theorem get_top_videos_unknown_metric :
  forall (stats : PyDict.t VideoRecord) (metric : string) (limit : Z),
    metric ∉ record_fields ->
    get_top_videos stats metric limit
    = Return (list_slice_to (PyDict.items stats) limit)
    /\ get_top_videos stats metric default_limit
       = Return (take 5 (PyDict.items stats)).
Proof.
  intros stats metric limit Hm.
  assert (H : forall j, get_top_videos stats metric j
                        = Return (list_slice_to (PyDict.items stats) j)).
  { intros j. destruct (get_top_videos_sorted stats metric j)
      as (s & Hspec & Hrun).
    rewrite Hrun. f_equal. f_equal.
    apply (stable_descending_sort_constant (metric_value metric) (VInt 0));
      [|done].
    intros x. by apply metric_value_unknown. }
  split; [apply H|]. rewrite H. f_equal.
  apply (list_slice_to_take (PyDict.items stats) 5).
Qed.

Lemma get_top_videos_unknown_metric_witness :
  (fun top => top.*1) <$>
    (match get_top_videos demo_stats "veiws" default_limit with
     | Return top => Some top
     | Raise _ => None
     end)
  = Some ["a"; "b"; "c"; "d"; "e"].
Proof.
  rewrite (proj2 (get_top_videos_unknown_metric demo_stats "veiws" 5
                    ltac:(by apply (bool_decide_unpack _)))).
  reflexivity.
Defined.

(** X14. What [get_top_videos] returns is a top: with a limit that is not
    negative, no entry left out has a greater value for the metric than an
    entry returned; for the metric "views", no greater number of views. *)
Theorem get_top_videos_leaves_out_no_greater :
  forall (stats : PyDict.t VideoRecord) (metric : string) (limit : Z),
    0 <= limit ->
    exists top,
      get_top_videos stats metric limit = Return top
      /\ (forall x y, x ∈ top -> y ∈ PyDict.items stats -> y ∉ top ->
            val_le (metric_value metric y) (metric_value metric x))
      /\ (metric = "views" ->
          forall x y, x ∈ top -> y ∈ PyDict.items stats -> y ∉ top ->
            views y.2 <= views x.2).
Proof.
  intros stats metric limit Hlimit.
  destruct (get_top_videos_sorted stats metric limit)
    as (s & (Hperm & Hsorted & _) & Hrun).
  exists (take (Z.to_nat limit) s).
  assert (Htop : forall x y, x ∈ take (Z.to_nat limit) s ->
                   y ∈ PyDict.items stats -> y ∉ take (Z.to_nat limit) s ->
                   val_le (metric_value metric y) (metric_value metric x)).
  { intros x y Hx Hy Hny. rewrite <- Hperm in Hy.
    rewrite <- (take_drop (Z.to_nat limit) s) in Hy, Hsorted.
    apply elem_of_app in Hy as [Hy|Hy]; [done|].
    unfold non_increasing in Hsorted.
    by apply (StronglySorted_app_1_elem_of _ _ _ x y) in Hsorted. }
  split; [|split; [done|]].
  - rewrite Hrun. f_equal.
    rewrite <- (Z2Nat.id limit) at 1 by done. apply list_slice_to_take.
  - intros -> x y Hx Hy Hny. specialize (Htop x y Hx Hy Hny).
    rewrite <- !metric_value_record_get in Htop.
    unfold val_le in Htop. simpl in Htop.
    injection Htop as Htop. by apply Z.ltb_ge in Htop.
Qed.

Lemma get_top_videos_leaves_out_no_greater_witness :
  exists top,
    get_top_videos demo_stats "views" 2 = Return top
    /\ top.*1 = ["f"; "b"].
Proof.
  destruct (get_top_videos_leaves_out_no_greater demo_stats "views" 2)
    as (top & Hrun & _); [lia|].
  exists top. split; [done|].
  assert (E : Return top = get_top_videos demo_stats "views" 2) by done.
  vm_compute in E. by injection E as ->.
Defined.

(** ** Files and the log *)

Lemma log_append_lookup_ne sys record fs file :
  file <> sys_file sys LOG_FILE -> log_append sys record fs !! file = fs !! file.
Proof. intros Hne. unfold log_append. by rewrite lookup_insert_ne. Qed.

Lemma logged_lookup_ne sys records fs file :
  file <> sys_file sys LOG_FILE -> logged sys records fs !! file = fs !! file.
Proof.
  intros Hne. revert fs. unfold logged.
  induction records as [|record records IH]; intros fs; simpl; [done|].
  by rewrite IH, log_append_lookup_ne.
Qed.

Lemma logged_app sys records1 records2 fs :
  logged sys (records1 ++ records2) fs
  = logged sys records2 (logged sys records1 fs).
Proof. unfold logged. by rewrite foldl_app. Qed.

(** ** [get_authenticated_services]: the other paths *)

Section AuthPaths.
Context {Service : Type} (sys : System) (lib : AuthLibrary Service)
        (config : Config).

(** The function from the consent flow on, reached with no credential. *)
Lemma consent_phase fs records :
  no_credential sys lib config fs records ->
  get_authenticated_services sys lib config fs
  = let fs0 := logged sys records fs in
    match fs0 !! sys_file sys (cfg_client_secrets_file config) with
    | None =>
        (Raise FileNotFoundError,
         logged sys [SecretsNotFound (cfg_client_secrets_file config);
                     AuthenticationFailed FileNotFoundError] fs0)
    | Some secrets =>
        match run_local_server lib secrets (cfg_scopes config) with
        | Raise e => (Raise e, logged sys [AuthenticationFailed e] fs0)
        | Return c =>
            match sys_open_error sys (cfg_token_file config) with
            | Some e => (Raise e, logged sys [AuthenticationFailed e] fs0)
            | None =>
                let fs1 :=
                  logged sys [CredentialsSaved]
                    (<[sys_file sys (cfg_token_file config) := to_json lib c]>
                       fs0) in
                match build lib (cfg_api_service_name config).1
                            (cfg_api_version config).1 (Some c) with
                | Raise e => (Raise e, logged sys [ServicesNotBuilt e] fs1)
                | Return youtube =>
                    match build lib (cfg_api_service_name config).2
                                (cfg_api_version config).2 (Some c) with
                    | Raise e => (Raise e, logged sys [ServicesNotBuilt e] fs1)
                    | Return youtube_analytics =>
                        (Return (youtube, youtube_analytics), fs1)
                    end
                end
            end
        end
    end.
Proof.
  intros [[Htok ->]|[(text & e & Htok & Hload & ->)
               |(text & c & e & Htok & Hload & Hv & He & Hr & Href & ->)]];
    unfold get_authenticated_services, write_file; run_eff; rewrite Htok;
    simpl; rewrite ?Hload; simpl; rewrite ?Hv, ?He, ?Hr; simpl;
    rewrite ?Href; simpl;
    (destruct (_ !! sys_file sys (cfg_client_secrets_file config))
       as [secrets|]; [|done]);
    simpl;
    (destruct (run_local_server lib secrets (cfg_scopes config)) as [c'|e'];
       [|done]);
    simpl;
    (destruct (sys_open_error sys (cfg_token_file config)); [done|]);
    simpl;
    (destruct (build lib (cfg_api_service_name config).1
                     (cfg_api_version config).1 (Some c')); [|done]);
    by destruct (build lib (cfg_api_service_name config).2
                       (cfg_api_version config).2 (Some c')).
Qed.
End AuthPaths.

(** X15. A stored credential that loads is used as it is, unless it is
    invalid, expired and carries a refresh token: a valid one, and also an
    invalid one that cannot be refreshed, goes to the services without
    refresh and without consent flow, and no file is written. *)
Theorem stored_credential_is_used_as_it_is :
  forall (Service : Type) (sys : System) (lib : AuthLibrary Service)
         (config : Config) (fs : gmap string string) (text : string)
         (c : Credentials) (youtube youtube_analytics : Service),
    fs !! sys_file sys (cfg_token_file config) = Some text ->
    from_authorized_user_info lib text (cfg_scopes config) = Return c ->
    cr_valid c = true \/ cr_expired c = false
      \/ truthy (cr_refresh_token c) = false ->
    builds lib config c youtube youtube_analytics ->
    get_authenticated_services sys lib config fs
    = (Return (youtube, youtube_analytics), fs).
Proof.
  intros Service sys lib config fs text c y ya Htok Hload Hc [Hb1 Hb2].
  unfold get_authenticated_services. run_eff. rewrite Htok. simpl.
  rewrite Hload. simpl.
  destruct (cr_valid c); simpl; [by rewrite Hb1, Hb2|].
  destruct Hc as [?|[-> | Hr]]; [done|simpl; by rewrite Hb1, Hb2|].
  rewrite Hr, andb_false_r. simpl. by rewrite Hb1, Hb2.
Qed.

Lemma stored_credential_is_used_as_it_is_witness :
  get_authenticated_services demo_sys demo_auth_expired demo_config
    {[ "token.json" := "stale" ]}
  = (Return ("youtube:stale", "youtubeAnalytics:stale"),
     {[ "token.json" := "stale" ]}).
Proof.
  apply (stored_credential_is_used_as_it_is string demo_sys demo_auth_expired
           demo_config _ "stale"
           {| cr_token := "stale"; cr_refresh_token := None;
              cr_valid := false; cr_expired := true |}).
  - reflexivity.
  - reflexivity.
  - right. right. reflexivity.
  - split; reflexivity.
Defined.

(** X16. Whenever no credential is left after loading and refreshing (no
    token file, a token file that does not load, a refresh that fails), the
    client secrets file exists and the consent flow succeeds, the outcome
    turns on the token file. When it can be opened for writing, the
    credential granted is written to it, the saving is logged and the
    services are built from the credential; the token file then holds the
    credential, unless it is the log file. When it cannot be opened, the
    exception of [open] is logged and leaves the function, and no file but
    the log has changed. *)
Theorem consent_flow_persists_on_every_route :
  forall (Service : Type) (sys : System) (lib : AuthLibrary Service)
         (config : Config) (fs : gmap string string)
         (records : list LogRecord) (secrets : string) (c : Credentials)
         (youtube youtube_analytics : Service),
    no_credential sys lib config fs records ->
    logged sys records fs !! sys_file sys (cfg_client_secrets_file config)
    = Some secrets ->
    run_local_server lib secrets (cfg_scopes config) = Return c ->
    builds lib config c youtube youtube_analytics ->
    let token := sys_file sys (cfg_token_file config) in
    let out := get_authenticated_services sys lib config fs in
    match sys_open_error sys (cfg_token_file config) with
    | None =>
        out = (Return (youtube, youtube_analytics),
               logged sys [CredentialsSaved]
                 (<[token := to_json lib c]> (logged sys records fs)))
        /\ (token <> sys_file sys LOG_FILE ->
            out.2 !! token = Some (to_json lib c))
    | Some e =>
        out = (Raise e,
               logged sys (records ++ [AuthenticationFailed e]) fs)
    end.
Proof.
  intros Service sys lib config fs records secrets c y ya Hno Hsec Hflow
         [Hb1 Hb2] token out.
  subst out. rewrite (consent_phase sys lib config fs records Hno).
  cbv zeta. rewrite Hsec, Hflow.
  destruct (sys_open_error sys (cfg_token_file config)) as [e|].
  - by rewrite logged_app.
  - rewrite Hb1, Hb2. split; [done|]. intros Hne. simpl.
    rewrite log_append_lookup_ne by done. by rewrite lookup_insert_eq.
Qed.

Lemma consent_flow_persists_on_every_route_witness :
  get_authenticated_services demo_sys demo_auth_refresh_fails demo_config
    {[ "token.json" := "stale"; "client_secrets.json" := "secrets" ]}
  = (Return ("youtube", "youtubeAnalytics"),
     logged demo_sys [CredentialsSaved]
       (<[ "token.json" := "granted" ]>
          (logged demo_sys [TokenNotRefreshed OtherError]
             {[ "token.json" := "stale";
                "client_secrets.json" := "secrets" ]})))
  /\ ("token.json" <> "youtube_scraper.log" ->
      (get_authenticated_services demo_sys demo_auth_refresh_fails demo_config
         {[ "token.json" := "stale"; "client_secrets.json" := "secrets" ]}).2
        !! "token.json"
      = Some "granted").
Proof.
  apply (consent_flow_persists_on_every_route string demo_sys
           demo_auth_refresh_fails demo_config
           {[ "token.json" := "stale"; "client_secrets.json" := "secrets" ]}
           [TokenNotRefreshed OtherError]
           "secrets"
           {| cr_token := "granted"; cr_refresh_token := Some "refresh";
              cr_valid := true; cr_expired := false |}).
  - right. right.
    exists "stale",
      {| cr_token := "stale"; cr_refresh_token := Some "refresh";
         cr_valid := false; cr_expired := true |}, OtherError.
    by repeat split.
  - reflexivity.
  - reflexivity.
  - split; reflexivity.
Defined.



(** X18. A credential granted by the consent flow is written to the token
    file before the services are built: when the token file can be opened
    for writing and building a service then fails, the function logs the
    saving and the failure and raises, and the token file, unless it is
    the log file, holds the new credential all the same. *)
Theorem consent_is_persisted_before_build :
  forall (Service : Type) (sys : System) (lib : AuthLibrary Service)
         (config : Config) (fs : gmap string string)
         (records : list LogRecord) (secrets : string) (c : Credentials)
         (e : exn),
    no_credential sys lib config fs records ->
    logged sys records fs !! sys_file sys (cfg_client_secrets_file config)
    = Some secrets ->
    run_local_server lib secrets (cfg_scopes config) = Return c ->
    sys_open_error sys (cfg_token_file config) = None ->
    build lib (cfg_api_service_name config).1 (cfg_api_version config).1
          (Some c) = Raise e ->
    let token := sys_file sys (cfg_token_file config) in
    let out := get_authenticated_services sys lib config fs in
    out = (Raise e,
           logged sys [CredentialsSaved; ServicesNotBuilt e]
             (<[token := to_json lib c]> (logged sys records fs)))
    /\ (token <> sys_file sys LOG_FILE ->
        out.2 !! token = Some (to_json lib c)).
Proof.
  intros Service sys lib config fs records secrets c e Hno Hsec Hflow Hopen
         Hbuild token out.
  subst out. rewrite (consent_phase sys lib config fs records Hno). cbv zeta.
  rewrite Hsec, Hflow, Hopen, Hbuild. split; [done|].
  intros Hne. simpl. rewrite !log_append_lookup_ne by done.
  by rewrite lookup_insert_eq.
Qed.

Lemma consent_is_persisted_before_build_witness :
  (get_authenticated_services demo_sys demo_auth_broken demo_config
     {[ "token.json" := "garbled"; "client_secrets.json" := "secrets" ]}).1
  = Raise OtherError
  /\ (get_authenticated_services demo_sys demo_auth_broken demo_config
        {[ "token.json" := "garbled"; "client_secrets.json" := "secrets" ]}).2
       !! "token.json"
     = Some "granted".
Proof.
  destruct (consent_is_persisted_before_build string demo_sys demo_auth_broken
              demo_config
              {[ "token.json" := "garbled"; "client_secrets.json" := "secrets" ]}
              [CredentialsNotLoaded ValueError] "secrets"
              {| cr_token := "granted"; cr_refresh_token := None;
                 cr_valid := true; cr_expired := false |}
              OtherError) as [Hout Htoken].
  - right. left. by exists "garbled", ValueError.
  - reflexivity.
  - reflexivity.
  - reflexivity.
  - reflexivity.
  - split; [by rewrite Hout|]. by apply Htoken.
Defined.

Ltac destruct_matches :=
  repeat match goal with
         | |- context [match ?x with _ => _ end] =>
             lazymatch x with
             | context [match _ with _ => _ end] => fail
             | _ => destruct x eqn:?
             end; simpl
         end.

(** [get_authenticated_services] changes no file but the token file and
    the log. *)
Lemma get_authenticated_services_frame {Service} (sys : System)
    (lib : AuthLibrary Service) (config : Config) (fs : gmap string string)
    (file : string) :
  file <> sys_file sys (cfg_token_file config) ->
  file <> sys_file sys LOG_FILE ->
  (get_authenticated_services sys lib config fs).2 !! file = fs !! file.
Proof.
  intros Htoken Hlog.
  unfold get_authenticated_services, write_file. run_eff.
  destruct_matches;
    by rewrite ?log_append_lookup_ne, ?lookup_insert_ne,
         ?log_append_lookup_ne by done.
Qed.

(** It changes the token file, when this is not the log file, only by
    writing to it the credential that the consent flow grants. *)
Lemma get_authenticated_services_token {Service} (sys : System)
    (lib : AuthLibrary Service) (config : Config) (fs : gmap string string) :
  let token := sys_file sys (cfg_token_file config) in
  token <> sys_file sys LOG_FILE ->
  (get_authenticated_services sys lib config fs).2 !! token = fs !! token
  \/ exists secrets c,
       run_local_server lib secrets (cfg_scopes config) = Return c
       /\ sys_open_error sys (cfg_token_file config) = None
       /\ (get_authenticated_services sys lib config fs).2 !! token
          = Some (to_json lib c).
Proof.
  intros token Hlog. subst token.
  unfold get_authenticated_services, write_file. run_eff.
  destruct_matches;
    first [ left; by rewrite ?log_append_lookup_ne by done
          | right; do 2 eexists; split; [eassumption|]; split; [done|];
            rewrite ?log_append_lookup_ne by done;
            by rewrite lookup_insert_eq ].
Qed.

(** X19. Whatever happens, [get_authenticated_services] changes no file
    but the token file and the log; and the token file, when it is not the
    log file, it either leaves as it was or fills with a credential
    granted by the consent flow. *)
Theorem get_authenticated_services_writes_only_token_and_log :
  forall (Service : Type) (sys : System) (lib : AuthLibrary Service)
         (config : Config) (fs : gmap string string),
    let token := sys_file sys (cfg_token_file config) in
    let fs' := (get_authenticated_services sys lib config fs).2 in
    (forall file, file <> token -> file <> sys_file sys LOG_FILE ->
                  fs' !! file = fs !! file)
    /\ (token <> sys_file sys LOG_FILE ->
        fs' !! token = fs !! token
        \/ exists secrets c,
             run_local_server lib secrets (cfg_scopes config) = Return c
             /\ sys_open_error sys (cfg_token_file config) = None
             /\ fs' !! token = Some (to_json lib c)).
Proof.
  intros Service sys lib config fs token fs'. split.
  - intros file. apply get_authenticated_services_frame.
  - apply get_authenticated_services_token.
Qed.

(** ** [get_channel_uploads_playlist] *)

(** X20. [get_channel_uploads_playlist] sends one request. It returns the
    uploads playlist of the first channel of the answer; it returns [None],
    raising nothing, when the answer has no [items] key or no item and when
    the call raises [HttpError]; any other exception of the call leaves the
    function. *)
Theorem get_channel_uploads_playlist_cases :
  forall (svc : channels_service) (channel_id : string),
    calls (get_channel_uploads_playlist svc channel_id).2
    = [channels_request channel_id]
    /\ (get_channel_uploads_playlist svc channel_id).1
       = match svc (channels_request channel_id) with
         | Return response =>
             Return (ch_uploads <$> head (default [] (cl_items response)))
         | Raise HttpError => Return None
         | Raise e => Raise e
         end.
Proof.
  intros svc channel_id. unfold get_channel_uploads_playlist. run_eff.
  destruct (svc (channels_request channel_id)) as [[[[|item items]|]]|e];
    simpl; try done.
  by destruct e.
Qed.

(** ** [load_config] *)

(** X21. A configuration file that exists is only read: [load_config]
    returns what [json.load] makes of its text, raises what [json.load]
    raises when the text is no configuration, and in both cases leaves
    every file as it was; a broken file is not replaced by the default. *)
Theorem load_config_reads_an_existing_file :
  forall (sys : System) (codec : ConfigCodec) (fs : gmap string string)
         (text : string),
    fs !! sys_file sys CONFIG_FILE = Some text ->
    json_load codec text <> Raise FileNotFoundError ->
    load_config sys codec fs = (json_load codec text, fs).
Proof.
  intros sys codec fs text Hfile Hload. unfold load_config, read_file. run_eff.
  rewrite Hfile. simpl.
  destruct (json_load codec text) as [config|e]; [done|].
  by destruct e.
Qed.

Lemma load_config_reads_an_existing_file_witness :
  load_config demo_sys demo_codec {[ CONFIG_FILE := "{" ]}
  = (Raise ValueError, {[ CONFIG_FILE := "{" ]}).
Proof.
  apply (load_config_reads_an_existing_file demo_sys demo_codec
           {[ CONFIG_FILE := "{" ]} "{").
  - reflexivity.
  - discriminate.
Defined.

Lemma load_config_missing sys codec fs :
  fs !! sys_file sys CONFIG_FILE = None ->
  load_config sys codec fs
  = match sys_open_error sys CONFIG_FILE with
    | Some e => (Raise e, fs)
    | None =>
        (Return default_config,
         logged sys [ConfigCreated CONFIG_FILE]
           (<[sys_file sys CONFIG_FILE := json_dump codec default_config]> fs))
    end.
Proof.
  intros Hfile. unfold load_config, read_file, write_file. run_eff.
  rewrite Hfile. simpl. by destruct (sys_open_error sys CONFIG_FILE).
Qed.

(** X22. Without a configuration file, [load_config] returns the default
    configuration, writes it to "config.json" and logs that it has; when
    [json.load] reads back what [json.dump] wrote, and the log is not kept
    in "config.json", a second call returns the default configuration
    again and changes no file. When "config.json" cannot be opened for
    writing, the first call raises the exception of [open] and changes no
    file. *)
Theorem load_config_creates_the_default_once :
  forall (sys : System) (codec : ConfigCodec) (fs : gmap string string),
    fs !! sys_file sys CONFIG_FILE = None ->
    json_load codec (json_dump codec default_config) = Return default_config ->
    match sys_open_error sys CONFIG_FILE with
    | None =>
        let fs' :=
          logged sys [ConfigCreated CONFIG_FILE]
            (<[sys_file sys CONFIG_FILE := json_dump codec default_config]>
               fs) in
        load_config sys codec fs = (Return default_config, fs')
        /\ (sys_file sys CONFIG_FILE <> sys_file sys LOG_FILE ->
            load_config sys codec fs' = (Return default_config, fs'))
    | Some e => load_config sys codec fs = (Raise e, fs)
    end.
Proof.
  intros sys codec fs Hfile Hround.
  rewrite (load_config_missing sys codec fs Hfile).
  destruct (sys_open_error sys CONFIG_FILE) as [e|] eqn:Hopen; [done|].
  split; [done|]. intros Hne.
  unfold load_config, read_file. run_eff.
  rewrite log_append_lookup_ne, lookup_insert_eq by done. simpl.
  by rewrite Hround.
Qed.

Lemma load_config_creates_the_default_once_witness :
  load_config demo_sys demo_codec ∅
  = (Return default_config,
     logged demo_sys [ConfigCreated CONFIG_FILE] {[ CONFIG_FILE := "" ]})
  /\ (CONFIG_FILE <> LOG_FILE ->
      load_config demo_sys demo_codec
        (logged demo_sys [ConfigCreated CONFIG_FILE] {[ CONFIG_FILE := "" ]})
      = (Return default_config,
         logged demo_sys [ConfigCreated CONFIG_FILE] {[ CONFIG_FILE := "" ]})).
Proof.
  apply (load_config_creates_the_default_once demo_sys demo_codec ∅);
    reflexivity.
Defined.

(** ** The ordered listing and [get_videos_by_year] *)

Lemma dict_get_list_to_map {V} k (d : PyDict.t V) :
  dict_get k d = (list_to_map d : gmap string V) !! k.
Proof.
  induction d as [|[k0 v0] d IH]; simpl; [by rewrite lookup_empty|].
  destruct (String.eqb_spec k k0) as [->|Hne].
  - by rewrite lookup_insert_eq.
  - by rewrite lookup_insert_ne.
Qed.

Lemma list_to_map_set {V} k (v : V) (d : PyDict.t V) :
  (list_to_map (PyDict.set k v d) : gmap string V)
  = <[k := v]> (list_to_map d).
Proof.
  induction d as [|[k0 v0] d IH]; simpl; [done|].
  destruct (String.eqb_spec k k0) as [->|Hne]; simpl.
  - by rewrite insert_insert_eq.
  - rewrite IH. by apply insert_insert_ne.
Qed.

Lemma place_item_ordered_forget item d :
  (list_to_map (place_item_ordered item d) : gmap string (list string))
  = place_item item (list_to_map d).
Proof.
  rewrite place_item_insert. unfold place_item_ordered.
  rewrite slice_to_first_four.
  set (year := first_four (pi_publishedAt item)).
  rewrite <- (dict_get_list_to_map year d).
  destruct (dict_get year d) as [l|] eqn:Hget; simpl.
  - by rewrite list_to_map_set, Hget.
  - rewrite !list_to_map_set, dict_get_set_eq. simpl.
    by rewrite insert_insert_eq.
Qed.

Lemma place_item_ordered_NoDup item d :
  NoDup (PyDict.keys d) -> NoDup (PyDict.keys (place_item_ordered item d)).
Proof.
  intros Hd. unfold place_item_ordered.
  destruct (dict_get _ d); by repeat apply dict_set_NoDup.
Qed.

Lemma for_each_place_ordered items s :
  exists s',
    for_each items (fun item => update_store (place_item_ordered item)) s
    = (Return tt, s')
    /\ for_each items (fun item => update_store (place_item item))
         (forget_order s)
       = (Return tt, forget_order s')
    /\ (NoDup (PyDict.keys (store s)) -> NoDup (PyDict.keys (store s'))).
Proof.
  revert s. induction items as [|item items IH]; intros s.
  - by exists s.
  - destruct (IH (Fetch (place_item_ordered item (store s)) (calls s)))
      as (s' & Hrun & Hforget & Hnd).
    exists s'. rewrite !for_each_cons.
    unfold update_store at 1 3, modify. simpl. rewrite Hrun.
    split; [done|]. split.
    + rewrite <- Hforget. unfold forget_order. simpl.
      by rewrite place_item_ordered_forget.
    + intros H. by apply Hnd, place_item_ordered_NoDup.
Qed.

Lemma playlist_loop_ordered_forget fuel svc pl tok s :
  exists r s',
    playlist_loop_ordered fuel svc pl tok s = (r, s')
    /\ playlist_loop fuel svc pl tok (forget_order s) = (r, forget_order s')
    /\ (NoDup (PyDict.keys (store s)) -> NoDup (PyDict.keys (store s'))).
Proof.
  revert tok s. induction fuel as [|fuel IH]; intros tok s.
  - by exists (Return None), s.
  - simpl. unfold mbind at 1 3, eff_bind at 1 3, execute. simpl.
    destruct (svc (playlist_request pl tok)) as [page|e].
    + destruct (for_each_place_ordered (default [] (pp_items page))
                  (Fetch (store s) (calls s ++ [playlist_request pl tok])))
        as (s1 & Hrun & Hforget & Hnd).
      unfold mbind at 1 2, eff_bind at 1 2.
      change (Fetch (list_to_map (store s)) (calls s ++ [playlist_request pl tok]))
        with (forget_order (Fetch (store s)
                                  (calls s ++ [playlist_request pl tok]))).
      rewrite Hrun, Hforget.
      destruct (truthy (pp_nextPageToken page)); simpl.
      * destruct (IH (pp_nextPageToken page) s1) as (r & s' & H1 & H2 & H3).
        exists r, s'. auto.
      * exists (Return (Some tt)), s1. auto.
    + exists (Raise e), (Fetch (store s) (calls s ++ [playlist_request pl tok])).
      auto.
Qed.

(** X23. Kept in insertion order or not, the listing is the same: for every
    platform and every bound on the pages, [get_videos_by_year] sends the
    requests of the ordered listing, ends as it does, and returns the
    mapping of its ordered dictionary, whose year keys are distinct. *)
Theorem get_videos_by_year_forgets_only_the_order :
  forall (fuel : nat) (svc : playlist_service) (uploads_playlist_id : string),
    calls (get_videos_by_year fuel svc uploads_playlist_id).2
    = calls (get_videos_by_year_ordered fuel svc uploads_playlist_id).2
    /\ match (get_videos_by_year_ordered fuel svc uploads_playlist_id).1 with
       | Return (Some videos_by_year) =>
           (get_videos_by_year fuel svc uploads_playlist_id).1
           = Return (Some (list_to_map videos_by_year))
           /\ NoDup (PyDict.keys videos_by_year)
       | Return None =>
           (get_videos_by_year fuel svc uploads_playlist_id).1 = Return None
       | Raise e =>
           (get_videos_by_year fuel svc uploads_playlist_id).1 = Raise e
       end.
Proof.
  intros fuel svc pl.
  destruct (playlist_loop_ordered_forget fuel svc pl None (Fetch [] []))
    as (r & s' & Hordered & Hforget & Hnd).
  assert (E1 : get_videos_by_year fuel svc pl
               = match playlist_loop fuel svc pl None (Fetch ∅ []) with
                 | (Return a, s) => (Return (_ ← a; Some (store s)), s)
                 | (Raise e, s) =>
                     if exn_eqb e HttpError then (Return (Some (store s)), s)
                     else (Raise e, s)
                 end).
  { unfold get_videos_by_year, try_eff.
    unfold mbind at 1, eff_bind at 1.
    by destruct (playlist_loop fuel svc pl None _) as [[a|e] s]. }
  assert (E2 : get_videos_by_year_ordered fuel svc pl
               = match playlist_loop_ordered fuel svc pl None (Fetch [] []) with
                 | (Return a, s) => (Return (_ ← a; Some (store s)), s)
                 | (Raise e, s) =>
                     if exn_eqb e HttpError then (Return (Some (store s)), s)
                     else (Raise e, s)
                 end).
  { unfold get_videos_by_year_ordered, try_eff.
    unfold mbind at 1, eff_bind at 1.
    by destruct (playlist_loop_ordered fuel svc pl None _) as [[a|e] s]. }
  rewrite E1, E2. clear E1 E2.
  change (Fetch ∅ []) with (forget_order (Fetch [] [])).
  rewrite Hordered, Hforget.
  destruct r as [[[]|]|e]; simpl.
  - split; [done|]. split; [done|]. apply Hnd. constructor.
  - done.
  - by destruct e; simpl; try (split; [done|split; [done|apply Hnd; constructor]]).
Qed.

Lemma place_all_invariant (P : gmap string (list string) -> Prop) :
  (forall item d, P d -> P (place_item item d)) ->
  forall items d, P d -> P (place_all items d).
Proof.
  intros Hstep items. unfold place_all.
  induction items as [|item items IH]; intros d Hd; simpl; auto.
Qed.

Lemma playlist_loop_invariant (P : gmap string (list string) -> Prop)
    fuel svc pl :
  (forall item d, P d -> P (place_item item d)) ->
  forall tok s, P (store s) -> P (store (playlist_loop fuel svc pl tok s).2).
Proof.
  intros Hstep. induction fuel as [|fuel IH]; intros tok s Hs; [done|].
  simpl. unfold mbind at 1, eff_bind at 1, execute. simpl.
  destruct (svc (playlist_request pl tok)) as [page|e]; [|done].
  unfold mbind at 1, eff_bind at 1. rewrite for_each_place.
  destruct (truthy (pp_nextPageToken page)); simpl.
  - apply IH. simpl. by apply place_all_invariant.
  - by apply place_all_invariant.
Qed.

Lemma get_videos_by_year_invariant (P : gmap string (list string) -> Prop)
    fuel svc pl videos_by_year :
  (forall item d, P d -> P (place_item item d)) -> P ∅ ->
  (get_videos_by_year fuel svc pl).1 = Return (Some videos_by_year) ->
  P videos_by_year.
Proof.
  intros Hstep Hempty.
  pose proof (playlist_loop_invariant P fuel svc pl Hstep None (Fetch ∅ []) Hempty)
    as Hloop.
  unfold get_videos_by_year, try_eff.
  unfold mbind at 1, eff_bind at 1.
  destruct (playlist_loop fuel svc pl None _) as [[[[]|]|e] s]; simpl in *.
  - by intros [= <-].
  - done.
  - destruct e; simpl; try done. by intros [= <-].
Qed.

(** X24. No year of a listing is empty: whatever the platform answers, a
    year that [get_videos_by_year] returns holds at least one video, so the
    caller's test for an empty year never fails; and a year is a text of at
    most four characters. *)
Theorem get_videos_by_year_has_no_empty_year :
  forall (fuel : nat) (svc : playlist_service) (uploads_playlist_id : string)
         (videos_by_year : gmap string (list string))
         (year : string) (video_ids : list string),
    (get_videos_by_year fuel svc uploads_playlist_id).1
    = Return (Some videos_by_year) ->
    videos_by_year !! year = Some video_ids ->
    video_ids <> [] /\ (String.length year <= 4)%nat.
Proof.
  intros fuel svc pl videos_by_year year video_ids Hrun.
  revert year video_ids.
  apply (get_videos_by_year_invariant
           (fun d => forall year ids,
              d !! year = Some ids -> ids <> [] /\ (String.length year <= 4)%nat)
           fuel svc pl videos_by_year); [| |done].
  - intros item d Hd year ids. rewrite place_item_insert.
    destruct (decide (year = first_four (pi_publishedAt item))) as [->|Hne].
    + rewrite lookup_insert_eq. intros [= <-]. split.
      * by destruct (default [] _).
      * unfold first_four. clear.
        generalize (pi_publishedAt item). intros s.
        do 4 (destruct s as [|? s]; simpl; [lia|]).
        destruct s; simpl; lia.
    + rewrite lookup_insert_ne by done. apply Hd.
  - intros year ids. by rewrite lookup_empty.
Qed.

Lemma get_videos_by_year_has_no_empty_year_witness :
  ["v1"; "v3"] <> [] /\ (String.length "2022" <= 4)%nat.
Proof.
  apply (get_videos_by_year_has_no_empty_year 3 demo_playlist "UU"
           (store (get_videos_by_year 3 demo_playlist "UU").2) "2022").
  - vm_compute. reflexivity.
  - vm_compute. reflexivity.
Defined.

(** ** The fetches with their records, and the fetches *)

Section Erasure.
Context {D Req : Type}.

Lemma erases_ret {A} (a : A) : erases (D := D) (Req := Req) (mret a) (mret a).
Proof. by intros s. Qed.

Lemma erases_lift {A} (r : result A) :
  erases (D := D) (Req := Req) (lift r) (lift r).
Proof. by intros s. Qed.

Lemma erases_on_fetch {A} (m : eff (fetch D Req) A) : erases (on_fetch m) m.
Proof. intros s. unfold on_fetch, forget_notes. by destruct (m s.1). Qed.

Lemma erases_log record : erases (D := D) (Req := Req) (log record) (mret tt).
Proof. by intros s. Qed.

Lemma erases_count_video : erases (D := D) (Req := Req) count_video (mret tt).
Proof. by intros s. Qed.

Lemma erases_bind {A B} (logging : eff (noted D Req) A) m
    (k_logging : A -> eff (noted D Req) B) k :
  erases logging m -> (forall a, erases (k_logging a) (k a)) ->
  erases (logging ≫= k_logging) (m ≫= k).
Proof.
  intros Hm Hk s. specialize (Hm s). unfold mbind, eff_bind, forget_notes in *.
  destruct (logging s) as [[a|e] s'], (m s.1) as [r f]; simpl in *;
    injection Hm as <- <-; [apply Hk|done].
Qed.

(** A statement that only logs or counts may follow. *)
Lemma erases_then (logging quiet : eff (noted D Req) unit) m :
  erases logging m -> erases quiet (mret tt) ->
  erases (_ ← logging; quiet) m.
Proof.
  intros Hm Hq s. specialize (Hm s). unfold mbind, eff_bind, forget_notes in *.
  destruct (logging s) as [[[]|e] s'], (m s.1) as [r f]; simpl in *;
    injection Hm as <- <-; [|done].
  specialize (Hq s'). unfold forget_notes in Hq. by rewrite Hq.
Qed.

(** A statement that only logs or counts may come first. *)
Lemma erases_after {A} (quiet : eff (noted D Req) unit)
    (logging : eff (noted D Req) A) m :
  erases quiet (mret tt) -> erases logging m ->
  erases (_ ← quiet; logging) m.
Proof.
  intros Hq Hm s. specialize (Hq s). unfold mbind, eff_bind, forget_notes in *.
  destruct (quiet s) as [[[]|e] s']; simpl in *; [|done].
  injection Hq as Hs. rewrite <- Hs. apply Hm.
Qed.

Lemma erases_try_eff {A} (logging : eff (noted D Req) A) m E handler_logging
    handler :
  erases logging m -> erases handler_logging handler ->
  erases (try_eff logging E handler_logging) (try_eff m E handler).
Proof.
  intros Hm Hh s. specialize (Hm s). unfold try_eff, forget_notes in *.
  destruct (logging s) as [[a|e] s'], (m s.1) as [r f]; simpl in *;
    injection Hm as <- <-; [done|].
  destruct (exn_eqb e E); [apply Hh|done].
Qed.

Lemma erases_for_each {A} (l : list A) body_logging
    (body : A -> eff (fetch D Req) unit) :
  (forall x, erases (body_logging x) (body x)) ->
  erases (for_each l body_logging) (for_each l body).
Proof.
  intros Hbody. induction l as [|x l IH]; simpl; [apply erases_ret|].
  by apply erases_bind.
Qed.
End Erasure.

Lemma annual_step_erases svc channel_id year :
  erases (annual_step_logged svc channel_id year)
         (annual_step svc channel_id year).
Proof.
  apply erases_try_eff.
  - apply erases_bind; [apply erases_on_fetch|]. intros response.
    apply erases_bind; [apply erases_lift|]. intros row.
    apply erases_bind; [apply erases_lift|]. intros views.
    apply erases_then; [apply erases_on_fetch|apply erases_log].
  - apply erases_after; [apply erases_log|apply erases_on_fetch].
Qed.

Lemma get_annual_views_erases svc channel_id start_year end_year :
  forget_notes (get_annual_views_logged svc channel_id start_year end_year)
  = get_annual_views svc channel_id start_year end_year.
Proof.
  apply (erases_bind _ _ _ _
           (erases_for_each _ _ _ (annual_step_erases svc channel_id))
           (fun _ => erases_on_fetch read_store)).
Qed.

Lemma get_channel_uploads_playlist_erases svc channel_id :
  forget_notes (get_channel_uploads_playlist_logged svc channel_id)
  = get_channel_uploads_playlist svc channel_id.
Proof.
  unfold get_channel_uploads_playlist_logged, get_channel_uploads_playlist.
  apply erases_try_eff.
  - apply erases_bind; [apply erases_on_fetch|]. intros response.
    destruct (cl_items response) as [[|item items]|].
    + apply erases_after; [apply erases_log|apply erases_ret].
    + apply erases_bind; [apply erases_lift|]. intros item'.
      apply erases_after; [apply erases_log|apply erases_ret].
    + apply erases_after; [apply erases_log|apply erases_ret].
  - apply erases_after; [apply erases_log|apply erases_ret].
Qed.

Lemma playlist_loop_erases fuel svc pl :
  forall tok,
    erases (playlist_loop_logged fuel svc pl tok)
           (playlist_loop_ordered fuel svc pl tok).
Proof.
  induction fuel as [|fuel IH]; intros tok; simpl; [apply erases_ret|].
  apply erases_bind; [apply erases_on_fetch|]. intros page.
  apply erases_bind.
  - apply erases_for_each. intros item.
    apply erases_then; [apply erases_on_fetch|apply erases_count_video].
  - intros _. destruct (negb _); [apply erases_ret|apply IH].
Qed.

Lemma get_videos_by_year_erases fuel svc pl :
  forget_notes (get_videos_by_year_logged fuel svc pl)
  = get_videos_by_year_ordered fuel svc pl.
Proof.
  unfold get_videos_by_year_logged, get_videos_by_year_ordered.
  apply erases_try_eff.
  - apply erases_bind; [apply playlist_loop_erases|].
    intros [[]|] s; reflexivity.
  - apply erases_after; [apply erases_log|].
    apply erases_bind; [apply erases_on_fetch|]. intros d. apply erases_ret.
Qed.

Lemma stats_batch_erases svc i batch :
  erases (stats_batch_logged svc i batch) (stats_batch svc batch).
Proof.
  apply erases_try_eff.
  - apply erases_bind; [apply erases_on_fetch|]. intros response.
    apply erases_then; [apply erases_on_fetch|apply erases_log].
  - apply erases_log.
Qed.

Lemma get_video_stats_erases svc video_ids :
  forget_notes (get_video_stats_logged svc video_ids)
  = get_video_stats svc video_ids.
Proof.
  apply (erases_bind _ _ _ _
           (erases_for_each _ _ _
              (fun i => stats_batch_erases svc i
                          (list_slice video_ids i (i + 50))))
           (fun _ => erases_on_fetch read_store)).
Qed.

(** X29. The fetches that [main] runs, which log, are the fetches: with
    their records and the counter of videos left out, they return what
    [get_annual_views], [get_channel_uploads_playlist], the ordered
    [get_videos_by_year] and [get_video_stats] return, after the same
    calls and with the same mapping. *)
Theorem logged_fetches_are_the_fetches :
  (forall svc channel_id start_year end_year,
      forget_notes (get_annual_views_logged svc channel_id start_year end_year)
      = get_annual_views svc channel_id start_year end_year)
  /\ (forall svc channel_id,
        forget_notes (get_channel_uploads_playlist_logged svc channel_id)
        = get_channel_uploads_playlist svc channel_id)
  /\ (forall fuel svc uploads_playlist_id,
        forget_notes (get_videos_by_year_logged fuel svc uploads_playlist_id)
        = get_videos_by_year_ordered fuel svc uploads_playlist_id)
  /\ (forall svc video_ids,
        forget_notes (get_video_stats_logged svc video_ids)
        = get_video_stats svc video_ids).
Proof.
  split; [|split; [|split]].
  - apply get_annual_views_erases.
  - apply get_channel_uploads_playlist_erases.
  - apply get_videos_by_year_erases.
  - apply get_video_stats_erases.
Qed.

(** ** [main] *)

Lemma only_logged_refl sys fs : only_logged sys fs fs.
Proof. by exists []. Qed.

Lemma only_logged_trans sys fs1 fs2 fs3 :
  only_logged sys fs1 fs2 -> only_logged sys fs2 fs3 -> only_logged sys fs1 fs3.
Proof.
  intros [r1 ->] [r2 ->]. exists (r1 ++ r2). by rewrite logged_app.
Qed.

Lemma only_logged_logged sys records fs :
  only_logged sys fs (logged sys records fs).
Proof. by exists records. Qed.

Lemma only_logged_append sys record fs :
  only_logged sys fs (log_append sys record fs).
Proof. by exists [record]. Qed.

Lemma only_logged_lookup sys fs fs' file :
  only_logged sys fs fs' -> file <> sys_file sys LOG_FILE ->
  fs' !! file = fs !! file.
Proof. intros [records ->] Hne. by apply logged_lookup_ne. Qed.

Lemma save_data_to_json_run {Data} sys (dump : Data -> string * option exn)
    data filename fs :
  save_data_to_json sys dump data filename fs
  = (Return tt,
     match sys_open_error sys filename with
     | Some e => logged sys [DataNotSaved filename e] fs
     | None =>
         let fs' := <[sys_file sys filename := (dump data).1]> fs in
         match (dump data).2 with
         | Some e => logged sys [DataNotSaved filename e] fs'
         | None => logged sys [DataSaved filename] fs'
         end
     end).
Proof.
  unfold save_data_to_json, write_file.
  destruct (dump data) as [text [e|]]; run_eff;
    by destruct (sys_open_error sys filename).
Qed.

Lemma collect_stats_logs sys youtube items :
  forall all_video_stats w,
    only_logged sys (w_files w)
      (w_files (collect_stats sys youtube items all_video_stats w).2).
Proof.
  induction items as [|[year [|video_id video_ids]] items IH];
    intros all_video_stats w; simpl;
    [apply only_logged_refl|apply IH|].
  unfold mbind, eff_bind, in_files, logger, modify, remote. simpl.
  match goal with
  | |- context [(get_video_stats_logged ?svc ?ids).1] =>
      destruct (get_video_stats_logged svc ids).1 as [year_stats|e]
  end; simpl.
  - eapply only_logged_trans; [|apply IH]. simpl.
    eapply only_logged_trans;
      [apply only_logged_append|apply only_logged_logged].
  - eapply only_logged_trans;
      [apply only_logged_append|apply only_logged_logged].
Qed.

(** What the part of [main] that follows the authorization does to the
    files: it logs and, at its end, saves the snapshot. *)
Lemma main_fetch_run fuel host config channel_id youtube youtube_analytics w :
  let sys := host_sys host in
  let out :=
    main_fetch fuel host config channel_id youtube youtube_analytics w in
  only_logged sys (w_files w) (w_files out.2)
  \/ exists (channel_data : ChannelData) (uploads_playlist_id : string)
            (fs : gmap string string),
       out.1 = Return (Some tt)
       /\ only_logged sys (w_files w) fs
       /\ w_files out.2
          = (save_data_to_json sys (host_dump host) channel_data
               (st_output_file config) fs).2
       /\ snap_channel_id channel_data = channel_id
       /\ snap_extraction_date channel_data = host_now host
       /\ (get_annual_views (api_reports youtube_analytics) channel_id
             (host_year host - st_years_to_analyze config)
             (host_year host)).1
          = Return (snap_annual_views channel_data)
       /\ (get_channel_uploads_playlist (api_channels youtube) channel_id).1
          = Return (Some uploads_playlist_id)
       /\ (get_videos_by_year_ordered fuel (api_playlistItems youtube)
             uploads_playlist_id).1
          = Return (Some (snap_videos_by_year channel_data))
       /\ rank (snap_video_stats channel_data)
          = Return (snap_top_videos channel_data).
Proof.
  intros sys out.
  assert (Hout : out = main_fetch fuel host config channel_id youtube
                         youtube_analytics w) by done.
  clearbody out. unfold main_fetch in Hout. fold sys in Hout.
  rewrite <- get_annual_views_erases, <- get_channel_uploads_playlist_erases.
  unfold mbind at 1, eff_bind at 1, remote at 1 in Hout. simpl in Hout.
  simpl.
  destruct (get_annual_views_logged _ _ _ _).1 as [annual_views|e] eqn:Hviews;
    [|subst out; left; apply only_logged_logged].
  unfold mbind at 1, eff_bind at 1, remote at 1 in Hout. simpl in Hout.
  destruct (get_channel_uploads_playlist_logged _ _).1 as [uploads|e]
    eqn:Huploads;
    [|subst out; left; simpl;
      eapply only_logged_trans; apply only_logged_logged].
  destruct (truthy uploads) eqn:Htruthy; simpl in Hout.
  2:{ subst out. left. simpl.
      eapply only_logged_trans; [apply only_logged_logged|].
      eapply only_logged_trans; [apply only_logged_logged|].
      apply only_logged_append. }
  destruct uploads as [uploads_playlist_id|]; [|done]. simpl in Hout.
  unfold mbind at 1, eff_bind at 1, remote at 1 in Hout. simpl in Hout.
  pose proof (get_videos_by_year_erases fuel (api_playlistItems youtube)
                uploads_playlist_id) as Herase.
  apply (f_equal fst) in Herase. simpl in Herase.
  destruct (get_videos_by_year_logged _ _ _).1 as [[videos_by_year|]|e]
    eqn:Hlisting; simpl in Hout.
  2,3: subst out; left; simpl;
       (eapply only_logged_trans; [apply only_logged_logged|]);
       (eapply only_logged_trans; [apply only_logged_logged|]);
       apply only_logged_logged.
  unfold mbind at 1, eff_bind at 1 in Hout.
  match type of Hout with
  | context [collect_stats ?s ?y ?items ?acc ?w0] =>
      pose proof (collect_stats_logs s y items acc w0) as Hfiles;
      destruct (collect_stats s y items acc w0) as [[all_video_stats|e] w1]
  end; simpl in Hfiles.
  2:{ subst out. left. simpl.
      eapply only_logged_trans; [apply only_logged_logged|].
      eapply only_logged_trans; [apply only_logged_logged|].
      eapply only_logged_trans; [apply only_logged_logged|]. done. }
  assert (Hw1 : only_logged sys (w_files w) (w_files w1)).
  { eapply only_logged_trans; [apply only_logged_logged|].
    eapply only_logged_trans; [apply only_logged_logged|].
    eapply only_logged_trans; [apply only_logged_logged|]. done. }
  unfold mbind at 1, eff_bind at 1, lift at 1 in Hout.
  destruct (rank all_video_stats) as [top_videos|e] eqn:Hrank;
    [|subst out; by left].
  unfold mbind at 1, eff_bind at 1, in_files at 1 in Hout.
  rewrite save_data_to_json_run in Hout. simpl in Hout.
  right. eexists _, uploads_playlist_id, (w_files w1). subst out. simpl.
  rewrite save_data_to_json_run. simpl.
  repeat split; simpl; done.
Qed.

Lemma main_fetch_files fuel host config channel_id youtube youtube_analytics w :
  let sys := host_sys host in
  let out :=
    main_fetch fuel host config channel_id youtube youtube_analytics w in
  let output := sys_file sys (st_output_file config) in
  (forall file, file <> sys_file sys LOG_FILE -> file <> output ->
                w_files out.2 !! file = w_files w !! file)
  /\ (output <> sys_file sys LOG_FILE ->
      w_files out.2 !! output = w_files w !! output
      \/ exists (channel_data : ChannelData) (uploads_playlist_id : string),
           out.1 = Return (Some tt)
           /\ sys_open_error sys (st_output_file config) = None
           /\ w_files out.2 !! output = Some (host_dump host channel_data).1
           /\ snap_channel_id channel_data = channel_id
           /\ snap_extraction_date channel_data = host_now host
           /\ (get_annual_views (api_reports youtube_analytics) channel_id
                 (host_year host - st_years_to_analyze config)
                 (host_year host)).1
              = Return (snap_annual_views channel_data)
           /\ (get_channel_uploads_playlist (api_channels youtube)
                 channel_id).1
              = Return (Some uploads_playlist_id)
           /\ (get_videos_by_year_ordered fuel (api_playlistItems youtube)
                 uploads_playlist_id).1
              = Return (Some (snap_videos_by_year channel_data))
           /\ rank (snap_video_stats channel_data)
              = Return (snap_top_videos channel_data)).
Proof.
  intros sys out output.
  destruct (main_fetch_run fuel host config channel_id youtube
              youtube_analytics w)
    as [Hlog|(data & uploads & fs & Hret & Hfs & Hfiles & Hfacts)];
    fold sys in Hlog || fold sys in Hfs, Hfiles; fold out in Hlog || fold out in Hret, Hfiles.
  - split.
    + intros file Hfile _. by apply (only_logged_lookup sys).
    + intros Houtput. left. by apply (only_logged_lookup sys).
  - rewrite save_data_to_json_run in Hfiles. simpl in Hfiles. fold output in Hfiles.
    split.
    + intros file Hfile Hne. rewrite Hfiles.
      destruct (sys_open_error sys (st_output_file config)) as [e|];
        [|destruct (host_dump host data).2];
        simpl; rewrite ?log_append_lookup_ne, ?lookup_insert_ne by done;
        by apply (only_logged_lookup sys).
    + intros Houtput. rewrite Hfiles.
      destruct (sys_open_error sys (st_output_file config)) as [e|] eqn:Hopen.
      * left. simpl. rewrite log_append_lookup_ne by done.
        by apply (only_logged_lookup sys).
      * right. exists data, uploads. split; [done|]. split; [done|].
        split; [|done].
        destruct (host_dump host data).2; simpl;
          rewrite log_append_lookup_ne by done; by rewrite lookup_insert_eq.
Qed.

(** X25. The snapshot is written last or not at all. The part of [main]
    that follows the authorization changes no file but the log and the
    output file. The output file, when it is not the log file, is left as
    it was, as it is when a fetch or a ranking raises, when the channel has
    no uploads playlist and when the output file cannot be opened; or the
    run has ended normally and the output file holds the text written for
    a snapshot made of the channel identifier, the date of the run, the
    annual views and the listing as they were returned, and the rankings
    of its statistics. *)
Theorem main_fetch_snapshot_or_nothing :
  forall (fuel : nat) (host : Host) (config : Settings) (channel_id : string)
         (youtube youtube_analytics : Client) (w : World),
    let sys := host_sys host in
    let out :=
      main_fetch fuel host config channel_id youtube youtube_analytics w in
    let output := sys_file sys (st_output_file config) in
    (forall file, file <> sys_file sys LOG_FILE -> file <> output ->
                  w_files out.2 !! file = w_files w !! file)
    /\ (output <> sys_file sys LOG_FILE ->
        w_files out.2 !! output = w_files w !! output
        \/ exists (channel_data : ChannelData) (uploads_playlist_id : string),
             out.1 = Return (Some tt)
             /\ sys_open_error sys (st_output_file config) = None
             /\ w_files out.2 !! output
                = Some (host_dump host channel_data).1
             /\ snap_channel_id channel_data = channel_id
             /\ snap_extraction_date channel_data = host_now host
             /\ (get_annual_views (api_reports youtube_analytics) channel_id
                   (host_year host - st_years_to_analyze config)
                   (host_year host)).1
                = Return (snap_annual_views channel_data)
             /\ (get_channel_uploads_playlist (api_channels youtube)
                   channel_id).1
                = Return (Some uploads_playlist_id)
             /\ (get_videos_by_year_ordered fuel (api_playlistItems youtube)
                   uploads_playlist_id).1
                = Return (Some (snap_videos_by_year channel_data))
             /\ rank (snap_video_stats channel_data)
                = Return (snap_top_videos channel_data)).
Proof. intros. apply main_fetch_files. Qed.








Lemma main_setup_unfold host w :
  let sys := host_sys host in
  let world fs := {| w_files := fs; w_requests := w_requests w |} in
  main_setup host w
  = match load_config sys (host_codec host) (w_files w) with
    | (Raise e, fs) => (Raise e, world fs)
    | (Return config0, fs) =>
        let prompted :=
          if String.eqb (st_channel_id config0) ""
          then
            match host_input host with
            | Return channel_id =>
                let config := with_channel_id config0 channel_id in
                (write_file sys CONFIG_FILE
                   (json_dump (host_codec host) config) fs).1
                ≫= (fun _ => Return config)
            | Raise e => Raise e
            end
          else Return config0 in
        let fs1 :=
          if String.eqb (st_channel_id config0) ""
          then
            match host_input host with
            | Return channel_id =>
                (write_file sys CONFIG_FILE
                   (json_dump (host_codec host)
                      (with_channel_id config0 channel_id)) fs).2
            | Raise e => fs
            end
          else fs in
        match prompted with
        | Raise e => (Raise e, world fs1)
        | Return config =>
            match get_authenticated_services sys (host_auth host)
                    (st_auth config) fs1 with
            | (Return (youtube, youtube_analytics), fs) =>
                (Return (config, st_channel_id config, youtube,
                         youtube_analytics), world fs)
            | (Raise e, fs) => (Raise e, world fs)
            end
        end
    end.
Proof.
  intros sys world. unfold main_setup. fold sys.
  unfold mbind at 1, eff_bind at 1, in_files at 1.
  destruct (load_config _ _ _) as [[config0|e] fs]; [|done].
  unfold mbind at 1, eff_bind at 1. cbv zeta.
  destruct (String.eqb (st_channel_id config0) ""); simpl.
  - unfold mbind at 1, eff_bind at 1, lift at 1.
    destruct (host_input host) as [channel_id|e]; [|done].
    unfold mbind at 1, eff_bind at 1, in_files at 1.
    destruct (write_file _ _ _ _) as [[[]|e] fs1]; [|done]. simpl.
    unfold mbind at 1, eff_bind at 1, in_files at 1. simpl.
    by destruct (get_authenticated_services _ _ _ _) as [[[y ya]|e] fs'].
  - unfold mbind at 1, eff_bind at 1, in_files at 1. simpl.
    by destruct (get_authenticated_services _ _ _ _) as [[[y ya]|e] fs'].
Qed.

Lemma main_unfold fuel host w :
  let failed e w' :=
    {| w_files := log_append (host_sys host) (RunFailed e) (w_files w');
       w_requests := w_requests w' |} in
  main fuel host w
  = match main_setup host w with
    | (Return (config, channel_id, youtube, youtube_analytics), w1) =>
        match main_fetch fuel host config channel_id youtube
                youtube_analytics w1 with
        | (Return a, w2) => (Return a, w2)
        | (Raise e, w2) => (Return (Some tt), failed e w2)
        end
    | (Raise e, w1) => (Return (Some tt), failed e w1)
    end.
Proof.
  intros failed. unfold main, try_eff_all. unfold mbind at 1, eff_bind at 1.
  destruct (main_setup host w) as [[[[[config channel_id] y] ya]|e] w1];
    [|done].
  by destruct (main_fetch _ _ _ _ _ _ _) as [[a|e] w2].
Qed.




(** X28. The channel typed at the prompt is kept. When the loaded
    configuration names no channel, a channel is typed at the prompt, and
    "config.json" is neither the log file nor the token file nor the output
    file of that configuration, the outcome turns on "config.json": when it
    can be opened for writing, [main] leaves in it that configuration with
    the typed channel identifier, however the run goes on; when it cannot,
    [main] leaves it as [load_config] did and sends no request. So it is
    on the first run, which has found no "config.json" and has written the
    default one before. *)
Theorem main_persists_the_typed_channel :
  forall (fuel : nat) (host : Host) (w : World) (config : Settings)
         (channel_id : string),
    let sys := host_sys host in
    let loaded := load_config sys (host_codec host) (w_files w) in
    loaded.1 = Return config ->
    st_channel_id config = "" ->
    host_input host = Return channel_id ->
    sys_file sys CONFIG_FILE <> sys_file sys LOG_FILE ->
    sys_file sys CONFIG_FILE <> sys_file sys (cfg_token_file (st_auth config)) ->
    sys_file sys CONFIG_FILE <> sys_file sys (st_output_file config) ->
    match sys_open_error sys CONFIG_FILE with
    | None =>
        w_files (main fuel host w).2 !! sys_file sys CONFIG_FILE
        = Some (json_dump (host_codec host)
                  (with_channel_id config channel_id))
    | Some e =>
        w_files (main fuel host w).2 !! sys_file sys CONFIG_FILE
        = loaded.2 !! sys_file sys CONFIG_FILE
        /\ w_requests (main fuel host w).2 = w_requests w
    end.
Proof.
  intros fuel host w config channel_id sys loaded Hload Hchannel Hinput Hlog
         Htoken Houtput.
  rewrite main_unfold, main_setup_unfold. cbv zeta. fold sys.
  subst loaded.
  destruct (load_config _ _ _) as [[config0|e] fs]; simpl in Hload; [|done].
  injection Hload as ->. rewrite Hchannel, Hinput. simpl. unfold write_file.
  destruct (sys_open_error sys CONFIG_FILE) as [e|]; simpl.
  { split; [|done]. by rewrite log_append_lookup_ne. }
  pose proof (get_authenticated_services_frame sys (host_auth host)
                (st_auth config)
                (<[sys_file sys CONFIG_FILE
                   := json_dump (host_codec host)
                        (with_channel_id config channel_id)]> fs)
                (sys_file sys CONFIG_FILE) Htoken Hlog) as Hframe.
  rewrite lookup_insert_eq in Hframe.
  destruct (get_authenticated_services _ _ _ _) as [[[y ya]|e] fs2];
    simpl in *.
  2:{ by rewrite log_append_lookup_ne. }
  destruct (main_fetch_files fuel host
              (with_channel_id config channel_id) channel_id
              y ya {| w_files := fs2; w_requests := w_requests w |})
    as [Hfetch _].
  specialize (Hfetch (sys_file sys CONFIG_FILE) Hlog Houtput).
  destruct (main_fetch _ _ _ _ _ _ _) as [[a|e] w2]; simpl in *.
  - congruence.
  - rewrite log_append_lookup_ne by done. congruence.
Qed.

Lemma main_persists_the_typed_channel_witness :
  w_files (main 3 (demo_host "UC") demo_world).2 !! "config.json" = Some "UC".
Proof.
  apply (main_persists_the_typed_channel 3 (demo_host "UC") demo_world
           default_config "UC").
  - vm_compute. reflexivity.
  - reflexivity.
  - reflexivity.
  - discriminate.
  - discriminate.
  - discriminate.
Defined.

(** A run from a stored token to the snapshot: six report queries, a
    channel lookup, three pages of which the last fails, a detail call for
    each of the two years listed, and the snapshot in the output file. *)
Example main_demo_run :
  let out :=
    main 3 (demo_host "UC")
      {| w_files := {[ "config.json" := "UC"; "token.json" := "stored" ]};
         w_requests := [] |} in
  out.1 = Return (Some tt)
  /\ length (w_requests out.2) = 12%nat
  /\ w_files out.2 !! "youtube_data.json" = Some "UC"
  /\ w_files out.2 !! "token.json" = Some "stored".
Proof. vm_compute. by repeat split. Qed.
